(** * Manifest preparation for speech corpora: a shallow embedding of
      [data_preparation.py] (classes [copy_data_locally], [timit_prepare]
      and [librispeech_prepare]) and the properties of its specification.

    Strings are sequences of characters with code points below 256
    (the type [ascii] of 8-bit characters), Python dictionaries are
    finite maps ([gmap]), and every method is a function in a small monad
    that threads the filesystem, records the effects in a trace and
    propagates Python exceptions. *)

From Stdlib Require Import Ascii.
From stdpp Require Import gmap strings list fin_maps.

(** String concatenation computes on a literal prefix. *)
Arguments String.append !_ _ / : simpl nomatch.

(** ** Python string operations used by the source *)

Module PyStr.

(** [s.startswith(p)] *)
Fixpoint startswith (p s : string) : bool :=
  match p, s with
  | EmptyString, _ => true
  | String _ _, EmptyString => false
  | String a p', String b s' => Ascii.eqb a b && startswith p' s'
  end.

(** [tok in s]: substring containment. *)
Fixpoint contains (tok s : string) : bool :=
  startswith tok s ||
  match s with
  | EmptyString => false
  | String _ s' => contains tok s'
  end.

(** [c in s] for a single character. *)
Fixpoint mem_char (c : ascii) (s : string) : bool :=
  match s with
  | EmptyString => false
  | String a s' => Ascii.eqb a c || mem_char c s'
  end.

(** [s.replace(old, new)] for a non-empty [old]: scan from the left; at a
    match emit [new] and skip the rest of the match ([skip] counts the
    characters of the current match still to be dropped). *)
Fixpoint replace_go (old new s : string) (skip : nat) : string :=
  match s with
  | EmptyString => EmptyString
  | String c s' =>
      match skip with
      | S k => replace_go old new s' k
      | O =>
          if startswith old s
          then new +:+ replace_go old new s' (String.length old - 1)
          else String c (replace_go old new s' 0)
      end
  end.

(** With an empty [old] Python puts [new] before every character and at
    the end. *)
Fixpoint intersperse (new s : string) : string :=
  match s with
  | EmptyString => new
  | String c s' => new +:+ String c (intersperse new s')
  end.

Definition replace (old new s : string) : string :=
  match old with
  | EmptyString => intersperse new s
  | String _ _ => replace_go old new s 0
  end.

(** [s.split(sep)] for a one-character separator: never empty, and
    adjacent separators give empty strings. *)
Fixpoint split (sep : ascii) (s : string) : list string :=
  match s with
  | EmptyString => [EmptyString]
  | String c s' =>
      if Ascii.eqb c sep then EmptyString :: split sep s'
      else match split sep s' with
           | [] => [String c EmptyString]
           | w :: ws => String c w :: ws
           end
  end.

(** [sep.join(l)] *)
Definition join (sep : string) (l : list string) : string :=
  String.concat sep l.

(** [s.lstrip(...)] and [s.rstrip(...)] for a set of characters given as
    a predicate. *)
Fixpoint lstrip (p : ascii → bool) (s : string) : string :=
  match s with
  | EmptyString => EmptyString
  | String a s' => if p a then lstrip p s' else s
  end.

Fixpoint rstrip (p : ascii → bool) (s : string) : string :=
  match s with
  | EmptyString => EmptyString
  | String a s' =>
      match rstrip p s' with
      | EmptyString => if p a then EmptyString else String a EmptyString
      | r => String a r
      end
  end.

Definition newline : ascii := ascii_of_nat 10.
Definition space : ascii := ascii_of_nat 32.
Definition slash : ascii := ascii_of_nat 47.
Definition dash : ascii := ascii_of_nat 45.

(** The characters for which [str.isspace] holds, among the code points
    below 256: the ASCII controls 9 to 13 and 28 to 31, the space, the
    next-line control U+0085 and the no-break space U+00A0. *)
Definition is_space (a : ascii) : bool :=
  let n := nat_of_ascii a in
  ((9 <=? n) && (n <=? 13)) || ((28 <=? n) && (n <=? 32)) ||
  (n =? 133) || (n =? 160).

(** [s.rstrip("\n")] and [s.strip()] *)
Definition rstrip_newline (s : string) : string :=
  rstrip (Ascii.eqb newline) s.
Definition strip (s : string) : string :=
  rstrip is_space (lstrip is_space s).

(** Indexing of lists: [l[i]], [l[-1]], [l[-2]], [l[1:]], [l[0:2]];
    [None] stands for Python's [IndexError]. *)
Definition index {A} (l : list A) (i : nat) : option A := l !! i.
Definition index_neg {A} (l : list A) (k : nat) : option A :=
  if decide (1 ≤ k ≤ length l) then l !! (length l - k) else None.

(** [os.path.basename] and [os.path.dirname] of [posixpath]: the path
    is cut after its last slash; [dirname] then drops the trailing
    slashes of the head unless the head consists of slashes only. *)
Definition basename (p : string) : string :=
  List.last (split slash p) EmptyString.

Definition path_head (p : string) : string :=
  match removelast (split slash p) with
  | [] => EmptyString
  | l => join "/" l +:+ "/"
  end.

Definition dirname (p : string) : string :=
  let head := path_head p in
  match rstrip (Ascii.eqb slash) head with
  | EmptyString => head
  | h => h
  end.

End PyStr.

(** ** Values, files and effects *)

(** A resolved option value, as [check_opts] leaves it in [self.conf]. *)
Inductive optval :=
| OptNone
| OptStr (s : string)
| OptStrList (l : list string)
| OptIntList (l : list nat).

Global Instance optval_eq_dec : EqDecision optval.
Proof. solve_decision. Defined.

(** The Python values that are pickled: the resolved configuration (a
    dictionary compared by value), a label blob of the label store, and
    [None]. *)
Inductive pyval :=
| PyNone
| PyConf (c : gmap string optval)
| PyLabel (l : list Z).

Global Instance pyval_eq_dec : EqDecision pyval.
Proof. solve_decision. Defined.

(** [v == conf] for a loaded value [v] and the dictionary [conf]. *)
Definition py_eq_conf (v : pyval) (conf : gmap string optval) : bool :=
  match v with
  | PyConf c => bool_decide (c = conf)
  | _ => false
  end.

(** The filesystem: a finite map from path strings to nodes. A text file
    holds the lines that iterating over the open file yields (each with
    its line terminator), an audio file its number of samples. *)
Inductive node :=
| Dir
| Text (lines : list string)
| Pickle (v : pyval)
| Audio (samples : N)
| Garbage.

Global Instance node_eq_dec : EqDecision node.
Proof. solve_decision. Defined.

Definition is_dir (n : node) : bool :=
  match n with Dir => true | _ => false end.

Inductive exn :=
| FileNotFoundError (p : string)
| FileExistsError (p : string)
| NotADirectoryError (p : string)
| IsADirectoryError (p : string)
| UnicodeDecodeError (p : string)
| IndexError
| KeyError (k : string)
| TypeError
| ZeroDivisionError
| UnboundLocalError (var : string)
| LoggedError (msg : string)
| CollaboratorError (who : string).

Inductive level := Debug | Error.

(** What a run does to the outside world, in order. *)
Inductive event :=
| EvLog (lvl : level) (msg : string)
| EvMakedirs (p : string)
| EvSavePkl (p : string) (v : pyval)
| EvWriteTxt (p : string) (lines : list string)
| EvShell (cmd : string).

Global Instance level_eq_dec : EqDecision level.
Proof. solve_decision. Defined.

Global Instance event_eq_dec : EqDecision event.
Proof. solve_decision. Defined.

(** The event writes (or creates) the path [p]. *)
Definition writes_to (p : string) (e : event) : Prop :=
  match e with
  | EvSavePkl q _ | EvWriteTxt q _ | EvMakedirs q => q = p
  | EvLog _ _ | EvShell _ => False
  end.

(** The event is work on the filesystem (anything but a log message). *)
Definition is_fs_work (e : event) : bool :=
  match e with
  | EvLog _ _ => false
  | _ => true
  end.

Definition is_shell (e : event) : bool :=
  match e with
  | EvShell _ => true
  | _ => false
  end.

(** The parts of the repository that [data_preparation.py] imports and
    whose behaviour it does not fix: what [utils.logger_write] does after
    writing a message of level "error" (the default level), the text of a
    float quotient, the label reader, the shell, and what [load_pkl]
    makes of a file that is not a pickle. *)
Class Collaborators := {
  error_raises : bool;
  float_div_str : N → N → string;
  kaldi_lab_reader :
    gmap string node → string → option string → string →
    exn + gmap string (list Z);
  shell : string → gmap string node → (exn + unit) * gmap string node;
  load_corrupt : exn + pyval
}.

(** ** The monad of the embedding: filesystem state, trace, exceptions *)

Record Res (A : Type) := mkRes {
  outcome : exn + A;
  final : gmap string node;
  trace : list event
}.
Arguments mkRes {A} _ _ _.
Arguments outcome {A} _.
Arguments final {A} _.
Arguments trace {A} _.

Definition M (A : Type) : Type := gmap string node → Res A.

Definition ret {A} (a : A) : M A := λ fs, mkRes (inr a) fs [].

Definition raise {A} (e : exn) : M A := λ fs, mkRes (inl e) fs [].

Definition bind {A B} (m : M A) (k : A → M B) : M B := λ fs,
  let r := m fs in
  match outcome r with
  | inl e => mkRes (inl e) (final r) (trace r)
  | inr a =>
      let r' := k a (final r) in
      mkRes (outcome r') (final r') (trace r ++ trace r')
  end.

(** [try: m except OSError as e: h e] (every modelled failure of
    [os.makedirs] is an [OSError]). *)
Definition try_except {A} (m : M A) (h : exn → M A) : M A := λ fs,
  let r := m fs in
  match outcome r with
  | inl e =>
      let r' := h e (final r) in
      mkRes (outcome r') (final r') (trace r ++ trace r')
  | inr a => r
  end.

Declare Scope py_scope.
Delimit Scope py_scope with py.
Notation "'let*' x ':=' m 'in' k" := (bind m (λ x, k))
  (at level 10, x name, m at level 100, k at level 200) : py_scope.
Open Scope py_scope.

Definition when (b : bool) (m : M unit) : M unit :=
  if b then m else ret ().

(** A value that may be missing: [None] raises [e]. *)
Definition or_raise {A} (o : option A) (e : exn) : M A :=
  match o with
  | Some a => ret a
  | None => raise e
  end.

(** [for x in l: s = body s x] *)
Fixpoint for_each {S A} (body : S → A → M S) (l : list A) (s : S) : M S :=
  match l with
  | [] => ret s
  | x :: l' => let* s' := body s x in for_each body l' s'
  end.

(** The same with [break]: the body says whether the loop goes on. *)
Inductive flow (S : Type) := Continue (s : S) | Break (s : S).
Arguments Continue {S} _.
Arguments Break {S} _.

Fixpoint for_each_break {S A} (body : S → A → M (flow S)) (l : list A)
    (s : S) : M S :=
  match l with
  | [] => ret s
  | x :: l' =>
      let* f := body s x in
      match f with
      | Continue s' => for_each_break body l' s'
      | Break s' => ret s'
      end
  end.

(** ** The operating system and the imported helpers *)

Definition tab : string := String (ascii_of_nat 9) EmptyString.

(** [str(x)] / [%s] for an optional string ([None] prints as "None"). *)
Definition str_opt (o : option string) : string := default "None" o.

(** [os.path.exists] and [os.path.isfile] *)
Definition os_path_exists (p : string) : M bool := λ fs,
  mkRes (inr (bool_decide (is_Some (fs !! p)))) fs [].

Definition isfile_in (fs : gmap string node) (p : string) : bool :=
  match fs !! p with
  | Some n => negb (is_dir n)
  | None => false
  end.

Definition os_path_isfile (p : string) : M bool := λ fs,
  mkRes (inr (isfile_in fs p)) fs [].

(** The proper ancestors of a path, nearest first. *)
Fixpoint ancestors (fuel : nat) (p : string) : list string :=
  match fuel with
  | O => []
  | S k =>
      let d := PyStr.dirname p in
      if decide (d = p ∨ d = EmptyString) then [] else d :: ancestors k d
  end.

Definition mkdir_missing (d : string) (fs : gmap string node) :
    gmap string node :=
  match fs !! d with
  | Some _ => fs
  | None => <[d := Dir]> fs
  end.

(** The path whose [mkdir] fails with ENOTDIR: [os.makedirs] goes up
    from [c] through its ancestors [ds] (nearest first) to the first one
    that exists; when that one is not a directory, the [mkdir] of the
    path just below it fails. *)
Fixpoint below_file (fs : gmap string node) (c : string)
    (ds : list string) : option string :=
  match ds with
  | [] => None
  | d :: ds' =>
      match fs !! d with
      | Some Dir => None
      | Some _ => Some c
      | None => below_file fs d ds'
      end
  end.

(** [os.makedirs(p)]: the empty path is the error ENOENT, an existing
    [p] the error EEXIST, an ancestor that is a regular file the error
    ENOTDIR (raised by the [mkdir] of the path just below that file);
    otherwise [p] and its missing ancestors become directories. *)
Definition os_makedirs (p : string) : M unit := λ fs,
  if String.eqb p EmptyString then mkRes (inl (FileNotFoundError p)) fs []
  else
  match fs !! p with
  | Some _ => mkRes (inl (FileExistsError p)) fs []
  | None =>
      match below_file fs p (ancestors (String.length p) p) with
      | Some c => mkRes (inl (NotADirectoryError c)) fs []
      | None =>
          mkRes (inr ())
            (foldr mkdir_missing (<[p := Dir]> fs)
               (ancestors (String.length p) p))
            [EvMakedirs p]
      end
  end.

(** [open(p)] iterated line by line. *)
Definition open_lines (p : string) : M (list string) := λ fs,
  match fs !! p with
  | None => mkRes (inl (FileNotFoundError p)) fs []
  | Some Dir => mkRes (inl (IsADirectoryError p)) fs []
  | Some (Text ls) => mkRes (inr ls) fs []
  | Some _ => mkRes (inl (UnicodeDecodeError p)) fs []
  end.

(** Modelled from the spec: the audio reader [read_wav_soundfile] of
    [data_io], of which the source uses the number of samples only. *)
Definition read_wav_soundfile (p : string) : M N := λ fs,
  match fs !! p with
  | Some (Audio n) => mkRes (inr n) fs []
  | _ => mkRes (inl (CollaboratorError "read_wav_soundfile")) fs []
  end.

(** Modelled from the spec: the blob store [save_pkl] / [load_pkl] of
    [data_io], an opaque round trip. *)
Definition save_pkl (v : pyval) (p : string) : M unit := λ fs,
  mkRes (inr ()) (<[p := Pickle v]> fs) [EvSavePkl p v].

Definition load_pkl `{!Collaborators} (p : string) : M pyval := λ fs,
  match fs !! p with
  | Some (Pickle v) => mkRes (inr v) fs []
  | _ => mkRes load_corrupt fs []
  end.

(** Modelled from the spec: the line writer [write_txt_file] of
    [data_io]; the file is rewritten in full, one line per element. *)
Definition write_txt_file (lines : list string) (p : string) : M unit :=
  λ fs,
  mkRes (inr ())
    (<[p := Text ((λ l, l +:+ String PyStr.newline EmptyString) <$> lines)]> fs)
    [EvWriteTxt p lines].

(** [utils.logger_write(msg, level=...)]: the message is logged; what
    happens after a message of level "error" is the collaborator's. *)
Definition logger_write `{!Collaborators} (msg : string) (lvl : level) :
    M unit := λ fs,
  mkRes
    (match lvl with
     | Error => if error_raises then inl (LoggedError msg) else inr ()
     | Debug => inr ()
     end) fs [EvLog lvl msg].

Definition run_shell `{!Collaborators} (cmd : string) : M unit := λ fs,
  let r := shell cmd fs in
  mkRes r.1 r.2 [EvShell cmd].

Definition read_kaldi_lab `{!Collaborators} (kaldi_lab : string)
    (kaldi_lab_opts : option string) (logfile : string) :
    M (gmap string (list Z)) := λ fs,
  mkRes (kaldi_lab_reader fs kaldi_lab kaldi_lab_opts logfile) fs [].

(** ** [copy_data_locally] *)

Module copy_data_locally.

(** The attributes that [check_opts] binds on the object. *)
Record options := {
  data_file : list string;
  local_folder : string;
  copy_cmd : string;
  copy_opts : string;
  uncompress_cmd : string;
  uncompress_opts : string
}.

(** The destination of an archive: next to the local folder. *)
Definition upper_folder (o : options) : string :=
  PyStr.dirname (PyStr.dirname (local_folder o +:+ "/")).

Definition dest_file (o : options) (f : string) : string :=
  upper_folder o +:+ "/" +:+ PyStr.basename f.

(** The two command lines (lines 176-183 and 195-204). *)
Definition copy_command (o : options) (f dest : string) : string :=
  copy_cmd o +:+ " " +:+ copy_opts o +:+ f +:+ " " +:+ dest.

Definition uncompress_command (o : options) (dest : string) : string :=
  uncompress_cmd o +:+ " " +:+ uncompress_opts o +:+ dest +:+ " -C " +:+
  " " +:+ (local_folder o +:+ "/") +:+ " --strip-components=1".

Section run.
Context `{collab : !Collaborators}.

(** The body of the loop over [self.data_file]. *)
Definition stage (o : options) (_ : unit) (f : string) : M unit :=
  let dest := dest_file o f in
  let* there := os_path_exists dest in
  if negb there then
    let* _ := logger_write
      (tab +:+ "copying file " +:+ f +:+ " into " +:+ dest +:+ " !")
      Debug in
    let* _ := run_shell (copy_command o f dest) in
    let* _ := logger_write
      (tab +:+ "uncompressing file " +:+ dest +:+ " into " +:+
       (local_folder o +:+ "/") +:+ " !") Debug in
    run_shell (uncompress_command o dest)
  else ret ().

(** [__init__], after [check_opts] and [check_inputs]. *)
Definition init (o : options) : M unit :=
  let* _ :=
    try_except (os_makedirs (local_folder o))
      (λ e,
         match e with
         | FileExistsError _ => ret ()
         | _ =>
             logger_write
               ("Cannot create the data local folder " +:+
                local_folder o +:+ "!") Error
         end) in
  for_each (stage o) (data_file o) ().

End run.

End copy_data_locally.

(** ** Helpers shared by the two corpus classes *)

Definition dquote : string := String (ascii_of_nat 34) EmptyString.

(** [global_config["output_folder"]] for a [global_config] that may be
    [None] or lack the key. *)
Definition output_folder_of (global_config : option (gmap string string)) :
    M string :=
  match global_config with
  | None => raise TypeError
  | Some g => or_raise (g !! "output_folder") (KeyError "output_folder")
  end.

(** Modelled from the spec: [utils.get_all_files], the file discovery
    engine. It enumerates the regular files below [root] and keeps the
    paths that contain every token of [match_and], one token of
    [match_or] when that list is given and not empty, and no token of
    [exclude_or]. *)
Definition under (root p : string) : bool :=
  PyStr.startswith
    (if PyStr.startswith "/" (String.rev root) then root else root +:+ "/") p.

Definition path_matches (match_and : list string)
    (match_or exclude_or : option (list string)) (p : string) : bool :=
  forallb (λ tok, PyStr.contains tok p) match_and
  && match match_or with
     | None | Some [] => true
     | Some l => existsb (λ tok, PyStr.contains tok p) l
     end
  && match exclude_or with
     | None => true
     | Some l => negb (existsb (λ tok, PyStr.contains tok p) l)
     end.

Definition files_below (fs : gmap string node) (root : string) :
    list string :=
  List.filter (λ p, isfile_in fs p && under root p) (map_to_list fs).*1.

Definition get_all_files (root : string) (match_and : list string)
    (match_or exclude_or : option (list string)) : M (list string) := λ fs,
  mkRes
    (inr (List.filter (path_matches match_and match_or exclude_or)
            (files_below fs root)))
    fs [].

(** [snt_no_lab / len(wav_lst) > 0.05]. The quotient of the two integers
    is a double; for a list of fewer than 10^15 files the double
    comparison with the constant 0.05 holds exactly when
    [20 * snt_no_lab > len(wav_lst)], which is how it is written here. *)
Definition ratio_exceeds (snt_no_lab len_wav_lst : nat) : bool :=
  bool_decide (len_wav_lst < 20 * snt_no_lab).

(** ** [timit_prepare] *)

Module timit_prepare.

(** The attributes that [check_opts] binds on the object, and the
    dictionary [self.conf] it returns. *)
Record options := {
  conf : gmap string optval;
  data_folder : string;
  splits : list string;
  kaldi_ali_tr : option string;
  kaldi_ali_dev : option string;
  kaldi_ali_test : option string;
  kaldi_lab_opts : option string;
  save_folder_opt : option string
}.

(** The object once [__init__] has set the save folder. *)
Record self := {
  opts : options;
  save_folder : string;
  global_config : option (gmap string string)
}.

Definition samplerate : N := 16000.

Definition test_spk : list string :=
  ["fdhc0"; "felc0"; "fjlm0"; "fmgd0"; "fmld0"; "fnlp0"; "fpas0"; "fpkt0";
   "mbpm0"; "mcmj0"; "mdab0"; "mgrt0"; "mjdh0"; "mjln0"; "mjmp0"; "mklt0";
   "mlll0"; "mlnt0"; "mnjm0"; "mpam0"; "mtas1"; "mtls0"; "mwbt0"; "mwew0"].

Definition dev_spk : list string :=
  ["fadg0"; "faks0"; "fcal1"; "fcmh0"; "fdac1"; "fdms0"; "fdrw0"; "fedw0";
   "fgjd0"; "fjem0"; "fjmg0"; "fjsj0"; "fkms0"; "fmah0"; "fmml0"; "fnmr0";
   "frew0"; "fsem0"; "majc0"; "mbdg0"; "mbns0"; "mbwm0"; "mcsh0"; "mdlf0";
   "mdls0"; "mdvc0"; "mers0"; "mgjf0"; "mglb0"; "mgwt0"; "mjar0"; "mjfc0";
   "mjsw0"; "mmdb1"; "mmdm2"; "mmjr0"; "mmwh0"; "mpdf0"; "mrcs0"; "mreb0";
   "mrjm4"; "mrjr0"; "mroa0"; "mrtk0"; "mrws1"; "mtaa0"; "mtdt0"; "mteb0";
   "mthc0"; "mwjg0"].

Definition avoid_sentences : list string := ["sa1"; "sa2"].
Definition extension : list string := [".wav"].

Definition save_opt (s : self) : string :=
  save_folder s +:+ "/opt_timit_prepare.pkl".
Definition save_scp_train (s : self) : string :=
  save_folder s +:+ "/train.scp".
Definition save_scp_dev (s : self) : string :=
  save_folder s +:+ "/dev.scp".
Definition save_scp_test (s : self) : string :=
  save_folder s +:+ "/test.scp".

(** The local variables of [create_scp] that the loop updates;
    [snt_lab_path] is unbound until the first label is found. *)
Record locals := {
  snt_no_lab : nat;
  missing_lab : bool;
  snt_lab_path : option string;
  scp_lines : list string
}.

(** The speaker and sentence identifiers of a wav file (lines
    667-670): [spk_id = wav_file.split("/")[-2]], then
    [snt_id = spk_id + "_" + wav_file.split("/")[-1].replace(".wav", "")];
    [None] is the [IndexError] of a path without a slash. *)
Definition ids_of (wav_file : string) : option (string * string) :=
  let parts := PyStr.split PyStr.slash wav_file in
  spk_id ← PyStr.index_neg parts 2;
  name ← PyStr.index_neg parts 1;
  Some (spk_id, spk_id +:+ "_" +:+ PyStr.replace ".wav" "" name).

(** [line.rstrip("\n").split(" ")[2]] and the same after
    [.replace("h#", "sil")]. *)
Definition word_of_line (line : string) : option string :=
  PyStr.index (PyStr.split PyStr.space (PyStr.rstrip_newline line)) 2.

Definition phoneme_of_line (line : string) : option string :=
  PyStr.index
    (PyStr.split PyStr.space
       (PyStr.replace "h#" "sil" (PyStr.rstrip_newline line))) 2.

(** The composition of the scp line (lines 738-755). *)
Definition scp_line (snt_id duration wav_file spk_id phonemes words :
    string) : string :=
  "ID=" +:+ snt_id +:+ " duration=" +:+ duration +:+
  " wav=(" +:+ wav_file +:+ ",wav)" +:+
  " spk_id=(" +:+ spk_id +:+ ",string)" +:+
  " phn=(" +:+ PyStr.replace " " "_" phonemes +:+ ",string)" +:+
  " wrd=(" +:+ PyStr.replace " " "_" words +:+ ",string)".

Definition no_label_msg (snt_id : string) : string :=
  tab +:+ "The sentence " +:+ snt_id +:+
  " does not have a corresponding kaldi label".

Definition too_many_msg (s : self) : string :=
  "Too many sentences do not have the corresponding kaldi label. " +:+
  "Please check data and kaldi labels (check " +:+
  data_folder (opts s) +:+ " and " +:+
  str_opt (kaldi_ali_test (opts s)) +:+ ").".

Definition missing_file_msg (f : string) : string :=
  "the wrd file " +:+ f +:+ " does not exists!".

Section run.
Context `{collab : !Collaborators}.

Definition skip (s : self) : M bool :=
  let* a := os_path_isfile (save_scp_train s) in
  let* b := if a then os_path_isfile (save_scp_dev s) else ret false in
  let* c := if b then os_path_isfile (save_scp_test s) else ret false in
  let* d := if c then os_path_isfile (save_opt s) else ret false in
  if d then
    let* opts_old := load_pkl (save_opt s) in
    ret (py_eq_conf opts_old (conf (opts s)))
  else ret false.

(** The label lookup of one sentence (lines 672-698); [labs] holds
    [lab] and [lab_out_dir], which exist when [kaldi_lab] is given. *)
Definition check_label (s : self) (len_wav_lst : nat)
    (labs : gmap string (list Z) * string) (snt_id : string)
    (st : locals) : M locals :=
  let* st' :=
    match labs.1 !! snt_id with
    | None =>
        let* _ := logger_write (no_label_msg snt_id) Debug in
        ret {| snt_no_lab := snt_no_lab st + 1;
               missing_lab := false;
               snt_lab_path := snt_lab_path st;
               scp_lines := scp_lines st |}
    | Some blob =>
        let path := labs.2 +:+ "/" +:+ snt_id +:+ ".pkl" in
        let* _ := save_pkl (PyLabel blob) path in
        ret {| snt_no_lab := snt_no_lab st;
               missing_lab := missing_lab st;
               snt_lab_path := Some path;
               scp_lines := scp_lines st |}
    end in
  let* _ :=
    match len_wav_lst with
    | O => raise ZeroDivisionError
    | _ => when (ratio_exceeds (snt_no_lab st') len_wav_lst)
             (logger_write (too_many_msg s) Error)
    end in
  ret st'.

(** The second half of the loop body (lines 703-761): the duration,
    the words, the phonemes and the line of the manifest. *)
Definition append_line (labs : option (gmap string (list Z) * string))
    (st : locals) (ids : string * string) (wav_file : string) :
    M locals :=
  let spk_id := ids.1 in
  let snt_id := ids.2 in
  let* samples := read_wav_soundfile wav_file in
  let duration := float_div_str samples samplerate in
  let wrd_file := PyStr.replace ".wav" ".wrd" wav_file in
  let* dir_there := os_path_exists (PyStr.dirname wrd_file) in
  let* _ := when (negb dir_there)
              (logger_write (missing_file_msg wrd_file) Error) in
  let* wrd_lines := open_lines wrd_file in
  let* words := or_raise (mapM word_of_line wrd_lines) IndexError in
  let words := PyStr.join "_" words in
  let phn_file := PyStr.replace ".wav" ".phn" wav_file in
  let* dir_there := os_path_exists (PyStr.dirname phn_file) in
  let* _ := when (negb dir_there)
              (logger_write (missing_file_msg phn_file) Error) in
  let* phn_lines := open_lines phn_file in
  let* phonemes :=
    or_raise (mapM phoneme_of_line phn_lines) IndexError in
  let phonemes := PyStr.join "_" phonemes in
  let line := scp_line snt_id duration wav_file spk_id phonemes words in
  let* line :=
    match labs with
    | Some _ =>
        let* path := or_raise (snt_lab_path st)
                       (UnboundLocalError "snt_lab_path") in
        ret (line +:+ " kaldi_lab=(" +:+ path +:+ ",pkl)")
    | None => ret line
    end in
  ret {| snt_no_lab := snt_no_lab st;
         missing_lab := missing_lab st;
         snt_lab_path := snt_lab_path st;
         scp_lines := scp_lines st ++ [line] |}.

(** The body of the loop over [wav_lst] (lines 664-761). *)
Definition process_wav (s : self) (len_wav_lst : nat)
    (labs : option (gmap string (list Z) * string))
    (st : locals) (wav_file : string) : M locals :=
  let* ids := or_raise (ids_of wav_file) IndexError in
  let* st :=
    match labs with
    | Some l => check_label s len_wav_lst l ids.2 st
    | None => ret st
    end in
  if missing_lab st then ret st
  else append_line labs st ids wav_file.

(** Reading the labels when [kaldi_lab] is given (lines 648-659). *)
Definition load_labels (s : self) (kaldi_lab kaldi_lab_opts :
    option string) : M (option (gmap string (list Z) * string)) :=
  match kaldi_lab with
  | None => ret None
  | Some dir =>
      let* out := output_folder_of (global_config s) in
      let* lab := read_kaldi_lab dir kaldi_lab_opts (out +:+ "/log.log") in
      let lab_out_dir := save_folder s +:+ "/kaldi_labels" in
      let* there := os_path_exists lab_out_dir in
      let* _ := when (negb there) (os_makedirs lab_out_dir) in
      ret (Some (lab, lab_out_dir))
  end.

Definition init_locals : locals :=
  {| snt_no_lab := 0; missing_lab := false; snt_lab_path := None;
     scp_lines := [] |}.

(** The loop alone, with the values its variables end with. *)
Definition process_all (s : self) (wav_lst : list string)
    (labs : option (gmap string (list Z) * string)) : M locals :=
  for_each (process_wav s (length wav_lst) labs) wav_lst init_locals.

Definition create_scp (s : self) (wav_lst : list string)
    (scp_file : string) (kaldi_lab kaldi_lab_opts : option string) :
    M unit :=
  let* _ := logger_write
    (tab +:+ dquote +:+ "Creating scp lists in  " +:+ scp_file +:+
     "..." +:+ dquote) Debug in
  let* labs := load_labels s kaldi_lab kaldi_lab_opts in
  let* st := process_all s wav_lst labs in
  let* _ := write_txt_file (scp_lines st) scp_file in
  logger_write (tab +:+ scp_file +:+ " sucessfully created!") Debug.

Definition check_timit_folders (s : self) : M unit :=
  let* there := os_path_exists (data_folder (opts s) +:+ "/test/dr1") in
  let* _ := when (negb there)
    (logger_write
       ("the folder " +:+ (data_folder (opts s) +:+ "/test/dr*") +:+
        " does not exist (it is expected in the TIMIT dataset)")
       Error) in
  let* there := os_path_exists (data_folder (opts s) +:+ "/train/dr1") in
  when (negb there)
    (logger_write
       ("the folder " +:+ (data_folder (opts s) +:+ "/train/dr*") +:+
        " does not exist (it is expected in the TIMIT dataset)")
       Error).

(** The three splits of [__init__] (lines 463-517). *)
Definition split_train (s : self) : M unit :=
  when (bool_decide ("train" ∈ splits (opts s)))
    (let* wav_lst_train :=
       get_all_files (data_folder (opts s)) (extension ++ ["train"])
         None (Some avoid_sentences) in
     create_scp s wav_lst_train (save_scp_train s)
       (kaldi_ali_tr (opts s)) (kaldi_lab_opts (opts s))).

Definition split_dev (s : self) : M unit :=
  when (bool_decide ("dev" ∈ splits (opts s)))
    (let* wav_lst_dev :=
       get_all_files (data_folder (opts s)) (extension ++ ["test"])
         (Some dev_spk) (Some avoid_sentences) in
     create_scp s wav_lst_dev (save_scp_dev s)
       (kaldi_ali_dev (opts s)) (kaldi_lab_opts (opts s))).

Definition split_test (s : self) : M unit :=
  when (bool_decide ("test" ∈ splits (opts s)))
    (let* wav_lst_test :=
       get_all_files (data_folder (opts s)) (extension ++ ["test"])
         (Some test_spk) (Some avoid_sentences) in
     create_scp s wav_lst_test (save_scp_test s)
       (kaldi_ali_test (opts s)) (kaldi_lab_opts (opts s))).

(** What [__init__] does once [skip] has said no (lines 457-520). *)
Definition build (s : self) : M unit :=
  let* _ := check_timit_folders s in
  let* _ := logger_write
    (tab +:+ "Creating scp file for the TIMIT Dataset..") Debug in
  let* _ := split_train s in
  let* _ := split_dev s in
  let* _ := split_test s in
  save_pkl (PyConf (conf (opts s))) (save_opt s).

(** Setting the save folder (lines 429-435). *)
Definition set_save_folder (o : options) (funct_name : option string)
    (global_config : option (gmap string string)) : M self :=
  let* folder :=
    match save_folder_opt o with
    | Some f => ret f
    | None =>
        let* output_folder := output_folder_of global_config in
        let* name := or_raise funct_name TypeError in
        ret (output_folder +:+ "/" +:+ name)
    end in
  let* there := os_path_exists folder in
  let* _ := when (negb there) (os_makedirs folder) in
  ret {| opts := o; save_folder := folder;
         global_config := global_config |}.

(** [__init__], after [check_opts] and [check_inputs]. *)
Definition init (o : options) (funct_name : option string)
    (global_config : option (gmap string string)) : M unit :=
  let* s := set_save_folder o funct_name global_config in
  let* done := skip s in
  if done then
    let* _ := logger_write
      (tab +:+ save_scp_train s +:+ " sucessfully created!") Debug in
    let* _ := logger_write
      (tab +:+ save_scp_dev s +:+ " sucessfully created!") Debug in
    logger_write
      (tab +:+ save_scp_test s +:+ " sucessfully created!") Debug
  else build s.

End run.

End timit_prepare.

(** ** [librispeech_prepare] *)

Module librispeech_prepare.

Record options := {
  conf : gmap string optval;
  data_folder : string;
  splits : list string;
  save_folder_opt : option string;
  select_n_sentences : option (list nat)
}.

Record self := {
  opts : options;
  save_folder : string
}.

Definition samplerate : N := 16000.

Definition save_opt (s : self) : string :=
  save_folder s +:+ "/opt_librispeech_prepare.pkl".

Definition scp_path (s : self) (split : string) : string :=
  save_folder s +:+ "/" +:+ split +:+ ".scp".

(** [wav_file.split("/")[-1].replace(".flac", "")] and
    ["-".join(snt_id.split("-")[0:2])] *)
Definition snt_id_of (wav_file : string) : string :=
  PyStr.replace ".flac" ""
    (List.last (PyStr.split PyStr.slash wav_file) EmptyString).

Definition spk_id_of (snt_id : string) : string :=
  PyStr.join "-" (take 2 (PyStr.split PyStr.dash snt_id)).

(** The composition of the scp line (lines 1079-1093). *)
Definition scp_line (snt_id duration wav_file spk_id wrd : string) :
    string :=
  "ID=" +:+ snt_id +:+ " duration=" +:+ duration +:+
  " wav=(" +:+ wav_file +:+ ",flac)" +:+
  " spk_id=(" +:+ spk_id +:+ ",string)" +:+
  " wrd=(" +:+ wrd +:+ ",string)".

(** One line of a transcription file put into the dictionary (lines
    1215-1216). *)
Definition add_line (text_dict : gmap string string) (line : string) :
    gmap string string :=
  let line_lst := PyStr.split PyStr.space (PyStr.strip line) in
  <[List.hd EmptyString line_lst := PyStr.join "_" (List.tl line_lst)]>
    text_dict.

Definition text_to_dict (text_lst : list string) :
    M (gmap string string) :=
  for_each
    (λ text_dict file,
       let* lines := open_lines file in
       ret (foldl add_line text_dict lines))
    text_lst ∅.

Section run.
Context `{collab : !Collaborators}.

Definition skip (s : self) : M bool :=
  let* skip :=
    for_each
      (λ skip split,
         let* there := os_path_isfile (scp_path s split) in
         ret (if negb there then false else skip))
      (splits (opts s)) true in
  if skip then
    let* there := os_path_isfile (save_opt s) in
    if there then
      let* opts_old := load_pkl (save_opt s) in
      ret (if py_eq_conf opts_old (conf (opts s)) then true else false)
    else ret skip
  else ret skip.

(** The body of the loop over [wav_lst] (lines 1069-1100); the state
    is [scp_lines] and [snt_cnt]. *)
Definition process_wav (text_dict : gmap string string)
    (select_n_sentences : nat) (st : list string * nat)
    (wav_file : string) : M (flow (list string * nat)) :=
  let snt_id := snt_id_of wav_file in
  let spk_id := spk_id_of snt_id in
  let* wrd := or_raise (text_dict !! snt_id) (KeyError snt_id) in
  let* samples := read_wav_soundfile wav_file in
  let duration := float_div_str samples samplerate in
  let line := scp_line snt_id duration wav_file spk_id wrd in
  let st' := (st.1 ++ [line], st.2 + 1) in
  if decide (st'.2 = select_n_sentences) then ret (Break st')
  else ret (Continue st').

Definition process_all (wav_lst : list string)
    (text_dict : gmap string string) (select_n_sentences : nat) :
    M (list string * nat) :=
  for_each_break (process_wav text_dict select_n_sentences) wav_lst
    ([], 0).

Definition create_scp (s : self) (wav_lst : list string)
    (text_dict : gmap string string) (split : string)
    (select_n_sentences : nat) : M unit :=
  let scp_file := scp_path s split in
  let* _ := logger_write
    (tab +:+ "Creating scp lists in  " +:+ scp_file +:+ "...") Debug in
  let* st := process_all wav_lst text_dict select_n_sentences in
  let* _ := write_txt_file st.1 scp_file in
  logger_write (tab +:+ scp_file +:+ " sucessfully created!") Debug.

Definition check_librispeech_folders (s : self) : M unit :=
  for_each
    (λ _ split,
       let folder := data_folder (opts s) +:+ "/" +:+ split in
       let* there := os_path_exists folder in
       when (negb there)
         (logger_write
            ("the folder " +:+ folder +:+
             " does not exist (it is expected in the " +:+
             "Librispeech dataset)") Error))
    (splits (opts s)) ().

(** One turn of the loop over the splits (lines 972-991). *)
Definition prepare_split (s : self) (_ : unit) (split_index : nat) :
    M unit :=
  let* split := or_raise (splits (opts s) !! split_index) IndexError in
  let* wav_lst :=
    get_all_files (data_folder (opts s) +:+ "/" +:+ split) [".flac"]
      None None in
  let* text_lst :=
    get_all_files (data_folder (opts s) +:+ "/" +:+ split) ["trans.txt"]
      None None in
  let* text_dict := text_to_dict text_lst in
  let* n :=
    match select_n_sentences (opts s) with
    | Some l => or_raise (l !! split_index) IndexError
    | None => ret (length wav_lst)
    end in
  create_scp s wav_lst text_dict split n.

(** What [__init__] does once [skip] has said no (lines 968-994). *)
Definition build (s : self) : M unit :=
  let* _ := check_librispeech_folders s in
  let* _ := for_each (prepare_split s)
              (seq 0 (length (splits (opts s)))) () in
  save_pkl (PyConf (conf (opts s))) (save_opt s).

(** Setting the save folder (lines 950-958). *)
Definition set_save_folder (o : options) (funct_name : option string)
    (global_config : option (gmap string string)) : M self :=
  let* folder :=
    match save_folder_opt o with
    | Some f => ret f
    | None =>
        let* output_folder := output_folder_of global_config in
        let* name := or_raise funct_name TypeError in
        ret (output_folder +:+ "/" +:+ name)
    end in
  let* there := os_path_exists folder in
  let* _ := when (negb there) (os_makedirs folder) in
  ret {| opts := o; save_folder := folder |}.

(** [__init__], after [check_opts] and [check_inputs]. *)
Definition init (o : options) (funct_name : option string)
    (global_config : option (gmap string string)) : M unit :=
  let* s := set_save_folder o funct_name global_config in
  let* done := skip s in
  if done then
    for_each
      (λ _ split,
         logger_write (tab +:+ scp_path s split +:+ " created!") Debug)
      (splits (opts s)) ()
  else build s.

End run.

End librispeech_prepare.

(** ** Runs and what holds of them *)

(** [wp m fs Q]: the run of [m] from [fs] ends with a result, a final
    filesystem and a trace that satisfy [Q]. *)
Definition wp {A} (m : M A) (fs : gmap string node)
    (Q : exn + A → gmap string node → list event → Prop) : Prop :=
  Q (outcome (m fs)) (final (m fs)) (trace (m fs)).

(** The value a run returns, if it returns. *)
Definition result_of {A} (r : Res A) : option A :=
  match outcome r with
  | inr a => Some a
  | inl _ => None
  end.

(** Every event of every run of [m] satisfies [P]. *)
Definition emits {A} (P : event → Prop) (m : M A) : Prop :=
  ∀ fs, Forall P (trace (m fs)).

(** The filesystem [fs'] has no text file that [fs] has not: it comes
    from [fs] by adding directories and pickles only. *)
Definition no_new_text (fs fs' : gmap string node) : Prop :=
  ∀ p ls, fs' !! p = Some (Text ls) → fs !! p = Some (Text ls).

(** No run of [m] adds or changes a text file. *)
Definition keeps_text {A} (m : M A) : Prop :=
  ∀ fs, no_new_text fs (final (m fs)).

(** The run leaves the filesystem alone and has no effect. *)
Definition read_only {A} (m : M A) : Prop :=
  ∀ fs, final (m fs) = fs ∧ trace (m fs) = [].

(** The events of a manifest build before the manifest is written: log
    messages, the directory of the label files, and label files. *)
Definition label_event (save_folder : string) (e : event) : Prop :=
  match e with
  | EvLog _ _ => True
  | EvMakedirs p => p = save_folder +:+ "/kaldi_labels"
  | EvSavePkl p _ =>
      ∃ snt_id, p = save_folder +:+ "/kaldi_labels/" +:+ snt_id +:+ ".pkl"
  | EvWriteTxt _ _ | EvShell _ => False
  end.

(** The shape of the trace of the build of one manifest: log messages and
    label files, then, when the build succeeds and only then, the write
    of the manifest and the message that says so. *)
Definition manifest_trace (folder scp_file : string) (r : exn + unit)
    (t : list event) : Prop :=
  ∃ t0, Forall (label_event folder) t0 ∧
    match r with
    | inl _ => t = t0
    | inr _ =>
        ∃ lines msg, t = t0 ++ [EvWriteTxt scp_file lines; EvLog Debug msg]
    end.

(** ** The order of the writes of a run *)

(** In the trace, an event that writes the fingerprint file is the last
    event, and every manifest of the list has been written before it. *)
Definition fingerprint_last (fingerprint : string) (manifests : list string)
    (t : list event) : Prop :=
  ∀ pre e post,
    t = pre ++ e :: post → writes_to fingerprint e →
    post = [] ∧ ∀ m, m ∈ manifests → ∃ lines, EvWriteTxt m lines ∈ pre.

(** A step of a build: its events are of the kind [P], and when it
    succeeds it has written the manifests [ms]. *)
Definition step_ok (P : event → Prop) (ms : list string) (r : exn + unit)
    (t : list event) : Prop :=
  Forall P t ∧
  (r = inr () → ∀ m, m ∈ ms → ∃ lines, EvWriteTxt m lines ∈ t).

(** A build: events of the kind [P], among them the writes of the
    manifests [ms] when it succeeds, and then, when it succeeds and only
    then, the fingerprint. *)
Definition build_ok (P : event → Prop) (fp : string) (v : pyval)
    (ms : list string) (r : exn + unit) (t : list event) : Prop :=
  ∃ T, Forall P T ∧
    match r with
    | inl _ => t = T
    | inr _ =>
        t = T ++ [EvSavePkl fp v] ∧
        ∀ m, m ∈ ms → ∃ lines, EvWriteTxt m lines ∈ T
    end.

(** The last character of a string. *)
Fixpoint last_char (s : string) : option ascii :=
  match s with
  | EmptyString => None
  | String c EmptyString => Some c
  | String _ s' => last_char s'
  end.

(** The manifests of the splits that a TIMIT run is asked for, and the
    events of such a run before the fingerprint. *)
Definition timit_manifests (s : timit_prepare.self) : list string :=
  (if bool_decide ("train" ∈ timit_prepare.splits (timit_prepare.opts s))
   then [timit_prepare.save_scp_train s] else []) ++
  (if bool_decide ("dev" ∈ timit_prepare.splits (timit_prepare.opts s))
   then [timit_prepare.save_scp_dev s] else []) ++
  (if bool_decide ("test" ∈ timit_prepare.splits (timit_prepare.opts s))
   then [timit_prepare.save_scp_test s] else []).

Definition timit_event (s : timit_prepare.self) (e : event) : Prop :=
  label_event (timit_prepare.save_folder s) e ∨
  e = EvMakedirs (timit_prepare.save_folder s) ∨
  ∃ lines, e = EvWriteTxt (timit_prepare.save_scp_train s) lines ∨
           e = EvWriteTxt (timit_prepare.save_scp_dev s) lines ∨
           e = EvWriteTxt (timit_prepare.save_scp_test s) lines.

Definition libri_manifests (s : librispeech_prepare.self) : list string :=
  librispeech_prepare.scp_path s <$>
  librispeech_prepare.splits (librispeech_prepare.opts s).

(** The manifest of the split of index [i]. *)
Definition split_manifest (s : librispeech_prepare.self) (i : nat) :
    list string :=
  match librispeech_prepare.splits (librispeech_prepare.opts s) !! i with
  | Some split => [librispeech_prepare.scp_path s split]
  | None => []
  end.

Definition libri_event (s : librispeech_prepare.self) (e : event) : Prop :=
  match e with
  | EvLog _ _ => True
  | EvWriteTxt p _ => ∃ split, p = librispeech_prepare.scp_path s split
  | EvMakedirs p => p = librispeech_prepare.save_folder s
  | _ => False
  end.

(** The filesystem [fs'] has everything that [fs] has, files as files. *)
Definition fs_le (fs fs' : gmap string node) : Prop :=
  ∀ p, (is_Some (fs !! p) → is_Some (fs' !! p)) ∧
       (isfile_in fs p = true → isfile_in fs' p = true).

(** No run of [m] removes anything. *)
Definition grows {A} (m : M A) : Prop := ∀ fs, fs_le fs (final (m fs)).

(** A step that removes nothing and, when it succeeds, leaves the paths
    [ps] as files. *)
Definition files_ok (fs : gmap string node) (ps : list string)
    (r : exn + unit) (fs' : gmap string node) : Prop :=
  fs_le fs fs' ∧ (r = inr () → ∀ p, p ∈ ps → isfile_in fs' p = true).

(** ** Words of a command line *)

(** The commands are run by [/bin/sh -c]. The shell cuts a command line
    into words at its blanks, the space and the tab. *)
Definition is_blank (c : ascii) : bool :=
  Ascii.eqb c PyStr.space || Ascii.eqb c (ascii_of_nat 9).

(** The characters that the shell does not take literally, by their
    codes: the null character, which no command line holds, the newline,
    the operators [| & ; < > ( )], the two quotes and the backslash, the
    signs of the expansions [$], backquote, [~], [{] and [}], of the
    patterns [*], [?], [[] and []], of a comment [#] and of the history
    [!]. *)
Definition shell_special : list nat :=
  [0; 10; 33; 34; 35; 36; 38; 39; 40; 41; 42; 59; 60; 62; 63; 91; 92; 93;
   96; 123; 124; 125; 126].

Definition is_special (c : ascii) : bool :=
  bool_decide (nat_of_ascii c ∈ shell_special).

(** A string of plain characters: the shell takes every character of it
    literally or as a blank. *)
Fixpoint plain (s : string) : bool :=
  match s with
  | EmptyString => true
  | String c s' => negb (is_special c) && plain s'
  end.

Fixpoint no_blank (s : string) : bool :=
  match s with
  | EmptyString => true
  | String c s' => negb (is_blank c) && no_blank s'
  end.

(** The string ends in a blank. *)
Definition ends_blank (s : string) : bool :=
  match last_char s with
  | Some c => is_blank c
  | None => false
  end.

(** The pieces of a string between its blanks: never empty as a list,
    adjacent blanks giving empty pieces. *)
Fixpoint fields (s : string) : list string :=
  match s with
  | EmptyString => [EmptyString]
  | String c s' =>
      if is_blank c then EmptyString :: fields s'
      else match fields s' with
           | [] => [String c EmptyString]
           | w :: ws => String c w :: ws
           end
  end.

(** The non-empty pieces between blanks. *)
Definition words (s : string) : list string :=
  List.filter (λ w, negb (String.eqb w EmptyString)) (fields s).

(** The words the shell makes of a command line of plain characters. A
    command line with a special character is given no words here: what
    the shell makes of it depends on quoting, expansion and the files
    that a pattern matches. *)
Definition shell_words (cmd : string) : option (list string) :=
  if plain cmd then Some (words cmd) else None.

(** The piece of a string after its last blank: the last option word when
    the string does not end in a blank, the empty string when it does. *)
Definition last_piece (s : string) : string :=
  List.last (fields s) EmptyString.

(** The words of a string before its last piece. *)
Definition init_words (s : string) : list string :=
  List.filter (λ w, negb (String.eqb w EmptyString))
    (removelast (fields s)).

(** ** File discovery: what the specification says of it *)

(** [tok] occurs in [p] as a substring. *)
Definition is_substring (tok p : string) : Prop :=
  ∃ a b, p = a +:+ tok +:+ b.

(** A regular file below the searched root. *)
Definition regular_below (fs : gmap string node) (root f : string) : Prop :=
  isfile_in fs f = true ∧ under root f = true.

(** The predicate of the discovery engine on a path. *)
Definition selected (match_and : list string)
    (match_or exclude_or : option (list string)) (f : string) : Prop :=
  (∀ tok, tok ∈ match_and → is_substring tok f) ∧
  (∀ l, match_or = Some l → l ≠ [] → ∃ tok, tok ∈ l ∧ is_substring tok f) ∧
  (∀ l tok, exclude_or = Some l → tok ∈ l → ¬ is_substring tok f).

(** ** The stager: what the specification says of it *)

(** Every archive of the list has its copy next to the local folder. *)
Definition staged (o : copy_data_locally.options) (fs : gmap string node) :
    Prop :=
  ∀ f, f ∈ copy_data_locally.data_file o →
       is_Some (fs !! copy_data_locally.dest_file o f).

(** The source path is an argument of its own in the copy command: the
    words of the command line are those of the command, those of the
    options, the source path and those of the destination. *)
Definition source_is_separate (o : copy_data_locally.options)
    (f dest : string) : Prop :=
  shell_words (copy_data_locally.copy_command o f dest) =
  Some (words (copy_data_locally.copy_cmd o) ++
        words (copy_data_locally.copy_opts o) ++ [f] ++ words dest).

(** The sentence on the copy options as it is stated: whenever
    [copy_opts] is not empty, the source path is not an argument of its
    own. *)
Definition nonempty_opts_always_fused : Prop :=
  ∀ (o : copy_data_locally.options) (f dest : string),
    f ≠ EmptyString → no_blank f = true →
    copy_data_locally.copy_opts o ≠ EmptyString →
    ¬ source_is_separate o f dest.

(** A stager whose copy options end in a space. *)
Definition opts_trailing_space : copy_data_locally.options :=
  {| copy_data_locally.data_file := ["/nfs/TIMIT.tar.gz"];
     copy_data_locally.local_folder := "/scratch/data/TIMIT";
     copy_data_locally.copy_cmd := "rsync";
     copy_data_locally.copy_opts := "-a ";
     copy_data_locally.uncompress_cmd := "tar";
     copy_data_locally.uncompress_opts := "-zxf" |}.

(** A stager whose copy options end in a tab. *)
Definition opts_trailing_tab : copy_data_locally.options :=
  {| copy_data_locally.data_file := ["/nfs/TIMIT.tar.gz"];
     copy_data_locally.local_folder := "/scratch/data/TIMIT";
     copy_data_locally.copy_cmd := "rsync";
     copy_data_locally.copy_opts := "-a" +:+ tab;
     copy_data_locally.uncompress_cmd := "tar";
     copy_data_locally.uncompress_opts := "-zxf" |}.

(** A stager with the option flags of the usual kind. *)
Definition opts_flag : copy_data_locally.options :=
  {| copy_data_locally.data_file := ["/nfs/TIMIT.tar.gz"];
     copy_data_locally.local_folder := "/scratch/data/TIMIT";
     copy_data_locally.copy_cmd := "rsync";
     copy_data_locally.copy_opts := "-a";
     copy_data_locally.uncompress_cmd := "tar";
     copy_data_locally.uncompress_opts := "-zxf" |}.

(** A shell in which every command succeeds and a copy command (three
    words or more) creates its last word as a file. *)
Definition copying_shell (cmd : string) (fs : gmap string node) :
    (exn + unit) * gmap string node :=
  match words cmd with
  | _ :: _ :: dest :: rest =>
      if PyStr.contains "-C" cmd then (inr (), fs)
      else (inr (), <[List.last rest dest := Garbage]> fs)
  | _ => (inr (), fs)
  end.

(** Collaborators for the examples: an error-level log raises or not,
    the quotient is printed from a table of two entries, the label reader
    returns a given store, the shell copies, a corrupt pickle raises. *)
Definition example_collaborators (raises : bool)
    (lab : gmap string (list Z)) : Collaborators :=
  {| error_raises := raises;
     float_div_str := λ a b, if decide (a = 32000%N) then "2.0" else "1.0";
     kaldi_lab_reader := λ _ _ _ _, inr lab;
     shell := copying_shell;
     load_corrupt := inl (CollaboratorError "load_pkl") |}.

(** ** The manifest builder: what the specification says of it *)

(** The wav file has no label in the store. *)
Definition is_missing (lab : gmap string (list Z)) (wav_file : string) :
    bool :=
  match timit_prepare.ids_of wav_file with
  | Some ids => bool_decide (lab !! ids.2 = None)
  | None => false
  end.

(** The number of files of the list without a label. *)
Definition misses (lab : gmap string (list Z)) (wav_lst : list string) :
    nat :=
  length (List.filter (is_missing lab) wav_lst).

(** [ceil(0.05 * n)] and [floor(0.05 * n)] *)
Definition ceil_5_percent (n : nat) : nat := (n + 19) / 20.
Definition floor_5_percent (n : nat) : nat := n / 20.

(** The label store that [create_scp] reads for the directory
    [kaldi_lab] is [lab]. *)
Definition labels_are `{!Collaborators} (s : timit_prepare.self)
    (kaldi_lab : string) (kaldi_lab_opts : option string)
    (fs : gmap string node) (lab : gmap string (list Z)) : Prop :=
  ∃ g out,
    timit_prepare.global_config s = Some g ∧
    g !! "output_folder" = Some out ∧
    kaldi_lab_reader fs kaldi_lab kaldi_lab_opts (out +:+ "/log.log") =
      inr lab.

(** The error of too many missing labels has been issued. *)
Definition threshold_error `{!Collaborators} (s : timit_prepare.self)
    (tr : list event) : Prop :=
  EvLog Error (timit_prepare.too_many_msg s) ∈ tr.

(** The manifests a trace writes, in order. *)
Definition manifests_written (tr : list event) :
    list (string * list string) :=
  omap (λ e, match e with EvWriteTxt p ls => Some (p, ls) | _ => None end) tr.

(** The sentence on the threshold as it is stated: with exactly
    [ceil(0.05 * N)] labels missing the build succeeds, without the
    threshold error and with a manifest of the other utterances only; with
    one more missing the threshold error is issued and aborts the
    build. *)
Definition boundary_at_ceil `{!Collaborators} : Prop :=
  ∀ (s : timit_prepare.self) (wav_lst : list string) (scp_file dir : string)
    (lopts : option string) (fs : gmap string node)
    (lab : gmap string (list Z)),
    labels_are s dir lopts fs lab →
    let r := timit_prepare.create_scp s wav_lst scp_file (Some dir) lopts fs in
    (misses lab wav_lst = ceil_5_percent (length wav_lst) →
     outcome r = inr () ∧ ¬ threshold_error s (trace r) ∧
     ∃ lines, manifests_written (trace r) = [(scp_file, lines)] ∧
              length lines = length wav_lst - misses lab wav_lst) ∧
    (misses lab wav_lst = ceil_5_percent (length wav_lst) + 1 →
     threshold_error s (trace r) ∧
     outcome r = inl (LoggedError (timit_prepare.too_many_msg s))).

(** The sentence on missing sibling files as it is stated: a wav file
    without its [.wrd] or [.phn] file does not stop the build, and the
    manifest has a record for it. *)
Definition missing_sibling_tolerated `{!Collaborators} : Prop :=
  ∀ (s : timit_prepare.self) (wav_lst : list string) (scp_file : string)
    (kaldi_lab lopts : option string) (fs : gmap string node)
    (wav_file : string),
    wav_file ∈ wav_lst →
    fs !! PyStr.replace ".wav" ".wrd" wav_file = None ∨
    fs !! PyStr.replace ".wav" ".phn" wav_file = None →
    let r := timit_prepare.create_scp s wav_lst scp_file kaldi_lab lopts fs in
    outcome r = inr () ∧
    ∃ lines line,
      (scp_file, lines) ∈ manifests_written (trace r) ∧ line ∈ lines ∧
      is_substring ("wav=(" +:+ wav_file +:+ ",wav)") line.


(** A line of a TIMIT manifest as the loop composes it: the six fields,
    the words and the phonemes joined by underscores from the third
    columns of the lines of the sibling files, and, with a label source,
    the field of the label file after them. *)
Definition timit_line (with_labels : bool) (line : string) : Prop :=
  ∃ snt_id duration wav_file spk_id wrd_lines words phn_lines phonemes rest,
    line =
      timit_prepare.scp_line snt_id duration wav_file spk_id
        (PyStr.join "_" phonemes) (PyStr.join "_" words) +:+ rest ∧
    mapM timit_prepare.word_of_line wrd_lines = Some words ∧
    mapM timit_prepare.phoneme_of_line phn_lines = Some phonemes ∧
    (with_labels = false → rest = EmptyString).

(** The files that the loop of [librispeech_prepare.create_scp] reaches:
    all of them, or the first [select_n_sentences] when that number is
    at least one. *)
Definition processed (select_n_sentences : nat) (wav_lst : list string) :
    list string :=
  match select_n_sentences with
  | O => wav_lst
  | S _ => take select_n_sentences wav_lst
  end.




(** ** Example corpora *)

Definition nl : string := String PyStr.newline EmptyString.

Definition utt_name (i : nat) : string :=
  "u" +:+ String (ascii_of_nat (48 + i / 10))
            (String (ascii_of_nat (48 + i mod 10)) EmptyString).

Definition utt_wav (dir : string) (i : nat) : string :=
  dir +:+ "/" +:+ utt_name i +:+ ".wav".

Definition utt_files (dir : string) (i : nat) : list (string * node) :=
  [(utt_wav dir i, Audio 32000);
   (dir +:+ "/" +:+ utt_name i +:+ ".wrd",
    Text ["0 100 hello" +:+ nl; "100 200 world" +:+ nl]);
   (dir +:+ "/" +:+ utt_name i +:+ ".phn",
    Text ["0 10 h#" +:+ nl; "10 20 hh" +:+ nl; "20 30 h#" +:+ nl])].

(** The tree of two utterances without the [.wrd] file of the second. *)
Definition timit_world_no_wrd (n : nat) : gmap string node :=
  delete "/d/train/dr1/spk1/u01.wrd"
    (list_to_map
       ([("/d", Dir); ("/d/train", Dir); ("/d/train/dr1", Dir);
         ("/d/train/dr1/spk1", Dir); ("/out", Dir)] ++
        flat_map (utt_files "/d/train/dr1/spk1") (seq 0 n))).

(** A TIMIT tree with [n] training utterances of the speaker [spk1], and
    an empty save folder [/out]. *)
Definition timit_world (n : nat) : gmap string node :=
  list_to_map
    ([("/d", Dir); ("/d/train", Dir); ("/d/train/dr1", Dir);
      ("/d/train/dr1/spk1", Dir); ("/d/test", Dir); ("/d/test/dr1", Dir);
      ("/out", Dir)] ++
     flat_map (utt_files "/d/train/dr1/spk1") (seq 0 n)).

Definition timit_wavs (n : nat) : list string :=
  utt_wav "/d/train/dr1/spk1" <$> seq 0 n.

(** Labels for the first [k] utterances of the speaker. *)
Definition labels_for (k : nat) : gmap string (list Z) :=
  list_to_map ((λ i, ("spk1_" +:+ utt_name i, [1; 2; 3]%Z)) <$> seq 0 k).

(** Labels for the [k] utterances of the speaker from the utterance [a]
    on. *)
Definition labels_from (a k : nat) : gmap string (list Z) :=
  list_to_map ((λ i, ("spk1_" +:+ utt_name i, [1; 2; 3]%Z)) <$> seq a k).

Definition timit_options (splits : list string)
    (kaldi_ali_tr : option string) : timit_prepare.options :=
  {| timit_prepare.conf :=
       {[ "data_folder" := OptStr "/d"; "splits" := OptStrList splits;
          "save_folder" := OptStr "/out" ]};
     timit_prepare.data_folder := "/d";
     timit_prepare.splits := splits;
     timit_prepare.kaldi_ali_tr := kaldi_ali_tr;
     timit_prepare.kaldi_ali_dev := None;
     timit_prepare.kaldi_ali_test := None;
     timit_prepare.kaldi_lab_opts := None;
     timit_prepare.save_folder_opt := Some "/out" |}.

Definition timit_self (splits : list string)
    (kaldi_ali_tr : option string) : timit_prepare.self :=
  {| timit_prepare.opts := timit_options splits kaldi_ali_tr;
     timit_prepare.save_folder := "/out";
     timit_prepare.global_config := Some {[ "output_folder" := "/exp" ]} |}.

(** A LibriSpeech save folder that holds the manifest of the split
    [dev-clean] and no fingerprint file. *)
Definition libri_options : librispeech_prepare.options :=
  {| librispeech_prepare.conf :=
       {[ "data_folder" := OptStr "/l"; "splits" := OptStrList ["dev-clean"];
          "save_folder" := OptStr "/out" ]};
     librispeech_prepare.data_folder := "/l";
     librispeech_prepare.splits := ["dev-clean"];
     librispeech_prepare.save_folder_opt := Some "/out";
     librispeech_prepare.select_n_sentences := None |}.

Definition libri_self : librispeech_prepare.self :=
  {| librispeech_prepare.opts := libri_options;
     librispeech_prepare.save_folder := "/out" |}.

Definition libri_stale_world : gmap string node :=
  list_to_map
    [("/l", Dir); ("/l/dev-clean", Dir); ("/l/dev-clean/84", Dir);
     ("/l/dev-clean/84/121123", Dir);
     ("/l/dev-clean/84/121123/84-121123-0000.flac", Audio 32000);
     ("/l/dev-clean/84/121123/84-121123.trans.txt",
      Text ["84-121123-0000 GO DO YOU HEAR" +:+ nl]);
     ("/out", Dir);
     ("/out/dev-clean.scp", Text ["ID=old" +:+ nl])].

(** ** Further notions for the properties of the code *)

(** A string without a whitespace character. *)
Fixpoint no_whitespace (s : string) : bool :=
  match s with
  | EmptyString => true
  | String c s' => negb (PyStr.is_space c) && no_whitespace s'
  end.

(** A token of a transcription line: not empty, no whitespace. *)
Definition token (w : string) : Prop :=
  w ≠ EmptyString ∧ no_whitespace w = true.

(** A line of a transcription file: the identifier and the words,
    separated by single spaces, and the line terminator. *)
Definition transcript_line (e : string * list string) : string :=
  PyStr.join " " (e.1 :: e.2) +:+ nl.

(** The number of occurrences of a character. *)
Fixpoint count_char (c : ascii) (s : string) : nat :=
  match s with
  | EmptyString => 0
  | String a s' => (if Ascii.eqb a c then 1 else 0) + count_char c s'
  end.

(** No run of [m] changes an entry of the filesystem whose path string
    does not start with [folder] and a slash. The filesystem is keyed by
    path strings: this is a statement on the files on disk for paths
    that name their files uniquely (see [outside_folder]). *)
Definition preserves {A} (folder : string) (m : M A) : Prop :=
  ∀ fs p n,
    fs !! p = Some n → PyStr.startswith (folder +:+ "/") p = false →
    final (m fs) !! p = Some n.

(** A component of a normalised path: not empty, not [.] and not
    [..]. *)
Definition proper_name (c : string) : bool :=
  negb (String.eqb c EmptyString) && negb (String.eqb c ".") &&
  negb (String.eqb c "..").

(** A normalised path: components separated by single slashes, each of
    them a proper name, after one leading slash for an absolute path; no
    slash at the end. Two normalised paths that are both absolute, or
    both relative, name the same file only if they are equal (links set
    aside). *)
Definition normal_path (p : string) : bool :=
  match PyStr.split PyStr.slash p with
  | EmptyString :: c :: cs => forallb proper_name (c :: cs)
  | cs => forallb proper_name cs
  end.

(** The path [p] names a file or directory outside the tree of [folder]:
    both are normalised, both absolute or both relative, and [p] is not
    [folder] followed by a slash and more. *)
Definition outside_folder (folder p : string) : bool :=
  normal_path folder && normal_path p &&
  Bool.eqb (PyStr.startswith "/" folder) (PyStr.startswith "/" p) &&
  negb (PyStr.startswith (folder +:+ "/") p).

(** The names that [check_opts] admits for the splits of
    [librispeech_prepare] (lines 923-927). *)
Definition libri_split_names : list string :=
  ["dev-clean"; "dev-others"; "test-clean"; "test-others";
   "train-clean-100"; "train-clean-360"; "train-other-500"].

(** The filesystem [fs'] has no audio file that [fs] has not. *)
Definition no_new_audio (fs fs' : gmap string node) : Prop :=
  ∀ p n, fs' !! p = Some (Audio n) → fs !! p = Some (Audio n).

(** No run of [m] adds or changes an audio file. *)
Definition keeps_audio {A} (m : M A) : Prop :=
  ∀ fs, no_new_audio fs (final (m fs)).

(** The path of the label file of a sentence, as [create_scp] composes
    it. *)
Definition label_path (s : timit_prepare.self) (snt_id : string) : string :=
  (timit_prepare.save_folder s +:+ "/kaldi_labels") +:+ "/" +:+ snt_id +:+
  ".pkl".

(** The label path that the loop of [create_scp] holds in [snt_lab_path]
    after the wav files [l]: the path of the label file of the last wav
    file of [l] that has a label in the store, if there is one. *)
Definition bound_label_path (s : timit_prepare.self)
    (lab : gmap string (list Z)) (l : list string) : option string :=
  foldl (λ last wav_file,
           match timit_prepare.ids_of wav_file with
           | Some ids =>
               match lab !! ids.2 with
               | Some _ => Some (label_path s ids.2)
               | None => last
               end
           | None => last
           end) None l.

(** The end of a record: nothing without a label source; with one, the
    field [kaldi_lab] with the label path bound after the wav files
    [upto], the file of the record being the last of them. *)
Definition label_field (s : timit_prepare.self)
    (labs : option (gmap string (list Z))) (upto : list string)
    (rest : string) : Prop :=
  match labs with
  | None => rest = EmptyString
  | Some lab =>
      ∃ path, bound_label_path s lab upto = Some path ∧
              rest = " kaldi_lab=(" +:+ path +:+ ",pkl)"
  end.

(** The label store that [create_scp] works with: none without a label
    source, and what the label reader returns for the directory
    [kaldi_lab] with one. *)
Definition label_store `{!Collaborators} (s : timit_prepare.self)
    (kaldi_lab kaldi_lab_opts : option string) (fs : gmap string node)
    (labs : option (gmap string (list Z))) : Prop :=
  match kaldi_lab with
  | None => labs = None
  | Some dir => ∃ lab, labs = Some lab ∧ labels_are s dir kaldi_lab_opts fs lab
  end.

(** The record in a TIMIT manifest of the wav file that comes after the
    files [before] in the list: the line of its identifiers, its
    duration (the number of samples over the sample rate), its path, the
    words and phonemes of its sibling files and, with a label source,
    the label path bound at that turn. *)
Definition timit_record `{!Collaborators} (s : timit_prepare.self)
    (labs : option (gmap string (list Z))) (fs : gmap string node)
    (before : list string) (wav_file line : string) : Prop :=
  ∃ ids samples wrd_lines words phn_lines phonemes rest,
    timit_prepare.ids_of wav_file = Some ids ∧
    fs !! wav_file = Some (Audio samples) ∧
    fs !! PyStr.replace ".wav" ".wrd" wav_file = Some (Text wrd_lines) ∧
    mapM timit_prepare.word_of_line wrd_lines = Some words ∧
    fs !! PyStr.replace ".wav" ".phn" wav_file = Some (Text phn_lines) ∧
    mapM timit_prepare.phoneme_of_line phn_lines = Some phonemes ∧
    label_field s labs (before ++ [wav_file]) rest ∧
    line =
      timit_prepare.scp_line ids.2
        (float_div_str samples timit_prepare.samplerate) wav_file ids.1
        (PyStr.join "_" phonemes) (PyStr.join "_" words) +:+ rest.

(** The record of a flac file in a LibriSpeech manifest. *)
Definition libri_record `{!Collaborators} (fs : gmap string node)
    (text_dict : gmap string string) (wav_file line : string) : Prop :=
  ∃ wrd samples,
    text_dict !! librispeech_prepare.snt_id_of wav_file = Some wrd ∧
    fs !! wav_file = Some (Audio samples) ∧
    line =
      librispeech_prepare.scp_line (librispeech_prepare.snt_id_of wav_file)
        (float_div_str samples librispeech_prepare.samplerate) wav_file
        (librispeech_prepare.spk_id_of
           (librispeech_prepare.snt_id_of wav_file)) wrd.

(** A shell command of the stager for the options [o]: the copy or the
    decompression of an archive of the list. *)
Definition stager_command (o : copy_data_locally.options) (e : event) :
    Prop :=
  match e with
  | EvShell cmd =>
      ∃ f, f ∈ copy_data_locally.data_file o ∧
           (cmd = copy_data_locally.copy_command o f
                    (copy_data_locally.dest_file o f) ∨
            cmd = copy_data_locally.uncompress_command o
                    (copy_data_locally.dest_file o f))
  | _ => True
  end.

(** ** Further example inputs *)

(** A TIMIT tree of one utterance whose [.wrd] file ends with a blank
    line. *)
Definition timit_world_blank_line : gmap string node :=
  <["/d/train/dr1/spk1/u00.wrd" := Text ["0 100 hello" +:+ nl; nl]]>
    (timit_world 1).

(** A TIMIT tree whose save folder holds a fingerprint of another
    configuration. *)
Definition timit_world_other_config : gmap string node :=
  <["/out/opt_timit_prepare.pkl" := Pickle PyNone]> (timit_world 2).

(** LibriSpeech options with an empty list [select_n_sentences]. *)
Definition libri_self_short : librispeech_prepare.self :=
  {| librispeech_prepare.opts :=
       {| librispeech_prepare.conf := librispeech_prepare.conf libri_options;
          librispeech_prepare.data_folder := "/l";
          librispeech_prepare.splits := ["dev-clean"];
          librispeech_prepare.save_folder_opt := Some "/out";
          librispeech_prepare.select_n_sentences := Some [] |};
     librispeech_prepare.save_folder := "/out" |}.

(** The LibriSpeech tree before any preparation. *)
Definition libri_world : gmap string node :=
  delete "/out/dev-clean.scp" libri_stale_world.

(* ===================================================================== *)
(** * Properties *)
(* ===================================================================== *)

(** ** Strings *)

Section strings.
Import PyStr.

Lemma app_nil_r (s : string) : s +:+ "" = s.
Proof. induction s as [|a s IH]; simpl; [done | by rewrite IH]. Qed.

Lemma app_assoc' (a b c : string) : (a +:+ b) +:+ c = a +:+ b +:+ c.
Proof. induction a as [|x a IH]; simpl; [done | by rewrite IH]. Qed.

Lemma app_inv_head' (a b c : string) : a +:+ b = a +:+ c → b = c.
Proof. induction a as [|x a IH]; simpl; [done | intros [= H]; auto]. Qed.

Lemma app_length' (a b : string) :
  String.length (a +:+ b) = String.length a + String.length b.
Proof. induction a as [|x a IH]; simpl; [done | by rewrite IH]. Qed.

Lemma app_neq_self (a b : string) : b ≠ "" → a +:+ b ≠ a.
Proof.
  intros Hb H. apply (f_equal String.length) in H.
  rewrite app_length' in H. destruct b; [done | simpl in H; lia].
Qed.

Lemma startswith_spec (p s : string) :
  startswith p s = true ↔ ∃ r, s = p +:+ r.
Proof.
  revert s. induction p as [|a p IH]; intros s; simpl.
  - split; [eauto | done].
  - destruct s as [|b s].
    + split; [done | intros [r Hr]; discriminate].
    + rewrite andb_true_iff, IH. split.
      * intros [Hab [r ->]]. apply Ascii.eqb_eq in Hab as ->. eauto.
      * intros [r [= -> ->]]. split; [apply Ascii.eqb_refl | eauto].
Qed.

Lemma contains_spec (tok s : string) :
  contains tok s = true ↔ ∃ a b, s = a +:+ tok +:+ b.
Proof.
  induction s as [|c s IH]; simpl; rewrite orb_true_iff, startswith_spec.
  - split.
    + intros [[r Hr] | ?]; [| done]. by exists "", r.
    + intros (a & b & H). left. destruct a; [by exists b | done].
  - rewrite IH. split.
    + intros [[r Hr] | (a & b & ->)]; [by exists "", r |].
      by exists (String c a), b.
    + intros (a & b & H). destruct a as [|x a]; simpl in H.
      * left. by exists b.
      * right. injection H as -> ->. by exists a, b.
Qed.

Lemma mem_char_app (c : ascii) (a b : string) :
  mem_char c (a +:+ b) = mem_char c a || mem_char c b.
Proof.
  induction a as [|x a IH]; simpl; [done |]. by rewrite IH, orb_assoc.
Qed.

Lemma split_not_nil (c : ascii) (s : string) : split c s ≠ [].
Proof.
  induction s as [|x s IH]; simpl; [done |].
  destruct (Ascii.eqb x c); [done |]. by destruct (split c s).
Qed.


Lemma split_no_occurrence (c : ascii) (s : string) :
  mem_char c s = false → split c s = [s].
Proof.
  induction s as [|x s IH]; simpl; [done |].
  intros [E H]%orb_false_iff. rewrite E. by rewrite IH.
Qed.

(** Splitting a concatenation: the last piece of the left part and the
    first piece of the right part are one piece. *)
Lemma split_app (c : ascii) (a b : string) :
  split c (a +:+ b) =
  removelast (split c a) ++
  (List.last (split c a) "" +:+ List.hd "" (split c b)) ::
  List.tl (split c b).
Proof.
  induction a as [|x a IH]; simpl.
  - pose proof (split_not_nil c b). by destruct (split c b).
  - destruct (Ascii.eqb x c).
    + rewrite IH. pose proof (split_not_nil c a).
      by destruct (split c a).
    + rewrite IH. pose proof (split_not_nil c a).
      destruct (split c a) as [|w [|w' ws]]; done.
Qed.

Lemma split_sep_app (c : ascii) (a b : string) :
  split c (a +:+ String c b) = split c a ++ split c b.
Proof.
  rewrite split_app. simpl. rewrite Ascii.eqb_refl. simpl.
  rewrite app_nil_r. pose proof (split_not_nil c a) as H.
  rewrite (app_removelast_last "" H) at 3.
  by rewrite <- List.app_assoc.
Qed.


(** Replacing a one-character string by a string without that character
    leaves no occurrence of it. *)
Lemma replace_char_absent (c : ascii) (new s : string) :
  mem_char c new = false →
  mem_char c (replace (String c "") new s) = false.
Proof.
  intros Hnew. unfold replace.
  induction s as [|x s IH]; simpl; [done |].
  destruct (Ascii.eqb c x) eqn:E; simpl.
  - by rewrite mem_char_app, Hnew.
  - rewrite Ascii.eqb_sym, E. apply IH.
Qed.


End strings.

(** ** Runs in the monad *)

Section monad.

Lemma outcome_bind {A B} (m : M A) (k : A → M B) fs :
  outcome (bind m k fs) =
  match outcome (m fs) with
  | inl e => inl e
  | inr a => outcome (k a (final (m fs)))
  end.
Proof. unfold bind. by destruct (outcome (m fs)). Qed.

Lemma trace_bind {A B} (m : M A) (k : A → M B) fs :
  trace (bind m k fs) =
  trace (m fs) ++
  match outcome (m fs) with
  | inl e => []
  | inr a => trace (k a (final (m fs)))
  end.
Proof.
  unfold bind. destruct (outcome (m fs)); simpl; [| done].
  by rewrite List.app_nil_r.
Qed.

Lemma res_eta {A} (r : Res A) : mkRes (outcome r) (final r) (trace r) = r.
Proof. by destruct r. Qed.

(** A first step that only returns a value. *)
Lemma bind_pure {A B} (m : M A) (k : A → M B) fs (a : A) :
  m fs = mkRes (inr a) fs [] → bind m k fs = k a fs.
Proof. intros H. unfold bind. rewrite H. simpl. apply res_eta. Qed.

Lemma final_bind {A B} (m : M A) (k : A → M B) fs :
  final (bind m k fs) =
  match outcome (m fs) with
  | inl e => final (m fs)
  | inr a => final (k a (final (m fs)))
  end.
Proof. unfold bind. by destruct (outcome (m fs)). Qed.

(** A run described by what holds of its result, final filesystem and
    trace. *)
Lemma wp_ret {A} (a : A) fs (Q : exn + A → gmap string node → list event → Prop) :
  Q (inr a) fs [] → wp (ret a) fs Q.
Proof. done. Qed.

Lemma wp_raise {A} (e : exn) fs (Q : exn + A → gmap string node → list event → Prop) :
  Q (inl e) fs [] → wp (raise e) fs Q.
Proof. done. Qed.

Lemma wp_bind {A B} (m : M A) (k : A → M B) fs
    (Q : exn + B → gmap string node → list event → Prop) :
  wp m fs (λ r fs' t,
    match r with
    | inl e => Q (inl e) fs' t
    | inr a => wp (k a) fs' (λ r' fs'' t', Q r' fs'' (t ++ t'))
    end) →
  wp (bind m k) fs Q.
Proof. unfold wp, bind. by destruct (outcome (m fs)). Qed.

Lemma wp_mono {A} (m : M A) fs
    (Q Q' : exn + A → gmap string node → list event → Prop) :
  wp m fs Q → (∀ r fs' t, Q r fs' t → Q' r fs' t) → wp m fs Q'.
Proof. unfold wp. auto. Qed.

Lemma wp_or_raise {A} (o : option A) (e : exn) fs
    (Q : exn + A → gmap string node → list event → Prop) :
  match o with Some a => Q (inr a) fs [] | None => Q (inl e) fs [] end →
  wp (or_raise o e) fs Q.
Proof. by destruct o. Qed.

Lemma wp_when (b : bool) (m : M unit) fs
    (Q : exn + unit → gmap string node → list event → Prop) :
  (if b then wp m fs Q else Q (inr ()) fs []) → wp (when b m) fs Q.
Proof. by destruct b. Qed.

End monad.

(** ** The dataset stager *)

Section stager.
Context `{collab : !Collaborators}.
Import copy_data_locally.

Lemma mkdir_missing_keeps (d q : string) (fs : gmap string node) :
  is_Some (fs !! q) → is_Some (mkdir_missing d fs !! q).
Proof.
  intros Hq. unfold mkdir_missing. destruct (fs !! d) eqn:E; [done |].
  destruct (decide (d = q)) as [-> | Hne].
  - rewrite lookup_insert_eq. eauto.
  - by rewrite lookup_insert_ne.
Qed.

Lemma foldr_mkdir_missing_keeps (l : list string) (q : string)
    (fs : gmap string node) :
  is_Some (fs !! q) → is_Some (foldr mkdir_missing fs l !! q).
Proof.
  intros Hq. induction l as [|d l IH]; simpl; [done |].
  by apply mkdir_missing_keeps.
Qed.

(** Creating directories removes nothing. *)
Lemma os_makedirs_keeps (p q : string) (fs : gmap string node) :
  is_Some (fs !! q) → is_Some (final (os_makedirs p fs) !! q).
Proof.
  intros Hq. unfold os_makedirs. destruct (String.eqb p ""); [done |].
  destruct (fs !! p) eqn:E; [done |].
  destruct (below_file _ _ _); simpl; [done |].
  apply foldr_mkdir_missing_keeps.
  destruct (decide (p = q)) as [-> | Hne].
  - rewrite lookup_insert_eq. eauto.
  - by rewrite lookup_insert_ne.
Qed.

Lemma os_makedirs_no_shell (p : string) (fs : gmap string node) :
  List.filter is_shell (trace (os_makedirs p fs)) = [].
Proof.
  unfold os_makedirs. destruct (String.eqb p ""); [done |].
  destruct (fs !! p); [done |].
  by destruct (below_file _ _ _).
Qed.

(** An archive whose destination exists costs nothing. *)
Lemma stage_skip (o : options) (f : string) (fs : gmap string node) :
  is_Some (fs !! dest_file o f) → stage o () f fs = mkRes (inr ()) fs [].
Proof.
  intros Hf. unfold stage, bind, os_path_exists. simpl.
  by rewrite bool_decide_eq_true_2.
Qed.

Lemma for_each_stage_skip (o : options) (l : list string)
    (fs : gmap string node) :
  (∀ f, f ∈ l → is_Some (fs !! dest_file o f)) →
  for_each (stage o) l () fs = mkRes (inr ()) fs [].
Proof.
  induction l as [|f l IH]; intros Hl; simpl; [done |].
  unfold bind. rewrite stage_skip by (apply Hl; left). simpl.
  rewrite IH; [done |]. intros g Hg. apply Hl. by right.
Qed.

(** With every archive staged, a run invokes no shell. *)
Lemma init_staged_no_shell (o : options) (fs : gmap string node) :
  staged o fs → List.filter is_shell (trace (init o fs)) = [].
Proof.
  intros Hst. unfold init. rewrite trace_bind, List.filter_app.
  set (first := try_except _ _ fs).
  assert (List.filter is_shell (trace first) = [] ∧
          ∀ q, is_Some (fs !! q) → is_Some (final first !! q))
    as [Hsh Hkeep].
  { subst first. unfold try_except.
    pose proof (os_makedirs_no_shell (local_folder o) fs) as Hm.
    pose proof (λ q, os_makedirs_keeps (local_folder o) q fs) as Hk.
    destruct (outcome (os_makedirs (local_folder o) fs)) as [e|[]];
      [| done].
    destruct e; simpl; rewrite ?List.filter_app, ?Hm; simpl; try done;
      by rewrite List.app_nil_r. }
  rewrite Hsh. simpl. destruct (outcome first); [done |].
  rewrite for_each_stage_skip; [done |].
  intros f Hf. apply Hkeep. by apply Hst.
Qed.

(** C8. For every archive whose destination path (next to the local
    folder, with the name of the archive) already exists, the copy and
    the decompression are both skipped; and when the first run of the
    stager was successful, so that every archive of the list has its
    destination, a second run on the same list invokes no shell at
    all. *)
Theorem stager_idempotent (o : options) (fs : gmap string node) :
  (∀ f fs', is_Some (fs' !! dest_file o f) →
            stage o () f fs' = mkRes (inr ()) fs' []) ∧
  (staged o (final (init o fs)) →
   List.filter is_shell (trace (init o (final (init o fs)))) = []).
Proof.
  split.
  - intros f fs'. apply stage_skip.
  - apply init_staged_no_shell.
Qed.

End stager.

(** The first run of the example stages the archive, the second run finds
    it. *)
Lemma stager_idempotent_witness :
  staged opts_flag
    (final (@copy_data_locally.init (example_collaborators false ∅)
              opts_flag ∅)) ∧
  List.filter is_shell
    (trace (@copy_data_locally.init (example_collaborators false ∅)
              opts_flag
              (final (@copy_data_locally.init
                        (example_collaborators false ∅) opts_flag ∅)))) = [].
Proof.
  assert (staged opts_flag
    (final (@copy_data_locally.init (example_collaborators false ∅)
              opts_flag ∅))) as H.
  { intros f Hf. apply list_elem_of_In in Hf. simpl in Hf.
    destruct Hf as [<- | []]. vm_compute. eauto. }
  split; [exact H |].
  exact (proj2 (@stager_idempotent (example_collaborators false ∅)
                  opts_flag ∅) H).
Defined.

(** ** The copy command line *)

Section copy_command.
Import PyStr copy_data_locally.

Lemma fields_not_nil (s : string) : fields s ≠ [].
Proof.
  induction s as [|x s IH]; simpl; [done |].
  destruct (is_blank x); [done |]. by destruct (fields s).
Qed.

Lemma fields_no_blank (s : string) : no_blank s = true → fields s = [s].
Proof.
  induction s as [|x s IH]; simpl; [done |].
  intros [E H]%andb_true_iff. apply negb_true_iff in E.
  by rewrite E, IH.
Qed.

(** Cutting a concatenation: the last piece of the left part and the
    first piece of the right part are one piece. *)
Lemma fields_app (a b : string) :
  fields (a +:+ b) =
  removelast (fields a) ++
  (List.last (fields a) "" +:+ List.hd "" (fields b)) :: List.tl (fields b).
Proof.
  induction a as [|x a IH]; simpl.
  - pose proof (fields_not_nil b). by destruct (fields b).
  - destruct (is_blank x).
    + rewrite IH. pose proof (fields_not_nil a). by destruct (fields a).
    + rewrite IH. pose proof (fields_not_nil a).
      destruct (fields a) as [|w [|w' ws]]; done.
Qed.

Lemma fields_blank_app (c : ascii) (a b : string) :
  is_blank c = true → fields (a +:+ String c b) = fields a ++ fields b.
Proof.
  intros Hc. rewrite fields_app. simpl. rewrite Hc. simpl.
  rewrite app_nil_r. pose proof (fields_not_nil a) as H.
  rewrite (app_removelast_last "" H) at 3.
  by rewrite <- List.app_assoc.
Qed.

Lemma last_fields_cons (x : ascii) (s : string) :
  List.last (fields (String x s)) "" =
  if is_blank x then List.last (fields s) ""
  else match fields s with
       | [w] => String x w
       | _ => List.last (fields s) ""
       end.
Proof.
  simpl. pose proof (fields_not_nil s).
  destruct (is_blank x); destruct (fields s) as [|w [|w' ws]]; done.
Qed.

(** The last piece is empty exactly for the empty string and for a
    string that ends in a blank. *)
Lemma last_piece_empty (s : string) :
  last_piece s = "" ↔ s = "" ∨ ends_blank s = true.
Proof.
  unfold last_piece, ends_blank. induction s as [|x s IH]; [by intuition |].
  rewrite last_fields_cons. destruct s as [|y s].
  - simpl. destruct (is_blank x); split; intros H; try done; try by right.
    by destruct H.
  - change (last_char (String x (String y s)))
      with (last_char (String y s)).
    destruct (is_blank x).
    + rewrite IH. split; [intros [|]; [done | by right] |].
      intros [|]; [done | by right].
    + pose proof (fields_not_nil (String y s)).
      destruct (fields (String y s)) as [|w [|w' ws]] eqn:E; [done | |].
      * split; [done |]. intros [|H']; [done |].
        destruct IH as [_ IH]. specialize (IH (or_intror H')).
        simpl in IH. subst w.
        exfalso. clear -E. simpl in E. pose proof (fields_not_nil s).
        destruct (is_blank y); destruct (fields s); done.
      * rewrite IH. split; [intros [|]; [done | by right] |].
        intros [|]; [done | by right].
Qed.

Lemma words_app_space (a b : string) :
  words (a +:+ " " +:+ b) = words a ++ words b.
Proof.
  unfold words. change (" " +:+ b) with (String space b).
  by rewrite fields_blank_app, List.filter_app.
Qed.

Lemma words_init_last (s : string) :
  words s =
  init_words s ++
  (if String.eqb (last_piece s) "" then [] else [last_piece s]).
Proof.
  unfold words, init_words, last_piece.
  pose proof (fields_not_nil s) as H.
  rewrite (app_removelast_last "" H) at 1.
  rewrite List.filter_app. simpl.
  by destruct (String.eqb _ "").
Qed.

Lemma words_no_blank (w : string) :
  w ≠ "" → no_blank w = true → words w = [w].
Proof.
  intros Hw Hsp. unfold words. rewrite (fields_no_blank _ Hsp).
  simpl. by destruct (String.eqb_spec w "").
Qed.

(** With nothing between them, the last piece of the options and the
    word that follows are one word. *)
Lemma words_fused (opts w : string) :
  w ≠ "" → no_blank w = true →
  words (opts +:+ w) = init_words opts ++ [last_piece opts +:+ w].
Proof.
  intros Hw Hsp. unfold words, init_words, last_piece.
  rewrite fields_app, (fields_no_blank _ Hsp). simpl.
  rewrite List.filter_app. simpl.
  destruct (String.eqb_spec (List.last (fields opts) "" +:+ w) "")
    as [E|_]; [| done].
  apply (f_equal String.length) in E. rewrite app_length' in E.
  destruct w; [done | simpl in E; lia].
Qed.

Lemma plain_app (a b : string) : plain (a +:+ b) = plain a && plain b.
Proof.
  induction a as [|x a IH]; simpl; [done |]. by rewrite IH, andb_assoc.
Qed.

Lemma shell_words_plain (cmd : string) :
  plain cmd = true → shell_words cmd = Some (words cmd).
Proof. intros H. unfold shell_words. by rewrite H. Qed.

(** The words of the copy command: the last piece of the options and
    the source path are one word. *)
Lemma copy_command_words (o : options) (f dest : string) :
  plain (copy_cmd o) = true → plain (copy_opts o) = true →
  plain f = true → plain dest = true →
  f ≠ "" → no_blank f = true →
  shell_words (copy_command o f dest) =
  Some (words (copy_cmd o) ++ init_words (copy_opts o) ++
        [last_piece (copy_opts o) +:+ f] ++ words dest).
Proof.
  intros Hc Ho Hpf Hd Hf Hsp. unfold copy_command.
  rewrite shell_words_plain.
  2: { rewrite !plain_app, Hc, Ho, Hpf, Hd. reflexivity. }
  f_equal. rewrite words_app_space. f_equal.
  rewrite <- app_assoc', words_app_space, List.app_assoc. f_equal.
  by apply words_fused.
Qed.

(** C10, amended. The copy command is the concatenation
    [copy_cmd + " " + copy_opts + data_file + " " + dest_file], with
    nothing between the options and the source path. Hence, on a command
    line of plain characters, whenever [copy_opts] is not empty and does
    not end in a blank (a space or a tab), its last word and the source
    path are a single shell word; and the source path is an argument of
    its own exactly when [copy_opts] is empty or ends in a blank. *)
Theorem copy_command_fuses (o : options) (f dest : string) :
  plain (copy_cmd o) = true → plain (copy_opts o) = true →
  plain f = true → plain dest = true →
  f ≠ "" → no_blank f = true →
  copy_command o f dest =
    copy_cmd o +:+ " " +:+ copy_opts o +:+ f +:+ " " +:+ dest ∧
  (copy_opts o ≠ "" → ends_blank (copy_opts o) = false →
   last_piece (copy_opts o) ≠ "" ∧
   shell_words (copy_command o f dest) =
   Some (words (copy_cmd o) ++ init_words (copy_opts o) ++
         [last_piece (copy_opts o) +:+ f] ++ words dest) ∧
   ¬ source_is_separate o f dest) ∧
  (source_is_separate o f dest ↔
   copy_opts o = "" ∨ ends_blank (copy_opts o) = true).
Proof.
  intros Hc Ho Hpf Hd Hf Hsp.
  pose proof (copy_command_words o f dest Hc Ho Hpf Hd Hf Hsp) as Hw.
  assert (last_piece (copy_opts o) ≠ "" → ¬ source_is_separate o f dest)
    as Hfused.
  { intros Hlast Hsep. unfold source_is_separate in Hsep.
    rewrite Hw in Hsep. injection Hsep as Hsep.
    apply app_inv_head in Hsep.
    rewrite (words_init_last (copy_opts o)), <- List.app_assoc in Hsep.
    apply app_inv_head in Hsep.
    destruct (String.eqb_spec (last_piece (copy_opts o)) "") as [|_];
      [done |].
    simpl in Hsep. injection Hsep as Hsep _.
    apply (f_equal String.length) in Hsep. rewrite app_length' in Hsep.
    destruct f; [done | simpl in Hsep; lia]. }
  split; [done |]. split.
  - intros Hne Hend.
    assert (last_piece (copy_opts o) ≠ "") as Hlast.
    { rewrite last_piece_empty. intros [|]; congruence. }
    auto.
  - rewrite <- last_piece_empty. split.
    + intros Hsep. destruct (decide (last_piece (copy_opts o) = ""));
        [done | by destruct (Hfused n)].
    + intros Hlast. unfold source_is_separate.
      rewrite Hw, (words_init_last (copy_opts o)), Hlast. simpl.
      by rewrite List.app_nil_r.
Qed.

End copy_command.

Lemma copy_command_fuses_witness :
  shell_words
    (copy_data_locally.copy_command opts_flag "/nfs/TIMIT.tar.gz"
       "/scratch/data/TIMIT.tar.gz") =
  Some ["rsync"; "-a/nfs/TIMIT.tar.gz"; "/scratch/data/TIMIT.tar.gz"] ∧
  ¬ source_is_separate opts_flag "/nfs/TIMIT.tar.gz"
      "/scratch/data/TIMIT.tar.gz".
Proof.
  pose proof (copy_command_fuses opts_flag "/nfs/TIMIT.tar.gz"
                "/scratch/data/TIMIT.tar.gz") as H.
  destruct H as (_ & H & _);
    [reflexivity | reflexivity | reflexivity | reflexivity | done
    | reflexivity |].
  destruct H as (_ & H & Hsep); [done | reflexivity |].
  split; [| exact Hsep]. rewrite H. reflexivity.
Defined.

(** C10 as stated fails: with the options "-a " (a trailing space) the
    options are not empty and the source path is an argument of its own,
    the command being [rsync -a /nfs/TIMIT.tar.gz /scratch/data/...]. *)
Lemma nonempty_opts_not_always_fused : ¬ nonempty_opts_always_fused.
Proof.
  intros H.
  apply (H opts_trailing_space "/nfs/TIMIT.tar.gz"
           "/scratch/data/TIMIT.tar.gz"); [done | done | done |].
  reflexivity.
Qed.

(** A tab at the end of the options separates the source path as a
    space does: the words of the command are [rsync], [-a], the source
    and the destination. *)
Lemma trailing_tab_separates :
  shell_words
    (copy_data_locally.copy_command opts_trailing_tab "/nfs/TIMIT.tar.gz"
       "/scratch/data/TIMIT.tar.gz") =
  Some ["rsync"; "-a"; "/nfs/TIMIT.tar.gz"; "/scratch/data/TIMIT.tar.gz"] ∧
  source_is_separate opts_trailing_tab "/nfs/TIMIT.tar.gz"
    "/scratch/data/TIMIT.tar.gz".
Proof. split; reflexivity. Qed.

(** ** File discovery *)

Section discovery.
Import PyStr.

Lemma files_below_spec (fs : gmap string node) (root f : string) :
  f ∈ files_below fs root ↔ regular_below fs root f.
Proof.
  unfold files_below, regular_below.
  rewrite list_elem_of_In, filter_In, andb_true_iff, <- list_elem_of_In.
  split; [tauto |]. intros [Hf Hu]. split; [| done].
  unfold isfile_in in Hf. destruct (fs !! f) as [n|] eqn:E; [| done].
  apply list_elem_of_fmap. exists (f, n). split; [done |].
  by apply elem_of_map_to_list.
Qed.

Lemma path_matches_spec (match_and : list string)
    (match_or exclude_or : option (list string)) (f : string) :
  path_matches match_and match_or exclude_or f = true ↔
  selected match_and match_or exclude_or f.
Proof.
  unfold path_matches, selected.
  rewrite !andb_true_iff, forallb_forall.
  assert (∀ l, existsb (λ tok, contains tok f) l = true ↔
               ∃ tok, tok ∈ l ∧ is_substring tok f) as Hex.
  { intros l. rewrite existsb_exists. unfold is_substring.
    split; intros (tok & Hin & Hc); exists tok.
    - by rewrite list_elem_of_In, <- contains_spec.
    - by rewrite <- list_elem_of_In, contains_spec. }
  split.
  - intros [[Hand Hor] Hex']. split; [| split].
    + intros tok Htok. apply contains_spec, Hand.
      by apply list_elem_of_In.
    + intros l -> Hl. destruct l as [|t l]; [done |]. by apply Hex.
    + intros l tok -> Htok Hsub. apply negb_true_iff in Hex'.
      assert (existsb (λ tok, contains tok f) l = true) as Ht; [| congruence].
      apply Hex. eauto.
  - intros (Hand & Hor & Hex'). split; [split |].
    + intros tok Htok. apply contains_spec, Hand.
      by apply list_elem_of_In.
    + destruct match_or as [[|t l]|]; [done | | done].
      apply Hex. by apply Hor.
    + destruct exclude_or as [l|]; [| done].
      apply negb_true_iff, not_true_is_false.
      intros (tok & Htok & Hsub)%Hex. by eapply Hex'.
Qed.

(** C4. Discovery never fails and changes nothing; a file is in the
    list it returns exactly when it is a regular file below the root
    whose path contains every token of [match_and], contains a token
    of [match_or] whenever that list is given and not empty, and
    contains no token of [exclude_or]. An absent [match_or] or
    [exclude_or] constrains nothing, and an empty list is a result
    like any other. *)
Theorem discovery_correct (fs : gmap string node) (root : string)
    (match_and : list string) (match_or exclude_or : option (list string)) :
  ∃ found,
    get_all_files root match_and match_or exclude_or fs =
      mkRes (inr found) fs [] ∧
    (∀ f, f ∈ found ↔
          regular_below fs root f ∧
          selected match_and match_or exclude_or f) ∧
    (match_or = None → exclude_or = None →
     ∀ f, f ∈ found ↔
          regular_below fs root f ∧
          ∀ tok, tok ∈ match_and → is_substring tok f).
Proof.
  eexists. split; [reflexivity |].
  assert (∀ f, f ∈ List.filter (path_matches match_and match_or exclude_or)
                     (files_below fs root) ↔
               regular_below fs root f ∧
               selected match_and match_or exclude_or f) as H.
  { intros f.
    rewrite list_elem_of_In, filter_In, <- list_elem_of_In.
    by rewrite files_below_spec, path_matches_spec. }
  split; [exact H |].
  intros -> -> f. rewrite H. unfold selected.
  split; [tauto |]. intros [Hf Hand].
  split; [done |]. split; [done |]. split; [intros l [=] | intros l tok [=]].
Qed.

End discovery.

Lemma discovery_correct_witness :
  ∃ found,
    get_all_files "/d/train" [".wav"] None None (timit_world 2) =
      mkRes (inr found) (timit_world 2) [] ∧
    "/d/train/dr1/spk1/u00.wav" ∈ found ∧
    "/d/train/dr1/spk1/u00.wrd" ∉ found.
Proof.
  destruct (discovery_correct (timit_world 2) "/d/train" [".wav"] None None)
    as (found & Hrun & _ & Hfound).
  exists found. split; [exact Hrun |]. split.
  - apply (Hfound eq_refl eq_refl). split.
    + split; vm_compute; reflexivity.
    + intros tok Htok. apply list_elem_of_singleton in Htok. subst tok.
      apply contains_spec. vm_compute. reflexivity.
  - intros Hin. apply (Hfound eq_refl eq_refl) in Hin.
    destruct Hin as [_ Hand].
    assert (PyStr.contains ".wav" "/d/train/dr1/spk1/u00.wrd" = true) as H.
    { apply contains_spec, Hand, list_elem_of_singleton. reflexivity. }
    vm_compute in H. discriminate.
Defined.

(** ** Effects of the primitives *)

Section effects.
Context `{collab : !Collaborators}.

Lemma bind_inr {A B} (m : M A) (k : A → M B) fs (b : B) :
  outcome (bind m k fs) = inr b →
  ∃ a, outcome (m fs) = inr a ∧ outcome (k a (final (m fs))) = inr b.
Proof.
  rewrite outcome_bind. destruct (outcome (m fs)) as [e|a]; [done |].
  eauto.
Qed.

Lemma or_raise_inr {A} (o : option A) (e : exn) fs (a : A) :
  outcome (or_raise o e fs) = inr a → o = Some a.
Proof. destruct o; simpl; congruence. Qed.

Lemma when_inr (b : bool) (m : M unit) fs :
  outcome (when b m fs) = inr () →
  b = false ∨ (b = true ∧ outcome (m fs) = inr ()).
Proof. destruct b; simpl; auto. Qed.

Lemma open_lines_inr (p : string) fs (ls : list string) :
  outcome (open_lines p fs) = inr ls → fs !! p = Some (Text ls).
Proof.
  unfold open_lines. destruct (fs !! p) as [[]|]; simpl; congruence.
Qed.

Lemma logger_write_error_inr (msg : string) fs :
  outcome (logger_write msg Error fs) = inr () → error_raises = false.
Proof. unfold logger_write. simpl. by destruct error_raises. Qed.

(** *** Runs that only read *)

Lemma read_only_ret {A} (a : A) : read_only (ret a).
Proof. done. Qed.
Lemma read_only_raise {A} (e : exn) : read_only (raise (A := A) e).
Proof. done. Qed.
Lemma read_only_or_raise {A} (o : option A) (e : exn) :
  read_only (or_raise o e).
Proof. by destruct o. Qed.
Lemma read_only_os_path_exists (p : string) : read_only (os_path_exists p).
Proof. done. Qed.
Lemma read_only_os_path_isfile (p : string) : read_only (os_path_isfile p).
Proof. done. Qed.
Lemma read_only_open_lines (p : string) : read_only (open_lines p).
Proof. intros fs. unfold open_lines. by destruct (fs !! p) as [[]|]. Qed.
Lemma read_only_read_wav_soundfile (p : string) :
  read_only (read_wav_soundfile p).
Proof.
  intros fs. unfold read_wav_soundfile. by destruct (fs !! p) as [[]|].
Qed.
Lemma read_only_load_pkl (p : string) : read_only (load_pkl p).
Proof. intros fs. unfold load_pkl. by destruct (fs !! p) as [[]|]. Qed.
Lemma read_only_read_kaldi_lab (d : string) (o : option string)
    (l : string) : read_only (read_kaldi_lab d o l).
Proof. done. Qed.
Lemma read_only_get_all_files (root : string) (a : list string)
    (o x : option (list string)) : read_only (get_all_files root a o x).
Proof. done. Qed.
Lemma read_only_output_folder_of (g : option (gmap string string)) :
  read_only (output_folder_of g).
Proof. destruct g; [apply read_only_or_raise | done]. Qed.

Lemma read_only_bind {A B} (m : M A) (k : A → M B) :
  read_only m → (∀ a, read_only (k a)) → read_only (bind m k).
Proof.
  intros Hm Hk fs. destruct (Hm fs) as [Hf Ht].
  rewrite final_bind, trace_bind, Ht, Hf.
  destruct (outcome (m fs)) as [e|a]; [done |]. apply Hk.
Qed.

Lemma read_only_for_each {S A} (body : S → A → M S) (l : list A) (s : S) :
  (∀ s x, read_only (body s x)) → read_only (for_each body l s).
Proof.
  intros Hb. revert s. induction l as [|x l IH]; intros s; simpl.
  - apply read_only_ret.
  - apply read_only_bind; auto.
Qed.

(** *** What a run emits *)

Lemma emits_read_only {A} (P : event → Prop) (m : M A) :
  read_only m → emits P m.
Proof. intros H fs. destruct (H fs) as [_ ->]. constructor. Qed.

Lemma emits_bind {A B} (P : event → Prop) (m : M A) (k : A → M B) :
  emits P m → (∀ a, emits P (k a)) → emits P (bind m k).
Proof.
  intros Hm Hk fs. rewrite trace_bind. apply Forall_app. split; [done |].
  destruct (outcome (m fs)); [constructor | apply Hk].
Qed.

Lemma emits_when (P : event → Prop) (b : bool) (m : M unit) :
  (b = true → emits P m) → emits P (when b m).
Proof. destruct b; intros H; [by apply H | by intros fs]. Qed.

Lemma emits_for_each {S A} (P : event → Prop) (body : S → A → M S)
    (l : list A) (s : S) :
  (∀ s x, x ∈ l → emits P (body s x)) → emits P (for_each body l s).
Proof.
  revert s. induction l as [|x l IH]; intros s Hb; simpl.
  - by intros fs.
  - apply emits_bind; [apply Hb; left |].
    intros s'. apply IH. intros s'' y Hy. apply Hb. by right.
Qed.

Lemma emits_for_each_break {S A} (P : event → Prop)
    (body : S → A → M (flow S)) (l : list A) (s : S) :
  (∀ s x, x ∈ l → emits P (body s x)) → emits P (for_each_break body l s).
Proof.
  revert s. induction l as [|x l IH]; intros s Hb; simpl.
  - by intros fs.
  - apply emits_bind; [apply Hb; left |].
    intros [s'|s']; [| by intros fs].
    apply IH. intros s'' y Hy. apply Hb. by right.
Qed.

Lemma emits_logger_write (P : event → Prop) (msg : string) (lvl : level) :
  P (EvLog lvl msg) → emits P (logger_write msg lvl).
Proof. intros H fs. by repeat constructor. Qed.

Lemma emits_save_pkl (P : event → Prop) (v : pyval) (p : string) :
  P (EvSavePkl p v) → emits P (save_pkl v p).
Proof. intros H fs. by repeat constructor. Qed.

Lemma emits_write_txt_file (P : event → Prop) (ls : list string)
    (p : string) :
  P (EvWriteTxt p ls) → emits P (write_txt_file ls p).
Proof. intros H fs. by repeat constructor. Qed.

Lemma emits_os_makedirs (P : event → Prop) (p : string) :
  P (EvMakedirs p) → emits P (os_makedirs p).
Proof.
  intros H fs. unfold os_makedirs.
  destruct (String.eqb p ""); [constructor |].
  destruct (fs !! p); [constructor |].
  destruct (below_file _ _ _); by repeat constructor.
Qed.

Lemma emits_wp {A} (P : event → Prop) (m : M A) fs :
  emits P m → wp m fs (λ _ _ t, Forall P t).
Proof. intros H. apply H. Qed.

(** *** Runs that leave the text files alone *)

Lemma no_new_text_refl fs : no_new_text fs fs.
Proof. by intros p ls. Qed.

Lemma no_new_text_trans fs1 fs2 fs3 :
  no_new_text fs1 fs2 → no_new_text fs2 fs3 → no_new_text fs1 fs3.
Proof. intros H12 H23 p ls H. by apply H12, H23. Qed.

Lemma no_new_text_insert fs (p : string) (n : node) :
  (∀ ls, n ≠ Text ls) → no_new_text fs (<[p := n]> fs).
Proof.
  intros Hn q ls. destruct (decide (p = q)) as [-> | Hne].
  - rewrite lookup_insert_eq. intros [= ->]. by destruct (Hn ls).
  - by rewrite lookup_insert_ne.
Qed.

Lemma keeps_text_read_only {A} (m : M A) : read_only m → keeps_text m.
Proof. intros H fs. destruct (H fs) as [-> _]. apply no_new_text_refl. Qed.

Lemma keeps_text_bind {A B} (m : M A) (k : A → M B) :
  keeps_text m → (∀ a, keeps_text (k a)) → keeps_text (bind m k).
Proof.
  intros Hm Hk fs. rewrite final_bind.
  destruct (outcome (m fs)) as [e|a]; [apply Hm |].
  eapply no_new_text_trans; [apply Hm | apply Hk].
Qed.

Lemma keeps_text_when (b : bool) (m : M unit) :
  keeps_text m → keeps_text (when b m).
Proof. destruct b; [done |]. intros _ fs. apply no_new_text_refl. Qed.

Lemma keeps_text_logger_write (msg : string) (lvl : level) :
  keeps_text (logger_write msg lvl).
Proof. intros fs. apply no_new_text_refl. Qed.

Lemma keeps_text_save_pkl (v : pyval) (p : string) :
  keeps_text (save_pkl v p).
Proof. intros fs. by apply no_new_text_insert. Qed.

Lemma keeps_text_os_makedirs (p : string) : keeps_text (os_makedirs p).
Proof.
  intros fs. unfold os_makedirs.
  destruct (String.eqb p ""); [apply no_new_text_refl |].
  destruct (fs !! p); [apply no_new_text_refl |].
  destruct (below_file _ _ _); simpl; [apply no_new_text_refl |].
  induction (ancestors _ _) as [|d l IH]; simpl.
  - by apply no_new_text_insert.
  - eapply no_new_text_trans; [exact IH |]. unfold mkdir_missing.
    destruct (_ !! d); [apply no_new_text_refl |].
    by apply no_new_text_insert.
Qed.

Lemma keeps_text_for_each {S A} (body : S → A → M S) (l : list A) (s : S) :
  (∀ s x, keeps_text (body s x)) → keeps_text (for_each body l s).
Proof.
  intros Hb. revert s. induction l as [|x l IH]; intros s; simpl.
  - intros fs. apply no_new_text_refl.
  - apply keeps_text_bind; auto.
Qed.

End effects.

Ltac read_only_auto :=
  repeat first
    [ apply read_only_ret | apply read_only_raise | apply read_only_or_raise
    | apply read_only_os_path_exists | apply read_only_os_path_isfile
    | apply read_only_open_lines | apply read_only_read_wav_soundfile
    | apply read_only_load_pkl | apply read_only_read_kaldi_lab
    | apply read_only_get_all_files | apply read_only_output_folder_of
    | apply read_only_bind; [| intros ?]
    | apply read_only_for_each; intros ? ?
    | match goal with
      | |- read_only (match ?x with _ => _ end) => destruct x
      end ].

Ltac emits_auto :=
  repeat first
    [ apply emits_read_only; solve [read_only_auto]
    | apply emits_bind; [| intros ?]
    | apply emits_when; intros ?
    | apply emits_logger_write
    | apply emits_save_pkl
    | apply emits_write_txt_file
    | apply emits_os_makedirs
    | match goal with
      | |- emits _ (match ?x with _ => _ end) => destruct x eqn:?
      end ].

Ltac keeps_text_auto :=
  repeat first
    [ apply keeps_text_read_only; solve [read_only_auto]
    | apply keeps_text_bind; [| intros ?]
    | apply keeps_text_when
    | apply keeps_text_logger_write
    | apply keeps_text_save_pkl
    | apply keeps_text_os_makedirs
    | match goal with
      | |- keeps_text (match ?x with _ => _ end) => destruct x eqn:?
      end ].

(** ** The loop of [timit_prepare.create_scp] *)

Section timit_loop.
Context `{collab : !Collaborators}.
Import PyStr timit_prepare.

Lemma label_path_eq (folder snt_id : string) :
  (folder +:+ "/kaldi_labels") +:+ "/" +:+ snt_id +:+ ".pkl" =
  folder +:+ "/kaldi_labels/" +:+ snt_id +:+ ".pkl".
Proof.
  rewrite app_assoc'. f_equal.
Qed.

(** What the loop emits: log messages and label files only. *)
Lemma emits_check_label (s : self) (n : nat)
    (l : gmap string (list Z) * string) (snt_id : string) (st : locals) :
  l.2 = save_folder s +:+ "/kaldi_labels" →
  emits (label_event (save_folder s)) (check_label s n l snt_id st).
Proof.
  intros Hl. unfold check_label. emits_auto; simpl; try done.
  rewrite Hl. exists snt_id. by rewrite app_assoc'.
Qed.

Lemma emits_append_line (P : event → Prop) labs st ids wav_file :
  (∀ f, P (EvLog Error (missing_file_msg f))) →
  emits P (append_line labs st ids wav_file).
Proof. intros HP. unfold append_line. emits_auto; done. Qed.

Lemma emits_process_wav (s : self) (n : nat) labs st wav_file :
  (∀ l, labs = Some l → l.2 = save_folder s +:+ "/kaldi_labels") →
  emits (label_event (save_folder s)) (process_wav s n labs st wav_file).
Proof.
  intros Hl. unfold process_wav. emits_auto; simpl; try done.
  rewrite (Hl _ eq_refl). eexists. by rewrite app_assoc'.
Qed.

Lemma emits_process_all (s : self) (wav_lst : list string) labs :
  (∀ l, labs = Some l → l.2 = save_folder s +:+ "/kaldi_labels") →
  emits (label_event (save_folder s)) (process_all s wav_lst labs).
Proof.
  intros Hl. apply emits_for_each. intros st x _.
  by apply emits_process_wav.
Qed.

Lemma emits_load_labels_gen (s : self) (kaldi_lab lopts : option string)
    (P : event → Prop) :
  (∀ p, P (EvMakedirs p)) → emits P (load_labels s kaldi_lab lopts).
Proof. intros HP. unfold load_labels. emits_auto; done. Qed.

Lemma emits_load_labels (s : self) (kaldi_lab lopts : option string) :
  emits (label_event (save_folder s)) (load_labels s kaldi_lab lopts).
Proof. unfold load_labels. emits_auto; done. Qed.

(** The label directory that [load_labels] returns. *)
Lemma load_labels_dir (s : self) (kaldi_lab lopts : option string) fs l :
  outcome (load_labels s kaldi_lab lopts fs) = inr (Some l) →
  l.2 = save_folder s +:+ "/kaldi_labels".
Proof.
  unfold load_labels. destruct kaldi_lab as [dir|]; [| done].
  intros (out & _ & H)%bind_inr. apply bind_inr in H as (lab & _ & H).
  apply bind_inr in H as (there & _ & H).
  apply bind_inr in H as ([] & _ & H). simpl in H. by injection H as <-.
Qed.

(** The loop leaves the text files alone. *)
Lemma keeps_text_process_wav (s : self) (n : nat) labs st wav_file :
  keeps_text (process_wav s n labs st wav_file).
Proof.
  unfold process_wav, check_label, append_line. keeps_text_auto.
Qed.

Lemma keeps_text_load_labels (s : self) (kaldi_lab lopts : option string) :
  keeps_text (load_labels s kaldi_lab lopts).
Proof. unfold load_labels. keeps_text_auto. Qed.

End timit_loop.

(** ** The trace of [timit_prepare.create_scp] *)

Section timit_trace.
Context `{collab : !Collaborators}.
Import PyStr timit_prepare.

Lemma create_scp_trace (s : self) (wav_lst : list string)
    (scp_file : string) (kaldi_lab lopts : option string) fs :
  wp (create_scp s wav_lst scp_file kaldi_lab lopts) fs
    (λ r _ t, manifest_trace (save_folder s) scp_file r t).
Proof.
  unfold create_scp. apply wp_bind. unfold wp at 1. simpl.
  apply wp_bind. unfold wp at 1.
  pose proof (emits_load_labels s kaldi_lab lopts fs) as Hload.
  pose proof (load_labels_dir s kaldi_lab lopts fs) as Hdir.
  destruct (outcome (load_labels s kaldi_lab lopts fs)) as [e|labs].
  { eexists. split; [| reflexivity]. constructor; [done | exact Hload]. }
  apply wp_bind. unfold wp at 1.
  set (fs1 := final (load_labels s kaldi_lab lopts fs)).
  assert (emits (label_event (save_folder s)) (process_all s wav_lst labs))
    as Hloop.
  { apply emits_process_all. intros l ->. by apply Hdir. }
  specialize (Hloop fs1).
  destruct (outcome (process_all s wav_lst labs fs1)) as [e|st].
  { eexists. split; [| reflexivity].
    constructor; [done |]. apply Forall_app. by split. }
  apply wp_bind. unfold wp. simpl.
  exists (EvLog Debug
            (tab +:+ dquote +:+ "Creating scp lists in  " +:+ scp_file +:+
             "..." +:+ dquote)
          :: trace (load_labels s kaldi_lab lopts fs) ++
             trace (process_all s wav_lst labs fs1)).
  split.
  - constructor; [done |]. apply Forall_app. by split.
  - eexists _, _. simpl. by rewrite <- List.app_assoc.
Qed.

End timit_trace.

(** ** The fingerprint comes last *)

Section fingerprint.
Context `{collab : !Collaborators}.
Variables (P : event → Prop) (fp : string) (v : pyval).
Hypothesis P_not_fp : ∀ e, P e → ¬ writes_to fp e.

Lemma step_ok_nil (r : exn + unit) : step_ok P [] r [] .
Proof. split; [constructor |]. intros _ m Hm. by apply elem_of_nil in Hm. Qed.

Lemma wp_step_seq (m : M unit) (k : unit → M unit) (ms1 ms2 : list string) :
  (∀ fs, wp m fs (λ r _ t, step_ok P ms1 r t)) →
  (∀ a fs, wp (k a) fs (λ r _ t, step_ok P ms2 r t)) →
  ∀ fs, wp (bind m k) fs (λ r _ t, step_ok P (ms1 ++ ms2) r t).
Proof.
  intros Hm Hk fs. apply wp_bind. specialize (Hm fs). unfold wp in *.
  destruct Hm as [Ht Hw]. destruct (outcome (m fs)) as [e|[]].
  - split; [done |]. discriminate.
  - destruct (Hk () (final (m fs))) as [Ht' Hw']. split.
    + apply Forall_app. by split.
    + intros Hr x [Hx|Hx]%elem_of_app.
      * destruct (Hw eq_refl x Hx) as [lines Hl]. exists lines.
        apply elem_of_app. by left.
      * destruct (Hw' Hr x Hx) as [lines Hl]. exists lines.
        apply elem_of_app. by right.
Qed.

Lemma wp_step_build (m : M unit) (k : unit → M unit) (ms1 ms2 : list string) :
  (∀ fs, wp m fs (λ r _ t, step_ok P ms1 r t)) →
  (∀ a fs, wp (k a) fs (λ r _ t, build_ok P fp v ms2 r t)) →
  ∀ fs, wp (bind m k) fs (λ r _ t, build_ok P fp v (ms1 ++ ms2) r t).
Proof.
  intros Hm Hk fs. apply wp_bind. specialize (Hm fs). unfold wp in *.
  destruct Hm as [Ht Hw]. destruct (outcome (m fs)) as [e|[]].
  - by exists (trace (m fs)).
  - destruct (Hk () (final (m fs))) as (T & HT & Hk').
    exists (trace (m fs) ++ T). split; [apply Forall_app; by split |].
    destruct (outcome (k () (final (m fs)))) as [e|[]].
    + by rewrite Hk'.
    + destruct Hk' as [-> Hw']. split; [by rewrite List.app_assoc |].
      intros x [Hx|Hx]%elem_of_app.
      * destruct (Hw eq_refl x Hx) as [lines Hl]. exists lines.
        apply elem_of_app. by left.
      * destruct (Hw' x Hx) as [lines Hl]. exists lines.
        apply elem_of_app. by right.
Qed.

Lemma wp_save_fingerprint fs :
  wp (save_pkl v fp) fs (λ r _ t, build_ok P fp v [] r t).
Proof.
  exists []. split; [constructor |]. split; [done |].
  intros m Hm. by apply elem_of_nil in Hm.
Qed.

Lemma emits_step_ok (m : M unit) fs :
  emits P m → wp m fs (λ r _ t, step_ok P [] r t).
Proof.
  intros H. split; [apply H |]. intros _ x Hx. by apply elem_of_nil in Hx.
Qed.

(** A trace of that shape has its fingerprint last. *)
Lemma build_ok_fingerprint_last (ms : list string) (r : exn + unit)
    (t0 t : list event) :
  Forall P t0 → build_ok P fp v ms r t → fingerprint_last fp ms (t0 ++ t).
Proof.
  intros Ht0 (T & HT & Hr) pre e post Heq Hw.
  assert (Forall P (t0 ++ T)) as HT' by (apply Forall_app; by split).
  assert (∀ l a b, Forall P l → l = a ++ e :: b → False) as Hno.
  { intros l a b Hl ->. apply Forall_app in Hl as [_ Hl].
    inversion Hl; subst. by eapply P_not_fp. }
  destruct r as [x|[]].
  - subst t. by destruct (Hno _ _ _ HT' Heq).
  - destruct Hr as [-> Hms]. rewrite List.app_assoc in Heq.
    destruct (decide (post = [])) as [-> | Hpost].
    + apply app_inj_tail in Heq as [Heq _]. split; [done |].
      intros m Hm. destruct (Hms m Hm) as [lines Hl]. exists lines.
      rewrite <- Heq. apply elem_of_app. by right.
    + destruct (exists_last Hpost) as (post' & x & ->).
      rewrite app_comm_cons, List.app_assoc in Heq.
      apply app_inj_tail in Heq as [Heq _].
      by destruct (Hno _ _ _ HT' Heq).
Qed.

End fingerprint.

(** ** The order of the writes of [timit_prepare] *)

Section timit_order.
Context `{collab : !Collaborators}.
Import PyStr timit_prepare.

Lemma wp_read_only {A} (m : M A) fs
    (Q : exn + A → gmap string node → list event → Prop) :
  read_only m → (∀ r, Q r fs []) → wp m fs Q.
Proof. intros Hm HQ. unfold wp. destruct (Hm fs) as [-> ->]. apply HQ. Qed.

Lemma no_write_fingerprint_last (fp : string) (ms : list string)
    (t : list event) :
  Forall (λ e, ¬ writes_to fp e) t → fingerprint_last fp ms t.
Proof.
  intros Ht pre e post -> Hw. apply Forall_app in Ht as [_ Ht].
  inversion Ht; subst. done.
Qed.

Lemma timit_event_not_fp (s : self) (e : event) :
  timit_event s e → ¬ writes_to (save_opt s) e.
Proof.
  unfold save_opt.
  intros [Hl | [-> | (lines & [-> | [-> | ->]])]]; simpl.
  - destruct e as [| p | p ? | |]; simpl in *; try tauto.
    + intros H. rewrite Hl in H. by apply app_inv_head' in H.
    + destruct Hl as [snt_id ->]. intros H. by apply app_inv_head' in H.
  - intros H. symmetry in H. by apply app_neq_self in H.
  - unfold save_scp_train. intros H. by apply app_inv_head' in H.
  - unfold save_scp_dev. intros H. by apply app_inv_head' in H.
  - unfold save_scp_test. intros H. by apply app_inv_head' in H.
Qed.

Lemma wp_create_scp_step (s : self) (wav_lst : list string)
    (scp_file : string) (kaldi_lab lopts : option string) fs :
  scp_file = save_scp_train s ∨ scp_file = save_scp_dev s ∨
  scp_file = save_scp_test s →
  wp (create_scp s wav_lst scp_file kaldi_lab lopts) fs
    (λ r _ t, step_ok (timit_event s) [scp_file] r t).
Proof.
  intros Hscp. eapply wp_mono; [apply create_scp_trace |].
  intros r _ t (t0 & Ht0 & Hr). simpl in Hr.
  assert (Forall (timit_event s) t0) as Ht0'.
  { eapply Forall_impl; [exact Ht0 |]. intros e He. by left. }
  destruct r as [e|[]].
  - subst t. split; [done | discriminate].
  - destruct Hr as (lines & msg & ->). split.
    + apply Forall_app. split; [done |].
      constructor; [| constructor; [by left | constructor]].
      right. right. exists lines. destruct Hscp as [-> | [-> | ->]]; auto.
    + intros _ m ->%list_elem_of_singleton. exists lines.
      apply elem_of_app. right. by left.
Qed.

Lemma wp_split_train (s : self) fs :
  wp (split_train s) fs (λ r _ t,
    step_ok (timit_event s)
      (if bool_decide ("train" ∈ splits (opts s))
       then [save_scp_train s] else []) r t).
Proof.
  unfold split_train. destruct (bool_decide _); simpl.
  - apply wp_bind. apply wp_read_only; [apply read_only_get_all_files |].
    intros [e|l]; [split; [constructor | discriminate] |].
    eapply wp_mono; [apply wp_create_scp_step; auto |]. done.
  - apply step_ok_nil.
Qed.

Lemma wp_split_dev (s : self) fs :
  wp (split_dev s) fs (λ r _ t,
    step_ok (timit_event s)
      (if bool_decide ("dev" ∈ splits (opts s))
       then [save_scp_dev s] else []) r t).
Proof.
  unfold split_dev. destruct (bool_decide _); simpl.
  - apply wp_bind. apply wp_read_only; [apply read_only_get_all_files |].
    intros [e|l]; [split; [constructor | discriminate] |].
    eapply wp_mono; [apply wp_create_scp_step; auto |]. done.
  - apply step_ok_nil.
Qed.

Lemma wp_split_test (s : self) fs :
  wp (split_test s) fs (λ r _ t,
    step_ok (timit_event s)
      (if bool_decide ("test" ∈ splits (opts s))
       then [save_scp_test s] else []) r t).
Proof.
  unfold split_test. destruct (bool_decide _); simpl.
  - apply wp_bind. apply wp_read_only; [apply read_only_get_all_files |].
    intros [e|l]; [split; [constructor | discriminate] |].
    eapply wp_mono; [apply wp_create_scp_step; auto |]. done.
  - apply step_ok_nil.
Qed.

Lemma emits_check_timit_folders (s : self) :
  emits (timit_event s) (check_timit_folders s).
Proof. unfold check_timit_folders. emits_auto; by left. Qed.

(** The build writes the manifests of the requested splits and then the
    fingerprint. *)
Lemma wp_build (s : self) fs :
  wp (build s) fs (λ r _ t,
    build_ok (timit_event s) (save_opt s) (PyConf (conf (opts s)))
      (timit_manifests s) r t).
Proof.
  unfold build, timit_manifests.
  apply (wp_step_build _ _ _ _ _ []);
    [intros; apply emits_step_ok, emits_check_timit_folders |].
  intros _ fs1.
  apply (wp_step_build _ _ _ _ _ []);
    [intros; apply emits_step_ok, emits_logger_write; by left |].
  intros _ fs2.
  apply wp_step_build; [intros; apply wp_split_train |]. intros _ fs3.
  apply wp_step_build; [intros; apply wp_split_dev |]. intros _ fs4.
  rewrite <- (List.app_nil_r (if bool_decide ("test" ∈ _) then _ else _)).
  apply wp_step_build; [intros; apply wp_split_test |]. intros _ fs5.
  apply wp_save_fingerprint.
Qed.

Lemma wp_set_save_folder (o : options) (funct_name : option string)
    (gc : option (gmap string string)) fs :
  wp (set_save_folder o funct_name gc) fs (λ r _ t,
    ∀ s, r = inr s → Forall (timit_event s) t).
Proof.
  unfold set_save_folder. apply wp_bind. apply wp_read_only.
  { destruct (save_folder_opt o); read_only_auto. }
  intros [e|folder]; [done |].
  apply wp_bind. apply wp_read_only; [apply read_only_os_path_exists |].
  intros [e|there]; [done |].
  apply wp_bind. unfold wp at 1.
  pose proof (emits_os_makedirs (eq (EvMakedirs folder)) folder eq_refl)
    as Hm.
  destruct there; simpl.
  - intros s [= <-]. constructor.
  - specialize (Hm fs).
    destruct (outcome (os_makedirs folder fs)) as [e|[]]; [done |].
    unfold wp. simpl. intros s [= <-]. rewrite List.app_nil_r.
    eapply Forall_impl; [exact Hm |]. intros e <-. right. by left.
Qed.

(** The order of the writes of a TIMIT run. *)
Lemma timit_fingerprint_last (o : options) (funct_name : option string)
    (gc : option (gmap string string)) fs (s : self) :
  outcome (set_save_folder o funct_name gc fs) = inr s →
  fingerprint_last (save_opt s) (timit_manifests s)
    (trace (init o funct_name gc fs)).
Proof.
  intros Hs. unfold init. rewrite trace_bind, Hs.
  pose proof (wp_set_save_folder o funct_name gc fs) as Hset.
  unfold wp in Hset. specialize (Hset s Hs).
  set (fs1 := final (set_save_folder o funct_name gc fs)).
  assert (read_only (skip s)) as Hskip.
  { unfold skip. read_only_auto. }
  rewrite trace_bind. destruct (Hskip fs1) as [Hf ->]. rewrite Hf.
  rewrite List.app_nil_l.
  destruct (outcome (skip s fs1)) as [e|[]].
  - rewrite List.app_nil_r. apply no_write_fingerprint_last.
    eapply Forall_impl; [exact Hset |]. apply timit_event_not_fp.
  - apply no_write_fingerprint_last. apply Forall_app. split.
    + eapply Forall_impl; [exact Hset |]. apply timit_event_not_fp.
    + unfold bind, logger_write. simpl. repeat constructor; by intros [].
  - eapply build_ok_fingerprint_last;
      [apply timit_event_not_fp | exact Hset | apply wp_build].
Qed.

End timit_order.

(** ** The order of the writes of [librispeech_prepare] *)

Section libri_order.
Context `{collab : !Collaborators}.
Import PyStr librispeech_prepare.

Lemma last_char_app (a b : string) :
  b ≠ "" → last_char (a +:+ b) = last_char b.
Proof.
  intros Hb. induction a as [|c a IH]; [done |]. simpl.
  destruct (a +:+ b) eqn:E; [| done].
  destruct a; [by destruct b | done].
Qed.

Lemma fingerprint_last_mono (fp : string) (ms ms' : list string)
    (t : list event) :
  (∀ m, m ∈ ms' → m ∈ ms) →
  fingerprint_last fp ms t → fingerprint_last fp ms' t.
Proof.
  intros Hsub H pre e post Heq Hw. destruct (H pre e post Heq Hw).
  split; [done |]. auto.
Qed.

Lemma libri_event_not_fp (s : self) (e : event) :
  libri_event s e → ¬ writes_to (save_opt s) e.
Proof.
  unfold save_opt. destruct e as [| p | | p ? |]; simpl; try tauto.
  - intros -> H. symmetry in H. by apply app_neq_self in H.
  - intros [split ->] H. unfold scp_path in H.
    apply app_inv_head' in H. simpl in H. injection H as H.
    apply (f_equal last_char) in H. by rewrite last_char_app in H.
Qed.

Lemma read_only_for_each_break {S A} (body : S → A → M (flow S))
    (l : list A) (s : S) :
  (∀ s x, read_only (body s x)) → read_only (for_each_break body l s).
Proof.
  intros Hb. revert s. induction l as [|x l IH]; intros s; simpl.
  - apply read_only_ret.
  - apply read_only_bind; [done |]. intros [s'|s']; [done |].
    apply read_only_ret.
Qed.

Lemma read_only_process_all (wav_lst : list string)
    (text_dict : gmap string string) (n : nat) :
  read_only (process_all wav_lst text_dict n).
Proof.
  apply read_only_for_each_break. intros st wav_file.
  unfold process_wav. read_only_auto.
Qed.

Lemma read_only_text_to_dict (text_lst : list string) :
  read_only (text_to_dict text_lst).
Proof. unfold text_to_dict. read_only_auto. Qed.

(** The trace of [create_scp]: a message, and on success the write of
    the manifest and a message. *)
Lemma libri_wp_create_scp_step (s : self) (wav_lst : list string)
    (text_dict : gmap string string) (split : string) (n : nat) fs :
  wp (create_scp s wav_lst text_dict split n) fs
    (λ r _ t, step_ok (libri_event s) [scp_path s split] r t).
Proof.
  unfold create_scp. apply wp_bind. unfold wp at 1. simpl.
  apply wp_bind. apply wp_read_only; [apply read_only_process_all |].
  intros [e|st].
  - split; [by repeat constructor | discriminate].
  - apply wp_bind. unfold wp. simpl. split.
    + repeat constructor. by exists split.
    + intros _ m ->%list_elem_of_singleton. exists st.1.
      right. by left.
Qed.

Lemma wp_prepare_split (s : self) (i : nat) fs :
  wp (prepare_split s () i) fs
    (λ r _ t, step_ok (libri_event s) (split_manifest s i) r t).
Proof.
  unfold prepare_split, split_manifest.
  apply wp_bind, wp_or_raise.
  destruct (splits (opts s) !! i) as [split|]; [| apply step_ok_nil].
  apply wp_bind, wp_read_only; [apply read_only_get_all_files |].
  intros [e|wav_lst]; [split; [constructor | discriminate] |].
  apply wp_bind, wp_read_only; [apply read_only_get_all_files |].
  intros [e|text_lst]; [split; [constructor | discriminate] |].
  apply wp_bind, wp_read_only; [apply read_only_text_to_dict |].
  intros [e|text_dict]; [split; [constructor | discriminate] |].
  apply wp_bind, wp_read_only.
  { destruct (select_n_sentences (opts s)); read_only_auto. }
  intros [e|n]; [split; [constructor | discriminate] |].
  apply libri_wp_create_scp_step.
Qed.

Lemma wp_prepare_splits (s : self) (l : list nat) fs :
  wp (for_each (prepare_split s) l ()) fs
    (λ r _ t, step_ok (libri_event s) (flat_map (split_manifest s) l) r t).
Proof.
  revert fs. induction l as [|i l IH]; intros fs; simpl.
  - apply step_ok_nil.
  - apply wp_step_seq; [intros; apply wp_prepare_split |].
    intros []. apply IH.
Qed.

Lemma emits_check_librispeech_folders (s : self) :
  emits (libri_event s) (check_librispeech_folders s).
Proof.
  unfold check_librispeech_folders. apply emits_for_each.
  intros [] split _. emits_auto. done.
Qed.

Lemma libri_wp_build (s : self) fs :
  wp (build s) fs (λ r _ t,
    build_ok (libri_event s) (save_opt s) (PyConf (conf (opts s)))
      (flat_map (split_manifest s) (seq 0 (length (splits (opts s)))))
      r t).
Proof.
  unfold build.
  apply wp_mono with
    (Q := λ r _ t,
       build_ok (libri_event s) (save_opt s) (PyConf (conf (opts s)))
         ([] ++ flat_map (split_manifest s)
                  (seq 0 (length (splits (opts s)))) ++ []) r t).
  - revert fs.
    apply wp_step_build;
      [intros; apply emits_step_ok, emits_check_librispeech_folders |].
    intros _.
    apply wp_step_build; [intros; apply wp_prepare_splits |]. intros _ fs2.
    apply wp_save_fingerprint.
  - intros r _ t. simpl. by rewrite List.app_nil_r.
Qed.

Lemma libri_manifests_covered (s : self) (m : string) :
  m ∈ libri_manifests s →
  m ∈ flat_map (split_manifest s) (seq 0 (length (splits (opts s)))).
Proof.
  unfold libri_manifests.
  intros (split & -> & Hin)%list_elem_of_fmap.
  apply list_elem_of_lookup in Hin as [i Hi].
  apply list_elem_of_In, in_flat_map. exists i. split.
  - apply in_seq. apply lookup_lt_Some in Hi. lia.
  - unfold split_manifest. rewrite Hi. by left.
Qed.

Lemma libri_wp_set_save_folder (o : options) (funct_name : option string)
    (gc : option (gmap string string)) fs :
  wp (set_save_folder o funct_name gc) fs (λ r _ t,
    ∀ s, r = inr s → Forall (libri_event s) t).
Proof.
  unfold set_save_folder. apply wp_bind. apply wp_read_only.
  { destruct (save_folder_opt o); read_only_auto. }
  intros [e|folder]; [done |].
  apply wp_bind. apply wp_read_only; [apply read_only_os_path_exists |].
  intros [e|there]; [done |].
  apply wp_bind. unfold wp at 1.
  pose proof (emits_os_makedirs (eq (EvMakedirs folder)) folder eq_refl)
    as Hm.
  destruct there; simpl.
  - intros s [= <-]. constructor.
  - specialize (Hm fs).
    destruct (outcome (os_makedirs folder fs)) as [e|[]]; [done |].
    unfold wp. simpl. intros s [= <-]. rewrite List.app_nil_r.
    eapply Forall_impl; [exact Hm |]. by intros e <-.
Qed.

Lemma libri_fingerprint_last (o : options) (funct_name : option string)
    (gc : option (gmap string string)) fs (s : self) :
  outcome (set_save_folder o funct_name gc fs) = inr s →
  fingerprint_last (save_opt s) (libri_manifests s)
    (trace (init o funct_name gc fs)).
Proof.
  intros Hs. unfold init. rewrite trace_bind, Hs.
  pose proof (libri_wp_set_save_folder o funct_name gc fs) as Hset.
  unfold wp in Hset. specialize (Hset s Hs).
  set (fs1 := final (set_save_folder o funct_name gc fs)).
  assert (read_only (skip s)) as Hskip.
  { unfold skip. read_only_auto. }
  rewrite trace_bind. destruct (Hskip fs1) as [Hf ->]. rewrite Hf.
  rewrite List.app_nil_l.
  destruct (outcome (skip s fs1)) as [e|[]].
  - rewrite List.app_nil_r. apply no_write_fingerprint_last.
    eapply Forall_impl; [exact Hset |]. apply libri_event_not_fp.
  - apply no_write_fingerprint_last. apply Forall_app. split.
    + eapply Forall_impl; [exact Hset |]. apply libri_event_not_fp.
    + assert (emits (λ e, ¬ writes_to (save_opt s) e)
                (for_each
                   (λ _ split,
                      logger_write (tab +:+ scp_path s split +:+ " created!")
                        Debug) (splits (opts s)) ())) as Hlog.
      { apply emits_for_each. intros [] split _.
        apply emits_logger_write. by intros []. }
      apply Hlog.
  - eapply fingerprint_last_mono; [apply libri_manifests_covered |].
    eapply build_ok_fingerprint_last;
      [apply libri_event_not_fp | exact Hset | apply libri_wp_build].
Qed.

End libri_order.

(** C6. In every run of [timit_prepare] and of [librispeech_prepare], an
    event that writes the fingerprint file is the last event of the run,
    and the manifest of every requested split has been written before
    it: the fingerprint is persisted only after the manifests have been
    written in full. *)
Theorem fingerprint_after_manifests `{collab : !Collaborators} :
  (∀ o funct_name gc fs s,
     outcome (timit_prepare.set_save_folder o funct_name gc fs) = inr s →
     fingerprint_last (timit_prepare.save_opt s) (timit_manifests s)
       (trace (timit_prepare.init o funct_name gc fs))) ∧
  (∀ o funct_name gc fs s,
     outcome (librispeech_prepare.set_save_folder o funct_name gc fs)
       = inr s →
     fingerprint_last (librispeech_prepare.save_opt s) (libri_manifests s)
       (trace (librispeech_prepare.init o funct_name gc fs))).
Proof.
  split.
  - apply timit_fingerprint_last.
  - apply libri_fingerprint_last.
Qed.

Lemma fingerprint_after_manifests_witness :
  fingerprint_last "/out/opt_timit_prepare.pkl" ["/out/train.scp"]
    (trace (@timit_prepare.init (example_collaborators false ∅)
              (timit_options ["train"] None) None None (timit_world 2))) ∧
  fingerprint_last "/out/opt_librispeech_prepare.pkl" ["/out/dev-clean.scp"]
    (trace (@librispeech_prepare.init (example_collaborators false ∅)
              libri_options None None (delete "/out/dev-clean.scp"
                                         libri_stale_world))).
Proof.
  split.
  - apply (proj1 (@fingerprint_after_manifests (example_collaborators false ∅))
             (timit_options ["train"] None) None None (timit_world 2)
             {| timit_prepare.opts := timit_options ["train"] None;
                timit_prepare.save_folder := "/out";
                timit_prepare.global_config := None |}).
    vm_compute. reflexivity.
  - apply (proj2 (@fingerprint_after_manifests (example_collaborators false ∅))
             libri_options None None
             (delete "/out/dev-clean.scp" libri_stale_world) libri_self).
    vm_compute. reflexivity.
Defined.

(** ** The skip decision *)

Section skip_decision.
Context `{collab : !Collaborators}.

Lemma py_eq_conf_true (v : pyval) (c : gmap string optval) :
  py_eq_conf v c = true ↔ v = PyConf c.
Proof.
  destruct v; simpl; try (split; [done | congruence]).
  rewrite bool_decide_eq_true. split; congruence.
Qed.

(** [timit_prepare.skip]: with the three manifests and the fingerprint
    file in place the answer is the comparison of the loaded
    configuration with the current one (an exception of [load_pkl]
    is not caught); in every other case it is [False]. *)
Lemma timit_skip_outcome (s : timit_prepare.self) fs :
  outcome (timit_prepare.skip s fs) =
  if isfile_in fs (timit_prepare.save_scp_train s)
     && isfile_in fs (timit_prepare.save_scp_dev s)
     && isfile_in fs (timit_prepare.save_scp_test s)
     && isfile_in fs (timit_prepare.save_opt s)
  then match outcome (load_pkl (timit_prepare.save_opt s) fs) with
       | inl e => inl e
       | inr v => inr (py_eq_conf v (timit_prepare.conf (timit_prepare.opts s)))
       end
  else inr false.
Proof.
  unfold timit_prepare.skip, bind, os_path_isfile. simpl.
  destruct (isfile_in fs (timit_prepare.save_scp_train s)); simpl; [| done].
  destruct (isfile_in fs (timit_prepare.save_scp_dev s)); simpl; [| done].
  destruct (isfile_in fs (timit_prepare.save_scp_test s)); simpl; [| done].
  destruct (isfile_in fs (timit_prepare.save_opt s)); simpl; [| done].
  destruct (read_only_load_pkl (timit_prepare.save_opt s) fs) as [-> _].
  by destruct (outcome (load_pkl _ fs)).
Qed.

(** X22. The skip decision of TIMIT: it is [True] exactly when the three
    manifests exist, the fingerprint file exists and holds the current
    configuration. *)
Lemma timit_skip_true (s : timit_prepare.self) fs :
  outcome (timit_prepare.skip s fs) = inr true ↔
  isfile_in fs (timit_prepare.save_scp_train s) = true ∧
  isfile_in fs (timit_prepare.save_scp_dev s) = true ∧
  isfile_in fs (timit_prepare.save_scp_test s) = true ∧
  isfile_in fs (timit_prepare.save_opt s) = true ∧
  outcome (load_pkl (timit_prepare.save_opt s) fs) =
    inr (PyConf (timit_prepare.conf (timit_prepare.opts s))).
Proof.
  rewrite timit_skip_outcome.
  destruct (isfile_in fs (timit_prepare.save_scp_train s));
    [| simpl; intuition congruence].
  destruct (isfile_in fs (timit_prepare.save_scp_dev s));
    [| simpl; intuition congruence].
  destruct (isfile_in fs (timit_prepare.save_scp_test s));
    [| simpl; intuition congruence].
  destruct (isfile_in fs (timit_prepare.save_opt s));
    [| simpl; intuition congruence].
  simpl. destruct (outcome (load_pkl _ fs)) as [e|v]; [intuition congruence |].
  split.
  - intros [= Hv]. apply py_eq_conf_true in Hv as ->. done.
  - intros (_ & _ & _ & _ & [= ->]). f_equal. by apply py_eq_conf_true.
Qed.

Lemma libri_skip_loop (s : librispeech_prepare.self)
    (l : list string) (b : bool) fs :
  for_each
    (λ skip split,
       let* there := os_path_isfile (librispeech_prepare.scp_path s split) in
       ret (if negb there then false else skip)) l b fs =
  mkRes
    (inr (b && forallb (λ split,
                  isfile_in fs (librispeech_prepare.scp_path s split)) l))
    fs [].
Proof.
  revert b. induction l as [|split l IH]; intros b; simpl.
  - by rewrite andb_true_r.
  - unfold bind at 1. simpl. unfold bind at 1. simpl.
    destruct (isfile_in fs (librispeech_prepare.scp_path s split)), b;
      simpl; rewrite !IH; simpl; reflexivity.
Qed.

(** [librispeech_prepare.skip]: with the manifests of the splits in
    place and no fingerprint file the answer stays [True]. *)
Lemma libri_skip_outcome (s : librispeech_prepare.self) fs :
  outcome (librispeech_prepare.skip s fs) =
  if forallb (λ split, isfile_in fs (librispeech_prepare.scp_path s split))
       (librispeech_prepare.splits (librispeech_prepare.opts s))
  then
    if isfile_in fs (librispeech_prepare.save_opt s)
    then match outcome (load_pkl (librispeech_prepare.save_opt s) fs) with
         | inl e => inl e
         | inr v =>
             inr (py_eq_conf v
                    (librispeech_prepare.conf (librispeech_prepare.opts s)))
         end
    else inr true
  else inr false.
Proof.
  unfold librispeech_prepare.skip. unfold bind at 1.
  rewrite libri_skip_loop. simpl.
  destruct (forallb _ _); simpl; [| done].
  unfold bind at 1. simpl.
  destruct (isfile_in fs (librispeech_prepare.save_opt s)); simpl; [| done].
  unfold bind.
  destruct (read_only_load_pkl (librispeech_prepare.save_opt s) fs)
    as [-> _].
  destruct (outcome (load_pkl _ fs)) as [e|v]; simpl; [done |].
  by destruct (py_eq_conf _ _).
Qed.

(** C1 at the failing input. The save folder holds the manifest
    [dev-clean.scp] of the only requested split and no fingerprint
    file: [librispeech_prepare.skip] answers [True], and [__init__]
    returns without any work on the filesystem. *)
Theorem librispeech_skip_without_fingerprint :
  libri_stale_world !! librispeech_prepare.save_opt libri_self = None ∧
  outcome (librispeech_prepare.skip libri_self libri_stale_world)
    = inr true ∧
  outcome (librispeech_prepare.init libri_options None None
             libri_stale_world) = inr () ∧
  List.filter is_fs_work
    (trace (librispeech_prepare.init libri_options None None
              libri_stale_world)) = [].
Proof. repeat split; vm_compute; reflexivity. Qed.

End skip_decision.

(** ** The manifest builder at the inputs where it leaves the
       specification *)

(** C2 at the failing input. Twenty wav files, labels for the first
    nineteen: the label of [spk1_u19] is missing, which is one in twenty
    and below the threshold. The counter of missing labels ends at one,
    but the record of [spk1_u19] is in the manifest that is written, with
    the label file of the utterance before it. *)
Theorem missing_label_not_excluded (raises : bool) :
  let collab := example_collaborators raises (labels_for 19) in
  let s := timit_self ["train"] (Some "/ali") in
  let r := timit_prepare.create_scp s (timit_wavs 20) "/out/train.scp"
             (Some "/ali") None (timit_world 20) in
  is_missing (labels_for 19) (utt_wav "/d/train/dr1/spk1" 19) = true ∧
  misses (labels_for 19) (timit_wavs 20) = 1 ∧
  (λ st, (timit_prepare.snt_no_lab st, timit_prepare.missing_lab st)) <$>
    result_of (timit_prepare.process_all s (timit_wavs 20)
                 (Some (labels_for 19, "/out/kaldi_labels"))
                 (timit_world 20)) = Some (1, false) ∧
  outcome r = inr () ∧
  ¬ threshold_error s (trace r) ∧
  ∃ lines,
    manifests_written (trace r) = [("/out/train.scp", lines)] ∧
    length lines = 20 ∧
    List.last lines "" =
      "ID=spk1_u19 duration=2.0 wav=(/d/train/dr1/spk1/u19.wav,wav) " +:+
      "spk_id=(spk1,string) phn=(sil_hh_sil,string) " +:+
      "wrd=(hello_world,string) " +:+
      "kaldi_lab=(/out/kaldi_labels/spk1_u18.pkl,pkl)".
Proof.
  intros collab s r.
  split; [vm_compute; reflexivity |]. split; [vm_compute; reflexivity |].
  split; [destruct raises; vm_compute; reflexivity |].
  split; [destruct raises; vm_compute; reflexivity |].
  split.
  - unfold threshold_error.
    assert (bool_decide
              (EvLog Error (timit_prepare.too_many_msg s) ∈ trace r) = false)
      as H by (destruct raises; vm_compute; reflexivity).
    by apply bool_decide_eq_false in H.
  - destruct raises; eexists; (split; [vm_compute; reflexivity |]);
      split; vm_compute; reflexivity.
Qed.

(** C5 at the failing input. TIMIT is prepared for the split [train]
    alone. The first run writes [train.scp] and the fingerprint. The
    second run, on the filesystem the first run left and with the same
    configuration, does not skip, because [dev.scp] and [test.scp] do not
    exist: it writes the manifest and the fingerprint again. *)
Theorem timit_single_split_never_skips :
  let collab := example_collaborators false ∅ in
  let o := timit_options ["train"] None in
  let s := {| timit_prepare.opts := o; timit_prepare.save_folder := "/out";
              timit_prepare.global_config := None |} in
  let first := timit_prepare.init o None None (timit_world 2) in
  let second := timit_prepare.init o None None (final first) in
  outcome first = inr () ∧
  final first !! "/out/opt_timit_prepare.pkl" =
    Some (Pickle (PyConf (timit_prepare.conf o))) ∧
  outcome (timit_prepare.skip s (final first)) = inr false ∧
  outcome second = inr () ∧
  (∃ lines,
     List.filter is_fs_work (trace second) =
     [EvWriteTxt "/out/train.scp" lines;
      EvSavePkl "/out/opt_timit_prepare.pkl" (PyConf (timit_prepare.conf o))]) ∧
  final second !! "/out/train.scp" = final first !! "/out/train.scp".
Proof.
  intros collab o s first second.
  split; [vm_compute; reflexivity |]. split; [vm_compute; reflexivity |].
  split; [vm_compute; reflexivity |]. split; [vm_compute; reflexivity |].
  split; [eexists; vm_compute; reflexivity |]. vm_compute; reflexivity.
Qed.

(** ** A turn of the TIMIT loop that succeeds *)

Section timit_success.
Context `{collab : !Collaborators}.
Import PyStr timit_prepare.

Lemma final_logger_write (msg : string) (lvl : level) fs :
  final (logger_write msg lvl fs) = fs.
Proof. done. Qed.

Lemma final_when_logger_write (b : bool) (msg : string) (lvl : level) fs :
  final (when b (logger_write msg lvl) fs) = fs.
Proof. by destruct b. Qed.

Lemma final_read_only {A} (m : M A) fs : read_only m → final (m fs) = fs.
Proof. intros H. by destruct (H fs). Qed.

(** The label lookup, when it returns. *)
Lemma check_label_inr (s : self) (n : nat)
    (l : gmap string (list Z) * string) (snt_id : string) (st st1 : locals)
    fs :
  outcome (check_label s n l snt_id st fs) = inr st1 →
  snt_no_lab st1 =
    snt_no_lab st + match l.1 !! snt_id with Some _ => 0 | None => 1 end ∧
  missing_lab st1 =
    match l.1 !! snt_id with Some _ => missing_lab st | None => false end ∧
  scp_lines st1 = scp_lines st ∧
  (ratio_exceeds (snt_no_lab st1) n = true →
   error_raises = false ∧
   EvLog Error (too_many_msg s) ∈ trace (check_label s n l snt_id st fs)).
Proof.
  unfold check_label, bind, when, logger_write, save_pkl.
  destruct (l.1 !! snt_id) as [blob|]; simpl;
    (destruct n as [|n']; simpl; [discriminate |]);
    destruct (ratio_exceeds _ (S n')) eqn:Hr; simpl;
    destruct error_raises eqn:Hraise; simpl; try discriminate;
    intros [= <-]; simpl; rewrite ?Hr;
    (split; [lia |]); (split; [done |]); (split; [done |]);
    try discriminate; intros _; (split; [done |]);
    apply list_elem_of_In; simpl; auto.
Qed.

Lemma keeps_text_check_label (s : self) (n : nat)
    (l : gmap string (list Z) * string) (snt_id : string) (st : locals) :
  keeps_text (check_label s n l snt_id st).
Proof. unfold check_label. keeps_text_auto. Qed.

(** The second half of the body, when it returns: both sibling files
    were text files, and the line has the six fields. *)
Lemma append_line_inr (labs : option (gmap string (list Z) * string))
    (st st' : locals) (ids : string * string) (wav_file : string) fs :
  outcome (append_line labs st ids wav_file fs) = inr st' →
  ∃ duration wrd_lines words phn_lines phonemes rest,
    fs !! replace ".wav" ".wrd" wav_file = Some (Text wrd_lines) ∧
    mapM word_of_line wrd_lines = Some words ∧
    fs !! replace ".wav" ".phn" wav_file = Some (Text phn_lines) ∧
    mapM phoneme_of_line phn_lines = Some phonemes ∧
    scp_lines st' =
      scp_lines st ++
      [scp_line ids.2 duration wav_file ids.1 (join "_" phonemes)
         (join "_" words) +:+ rest] ∧
    (labs = None → rest = "") ∧
    snt_no_lab st' = snt_no_lab st ∧
    missing_lab st' = missing_lab st.
Proof.
  unfold append_line. intros H.
  apply bind_inr in H as (samples & _ & H).
  rewrite (final_read_only _ _ (read_only_read_wav_soundfile _)) in H.
  apply bind_inr in H as (there & _ & H). simpl in H.
  apply bind_inr in H as ([] & _ & H).
  rewrite final_when_logger_write in H.
  apply bind_inr in H as (wrd_lines & Hwrd & H).
  apply open_lines_inr in Hwrd.
  rewrite (final_read_only _ _ (read_only_open_lines _)) in H.
  apply bind_inr in H as (words & Hwords & H).
  apply or_raise_inr in Hwords.
  rewrite (final_read_only _ _ (read_only_or_raise _ _)) in H.
  apply bind_inr in H as (there' & _ & H). simpl in H.
  apply bind_inr in H as ([] & _ & H).
  rewrite final_when_logger_write in H.
  apply bind_inr in H as (phn_lines & Hphn & H).
  apply open_lines_inr in Hphn.
  rewrite (final_read_only _ _ (read_only_open_lines _)) in H.
  apply bind_inr in H as (phonemes & Hphonemes & H).
  apply or_raise_inr in Hphonemes.
  rewrite (final_read_only _ _ (read_only_or_raise _ _)) in H.
  apply bind_inr in H as (line & Hline & H).
  simpl in H. injection H as <-. simpl.
  exists (float_div_str samples samplerate), wrd_lines, words, phn_lines,
    phonemes.
  destruct labs as [l|].
  - apply bind_inr in Hline as (path & _ & Hline). simpl in Hline.
    injection Hline as <-.
    exists (" kaldi_lab=(" +:+ path +:+ ",pkl)"). by repeat split.
  - simpl in Hline. injection Hline as <-. exists "".
    rewrite app_nil_r. by repeat split.
Qed.

(** A turn of the loop, when it returns. *)
Lemma process_wav_inr (s : self) (n : nat)
    (labs : option (gmap string (list Z) * string)) (st st' : locals)
    (wav_file : string) fs :
  missing_lab st = false →
  outcome (process_wav s n labs st wav_file fs) = inr st' →
  ∃ ids duration wrd_lines words phn_lines phonemes rest,
    ids_of wav_file = Some ids ∧
    fs !! replace ".wav" ".wrd" wav_file = Some (Text wrd_lines) ∧
    mapM word_of_line wrd_lines = Some words ∧
    fs !! replace ".wav" ".phn" wav_file = Some (Text phn_lines) ∧
    mapM phoneme_of_line phn_lines = Some phonemes ∧
    scp_lines st' =
      scp_lines st ++
      [scp_line ids.2 duration wav_file ids.1 (join "_" phonemes)
         (join "_" words) +:+ rest] ∧
    (labs = None → rest = "") ∧
    missing_lab st' = false ∧
    snt_no_lab st' =
      snt_no_lab st +
      match labs with
      | Some l => if is_missing l.1 wav_file then 1 else 0
      | None => 0
      end ∧
    (∀ l, labs = Some l → ratio_exceeds (snt_no_lab st') n = true →
          error_raises = false ∧
          EvLog Error (too_many_msg s) ∈
            trace (process_wav s n labs st wav_file fs)).
Proof.
  intros Hst H. unfold process_wav in H.
  apply bind_inr in H as (ids & Hids & H). apply or_raise_inr in Hids.
  rewrite (final_read_only _ _ (read_only_or_raise _ _)) in H.
  apply bind_inr in H as (st1 & Hst1 & H).
  assert (missing_lab st1 = false ∧ scp_lines st1 = scp_lines st ∧
          snt_no_lab st1 =
            snt_no_lab st +
            match labs with
            | Some l => if is_missing l.1 wav_file then 1 else 0
            | None => 0
            end ∧
          (∀ l, labs = Some l → ratio_exceeds (snt_no_lab st1) n = true →
                error_raises = false ∧
                EvLog Error (too_many_msg s) ∈
                  trace (check_label s n l ids.2 st fs)))
    as (Hm1 & Hl1 & Hc1 & Hr1).
  { destruct labs as [l|].
    - apply check_label_inr in Hst1 as (Hc & Hm & Hl & Hr).
      unfold is_missing. rewrite Hids.
      destruct (l.1 !! ids.2) eqn:E.
      + rewrite bool_decide_eq_false_2 by congruence.
        split; [by rewrite Hm |]. split; [done |]. split; [by rewrite Hc |].
        intros l' [= <-]. exact Hr.
      + rewrite bool_decide_eq_true_2 by done.
        split; [by rewrite Hm |]. split; [done |]. split; [by rewrite Hc |].
        intros l' [= <-]. exact Hr.
    - simpl in Hst1. injection Hst1 as <-.
      split; [done |]. split; [done |]. split; [lia |]. intros ? [=]. }
  rewrite Hm1 in H.
  assert (no_new_text fs
            (final (match labs with
                    | Some l => check_label s n l ids.2 st
                    | None => ret st
                    end fs))) as Htext.
  { destruct labs; [| apply no_new_text_refl].
    apply keeps_text_check_label. }
  apply append_line_inr in H
    as (duration & wrd_lines & words & phn_lines & phonemes & rest &
        Hwrd & Hwords & Hphn & Hphonemes & Hlines & Hrest & Hc & Hm).
  exists ids, duration, wrd_lines, words, phn_lines, phonemes, rest.
  split; [done |]. split; [by apply Htext |]. split; [done |].
  split; [by apply Htext |]. split; [done |].
  split; [by rewrite Hlines, Hl1 |]. split; [done |].
  split; [by rewrite Hm |]. split; [by rewrite Hc |].
  intros l -> Hratio. rewrite Hc in Hratio.
  destruct (Hr1 l eq_refl Hratio) as [Hraise Hin]. split; [done |].
  unfold process_wav. rewrite trace_bind.
  unfold or_raise at 1 2. rewrite Hids. simpl.
  rewrite trace_bind. apply elem_of_app. by left.
Qed.

End timit_success.

(** ** The TIMIT loop when it runs to its end *)

Section timit_loop_success.
Context `{collab : !Collaborators}.
Import PyStr timit_prepare.

Lemma misses_cons (lab : gmap string (list Z)) (x : string)
    (l : list string) :
  misses lab (x :: l) = (if is_missing lab x then 1 else 0) + misses lab l.
Proof. unfold misses. simpl. by destruct (is_missing lab x). Qed.

Lemma process_all_inr (s : self) (n : nat)
    (labs : option (gmap string (list Z) * string)) (l : list string)
    (st st' : locals) fs :
  missing_lab st = false →
  outcome (for_each (process_wav s n labs) l st fs) = inr st' →
  missing_lab st' = false ∧
  snt_no_lab st' =
    snt_no_lab st +
    match labs with Some lb => misses lb.1 l | None => 0 end ∧
  (∀ wav_file, wav_file ∈ l →
     ∃ wrd_lines phn_lines,
       fs !! replace ".wav" ".wrd" wav_file = Some (Text wrd_lines) ∧
       fs !! replace ".wav" ".phn" wav_file = Some (Text phn_lines)) ∧
  length (scp_lines st') = length (scp_lines st) + length l ∧
  (Forall (timit_line (bool_decide (is_Some labs))) (scp_lines st) →
   Forall (timit_line (bool_decide (is_Some labs))) (scp_lines st')) ∧
  (∀ lb, labs = Some lb → 0 < misses lb.1 l →
         ratio_exceeds (snt_no_lab st') n = true →
         error_raises = false ∧
         EvLog Error (too_many_msg s) ∈
           trace (for_each (process_wav s n labs) l st fs)).
Proof.
  revert st fs. induction l as [|x l IH]; intros st fs Hst H.
  - simpl in H. injection H as <-.
    split; [done |]. split; [unfold misses; destruct labs; simpl; lia |].
    split; [by intros ? ?%elem_of_nil |]. split; [simpl; lia |].
    split; [done |]. intros lb _ Hm. unfold misses in Hm. simpl in Hm. lia.
  - simpl in H. apply bind_inr in H as (st1 & Hbody & H).
    pose proof (keeps_text_process_wav s n labs st x fs) as Htext.
    destruct (process_wav_inr _ _ _ _ _ _ _ Hst Hbody)
      as (ids & duration & wrd_lines & words & phn_lines & phonemes & rest &
          Hids & Hwrd & Hwords & Hphn & Hphonemes & Hlines & Hrest &
          Hm1 & Hc1 & Hr1).
    destruct (IH _ _ Hm1 H) as (Hm' & Hc' & Hfiles & Hlen & Hshape & Hr').
    split; [done |].
    split.
    { rewrite Hc', Hc1. destruct labs as [lb|]; [| lia].
      rewrite misses_cons. lia. }
    split.
    { intros wav_file [-> | Hin]%elem_of_cons; [eauto |].
      destruct (Hfiles _ Hin) as (ls & ls' & H1 & H2).
      exists ls, ls'. split; by apply Htext. }
    split.
    { rewrite Hlen, Hlines, length_app. simpl. lia. }
    split.
    { intros Hall. apply Hshape. rewrite Hlines. apply Forall_app.
      split; [done |]. constructor; [| constructor].
      exists ids.2, duration, x, ids.1, wrd_lines, words, phn_lines,
        phonemes, rest.
      split; [done |]. split; [done |]. split; [done |].
      intros Hb. apply Hrest. apply bool_decide_eq_false in Hb.
      destruct labs; [| done]. destruct Hb. eauto. }
    intros lb -> Hmiss Hratio. simpl. rewrite trace_bind, Hbody.
    destruct (decide (0 < misses lb.1 l)) as [Hpos | Hzero].
    + destruct (Hr' lb eq_refl Hpos Hratio) as [Hraise Hin].
      split; [done |]. apply elem_of_app. by right.
    + rewrite misses_cons in Hmiss.
      assert (misses lb.1 l = 0) as Hz by lia.
      simpl in Hc'. rewrite Hz, Nat.add_0_r in Hc'. rewrite Hc' in Hratio.
      destruct (Hr1 lb eq_refl Hratio) as [Hraise Hin].
      split; [done |]. apply elem_of_app. by left.
Qed.

End timit_loop_success.

(** ** Missing sibling files *)

Section missing_sibling.
Context `{collab : !Collaborators}.
Import PyStr.

Lemma manifests_written_label_events (folder : string) (t : list event) :
  Forall (label_event folder) t → manifests_written t = [].
Proof.
  unfold manifests_written. induction 1 as [|e t He Ht IH]; [done |].
  destruct e; simpl in *; done.
Qed.

(** TIMIT: a wav file of the list without its [.wrd] or [.phn] file
    makes [create_scp] raise, and no manifest is written. *)
Lemma timit_missing_sibling_aborts (s : timit_prepare.self)
    (wav_lst : list string) (scp_file : string)
    (kaldi_lab lopts : option string) fs (wav_file : string) :
  wav_file ∈ wav_lst →
  fs !! replace ".wav" ".wrd" wav_file = None ∨
  fs !! replace ".wav" ".phn" wav_file = None →
  ∃ e,
    outcome (timit_prepare.create_scp s wav_lst scp_file kaldi_lab lopts fs)
      = inl e ∧
    manifests_written
      (trace (timit_prepare.create_scp s wav_lst scp_file kaldi_lab lopts fs))
      = [].
Proof.
  intros Hin Hnone.
  pose proof (create_scp_trace s wav_lst scp_file kaldi_lab lopts fs) as Ht.
  unfold wp in Ht. destruct Ht as (t0 & Ht0 & Hr).
  destruct (outcome (timit_prepare.create_scp _ _ _ _ _ fs)) as [e|[]] eqn:E.
  { exists e. split; [done |]. rewrite Hr.
    by eapply manifests_written_label_events. }
  exfalso. unfold timit_prepare.create_scp in E.
  apply bind_inr in E as ([] & _ & E). rewrite final_logger_write in E.
  apply bind_inr in E as (labs & _ & E).
  pose proof (keeps_text_load_labels s kaldi_lab lopts fs) as Htext.
  apply bind_inr in E as (st & Hloop & _).
  apply process_all_inr in Hloop as (_ & _ & Hfiles & _); [| done].
  destruct (Hfiles _ Hin) as (ls & ls' & H1 & H2).
  apply Htext in H1, H2. destruct Hnone; congruence.
Qed.

(** LibriSpeech: the loop reaches the files of [processed], and each of
    them must have its transcript. *)
Lemma libri_process_all_inr (text_dict : gmap string string) (n : nat)
    (l : list string) (st st' : list string * nat) fs :
  outcome (for_each_break (librispeech_prepare.process_wav text_dict n)
             l st fs) = inr st' →
  ∀ wav_file,
    wav_file ∈ (if decide (st.2 < n) then take (n - st.2) l else l) →
    is_Some (text_dict !! librispeech_prepare.snt_id_of wav_file).
Proof.
  revert st fs. induction l as [|x l IH]; intros st fs H wav_file Hin.
  { destruct (decide (st.2 < n)); [rewrite take_nil in Hin |];
      by apply elem_of_nil in Hin. }
  simpl in H. apply bind_inr in H as (f & Hbody & H).
  unfold librispeech_prepare.process_wav in Hbody.
  apply bind_inr in Hbody as (wrd & Hwrd & Hbody).
  apply or_raise_inr in Hwrd.
  apply bind_inr in Hbody as (samples & _ & Hbody). simpl in Hbody.
  destruct (decide (st.2 + 1 = n)) as [Heq | Hne]; simpl in Hbody;
    injection Hbody as <-.
  - destruct (decide (st.2 < n)) as [_ | ?]; [| lia].
    replace (n - st.2) with 1 in Hin by lia. simpl in Hin.
    rewrite take_0 in Hin. apply list_elem_of_singleton in Hin as ->. eauto.
  - specialize (IH _ _ H wav_file). simpl in IH.
    destruct (decide (st.2 < n)) as [Hlt | Hge].
    + replace (n - st.2) with (S (n - (st.2 + 1))) in Hin by lia.
      simpl in Hin. apply elem_of_cons in Hin as [-> | Hin]; [eauto |].
      apply IH. destruct (decide (st.2 + 1 < n)); [done | lia].
    + apply elem_of_cons in Hin as [-> | Hin]; [eauto |].
      apply IH. destruct (decide (st.2 + 1 < n)); [lia | done].
Qed.

Lemma libri_missing_transcript_aborts (s : librispeech_prepare.self)
    (wav_lst : list string) (text_dict : gmap string string)
    (split : string) (n : nat) fs (wav_file : string) :
  wav_file ∈ processed n wav_lst →
  text_dict !! librispeech_prepare.snt_id_of wav_file = None →
  ∃ e,
    outcome (librispeech_prepare.create_scp s wav_lst text_dict split n fs)
      = inl e ∧
    manifests_written
      (trace (librispeech_prepare.create_scp s wav_lst text_dict split n fs))
      = [].
Proof.
  intros Hin Hnone. unfold librispeech_prepare.create_scp.
  rewrite outcome_bind, trace_bind. simpl.
  rewrite outcome_bind, trace_bind.
  destruct (read_only_process_all wav_lst text_dict n fs) as [_ ->].
  destruct (outcome (librispeech_prepare.process_all wav_lst text_dict n fs))
    as [e|st] eqn:E; [by exists e |].
  exfalso. unfold librispeech_prepare.process_all in E.
  pose proof (libri_process_all_inr _ _ _ _ _ _ E wav_file) as H.
  simpl in H. rewrite Nat.sub_0_r in H.
  assert (is_Some (text_dict !! librispeech_prepare.snt_id_of wav_file))
    as [? ?]; [| congruence].
  apply H. unfold processed in Hin.
  destruct n; [by destruct (decide (0 < 0)); [lia |] |].
  by destruct (decide (0 < S n)); [| lia].
Qed.

(** C7, amended. An utterance whose sibling transcript or phoneme file is
    absent is fatal for the build of its split. In TIMIT, for every wav
    file of the list whose [.wrd] or [.phn] file does not exist,
    [create_scp] ends with an exception and writes no manifest; in
    LibriSpeech the same holds for every file that the loop reaches and
    whose transcript is not in the dictionary read from the
    transcription files. No record is emitted for such an utterance. *)
Theorem missing_sibling_aborts :
  (∀ (s : timit_prepare.self) wav_lst scp_file kaldi_lab lopts fs wav_file,
     wav_file ∈ wav_lst →
     fs !! replace ".wav" ".wrd" wav_file = None ∨
     fs !! replace ".wav" ".phn" wav_file = None →
     ∃ e,
       outcome (timit_prepare.create_scp s wav_lst scp_file kaldi_lab lopts fs)
         = inl e ∧
       manifests_written
         (trace (timit_prepare.create_scp s wav_lst scp_file kaldi_lab lopts
                   fs)) = []) ∧
  (∀ (s : librispeech_prepare.self) wav_lst text_dict split n fs wav_file,
     wav_file ∈ processed n wav_lst →
     text_dict !! librispeech_prepare.snt_id_of wav_file = None →
     ∃ e,
       outcome (librispeech_prepare.create_scp s wav_lst text_dict split n fs)
         = inl e ∧
       manifests_written
         (trace (librispeech_prepare.create_scp s wav_lst text_dict split n
                   fs)) = []).
Proof.
  split.
  - apply timit_missing_sibling_aborts.
  - apply libri_missing_transcript_aborts.
Qed.

End missing_sibling.

Lemma missing_sibling_aborts_witness :
  ∃ e,
    outcome (@timit_prepare.create_scp (example_collaborators false ∅)
               (timit_self ["train"] None) (timit_wavs 2) "/out/train.scp"
               None None (timit_world_no_wrd 2)) = inl e ∧
    manifests_written
      (trace (@timit_prepare.create_scp (example_collaborators false ∅)
                (timit_self ["train"] None) (timit_wavs 2) "/out/train.scp"
                None None (timit_world_no_wrd 2))) = [].
Proof.
  apply (proj1 (@missing_sibling_aborts (example_collaborators false ∅))
           (timit_self ["train"] None) (timit_wavs 2) "/out/train.scp"
           None None (timit_world_no_wrd 2) (utt_wav "/d/train/dr1/spk1" 1)).
  - apply list_elem_of_In. vm_compute. auto.
  - left. vm_compute. reflexivity.
Defined.

(** C7 as stated fails: the tree holds [u01.wav] without [u01.wrd], and
    [create_scp] ends with the [FileNotFoundError] of [open], whether an
    error-level log raises or not. *)
Lemma missing_sibling_not_tolerated :
  ¬ @missing_sibling_tolerated (example_collaborators false ∅) ∧
  ¬ @missing_sibling_tolerated (example_collaborators true ∅).
Proof.
  split; intros H;
    destruct (H (timit_self ["train"] None) (timit_wavs 2) "/out/train.scp"
                None None (timit_world_no_wrd 2)
                (utt_wav "/d/train/dr1/spk1" 1)) as [Hout _];
    try (apply list_elem_of_In; vm_compute; auto);
    try (left; vm_compute; reflexivity);
    vm_compute in Hout; discriminate.
Qed.

(** ** The threshold on missing labels *)

Section threshold.
Context `{collab : !Collaborators}.
Import PyStr timit_prepare.

Lemma missing_file_msg_not_too_many (s : self) (f : string) :
  EvLog Error (missing_file_msg f) ≠ EvLog Error (too_many_msg s).
Proof. unfold missing_file_msg, too_many_msg. simpl. discriminate. Qed.

(** The label lookup issues the error only when the count exceeds the
    ratio. *)
Lemma check_label_threshold (s : self) (n : nat)
    (l : gmap string (list Z) * string) (snt_id : string) (st : locals) fs :
  EvLog Error (too_many_msg s) ∈ trace (check_label s n l snt_id st fs) →
  ratio_exceeds
    (snt_no_lab st + match l.1 !! snt_id with Some _ => 0 | None => 1 end) n
    = true.
Proof.
  unfold check_label, bind, when, logger_write, save_pkl, no_label_msg.
  destruct (l.1 !! snt_id) as [blob|]; simpl; rewrite ?Nat.add_0_r;
    (destruct n as [|n']; simpl;
     [intros H; apply list_elem_of_In in H; simpl in H;
      intuition discriminate |]);
    destruct (ratio_exceeds _ (S n')) eqn:Hr; simpl; try done;
    intros H; apply list_elem_of_In in H; simpl in H; intuition discriminate.
Qed.

Lemma process_wav_threshold (s : self) (n : nat)
    (lb : gmap string (list Z) * string) (st : locals) (wav_file : string)
    fs :
  EvLog Error (too_many_msg s) ∈
    trace (process_wav s n (Some lb) st wav_file fs) →
  ratio_exceeds
    (snt_no_lab st + if is_missing lb.1 wav_file then 1 else 0) n = true.
Proof.
  unfold process_wav. rewrite trace_bind. unfold is_missing.
  destruct (ids_of wav_file) as [ids|]; simpl;
    [| by intros ?%elem_of_nil].
  rewrite trace_bind. intros [H | H]%elem_of_app.
  - apply check_label_threshold in H.
    destruct (lb.1 !! ids.2); [by rewrite bool_decide_eq_false_2 |].
    by rewrite bool_decide_eq_true_2.
  - exfalso. destruct (outcome (check_label s n lb ids.2 st fs)) as [e|st1];
      [by apply elem_of_nil in H |].
    destruct (missing_lab st1); [by apply elem_of_nil in H |].
    pose proof (emits_append_line
                  (λ e, e ≠ EvLog Error (too_many_msg s)) (Some lb) st1 ids
                  wav_file (missing_file_msg_not_too_many s)
                  (final (check_label s n lb ids.2 st fs))) as Hno.
    rewrite Forall_forall in Hno. by apply (Hno _ H).
Qed.

(** With at most [n / 20] labels missing in what remains, the loop does
    not issue the error. *)
Lemma process_all_no_threshold (s : self) (n : nat)
    (lb : gmap string (list Z) * string) (l : list string) (st : locals) fs :
  missing_lab st = false →
  20 * (snt_no_lab st + misses lb.1 l) ≤ n →
  EvLog Error (too_many_msg s) ∉
    trace (for_each (process_wav s n (Some lb)) l st fs).
Proof.
  revert st fs. induction l as [|x l IH]; intros st fs Hst Hle; simpl.
  - by intros ?%elem_of_nil.
  - rewrite misses_cons in Hle. rewrite trace_bind.
    intros [H | H]%elem_of_app.
    + apply process_wav_threshold in H. unfold ratio_exceeds in H.
      apply bool_decide_eq_true in H. destruct (is_missing lb.1 x); lia.
    + destruct (outcome (process_wav s n (Some lb) st x fs)) as [e|st1] eqn:E;
        [by apply elem_of_nil in H |].
      destruct (process_wav_inr _ _ _ _ _ _ _ Hst E)
        as (? & ? & ? & ? & ? & ? & ? & _ & _ & _ & _ & _ & _ & _ &
            Hm1 & Hc1 & _).
      simpl in Hc1. eapply IH; [exact Hm1 | | exact H]. rewrite Hc1. lia.
Qed.

Lemma load_labels_inr (s : self) (dir : string) (lopts : option string) fs
    (lab : gmap string (list Z)) labs :
  labels_are s dir lopts fs lab →
  outcome (load_labels s (Some dir) lopts fs) = inr labs →
  labs = Some (lab, save_folder s +:+ "/kaldi_labels").
Proof.
  intros (g & out & Hg & Hout & Hread). unfold load_labels. rewrite Hg.
  simpl. rewrite Hout. intros H.
  apply bind_inr in H as (out' & Ho & H). simpl in Ho. injection Ho as <-.
  simpl in H. apply bind_inr in H as (lab' & Hl & H).
  unfold read_kaldi_lab in Hl. simpl in Hl. rewrite Hread in Hl.
  injection Hl as <-. simpl in H.
  repeat (apply bind_inr in H as (? & _ & H)). simpl in H.
  by injection H as <-.
Qed.

(** The trace of [create_scp] around the loop. *)
Lemma create_scp_threshold_in_loop (s : self) (wav_lst : list string)
    (scp_file : string) (kaldi_lab lopts : option string) fs :
  threshold_error s (trace (create_scp s wav_lst scp_file kaldi_lab lopts fs)) →
  ∃ labs,
    outcome (load_labels s kaldi_lab lopts fs) = inr labs ∧
    EvLog Error (too_many_msg s) ∈
      trace (process_all s wav_lst labs
               (final (load_labels s kaldi_lab lopts fs))).
Proof.
  unfold threshold_error, create_scp. rewrite trace_bind. simpl.
  intros [[=] | H]%elem_of_cons. rewrite trace_bind in H.
  apply elem_of_app in H as [H | H].
  { exfalso.
    pose proof (emits_load_labels_gen s kaldi_lab lopts
                  (λ e, e ≠ EvLog Error (too_many_msg s))
                  (λ p, ltac:(discriminate)) fs) as Hno.
    rewrite Forall_forall in Hno. by apply (Hno _ H). }
  destruct (outcome (load_labels s kaldi_lab lopts fs)) as [e|labs];
    [by apply elem_of_nil in H |].
  exists labs. split; [done |].
  rewrite trace_bind in H. apply elem_of_app in H as [H | H]; [done |].
  exfalso.
  destruct (outcome (process_all s wav_lst labs _)); simpl in H;
    [by apply elem_of_nil in H |].
  apply list_elem_of_In in H. simpl in H. intuition discriminate.
Qed.

End threshold.

Section threshold_boundary.
Context `{collab : !Collaborators}.
Import PyStr timit_prepare.

Lemma create_scp_trace_of_loop (s : self) (wav_lst : list string)
    (scp_file : string) (kaldi_lab lopts : option string) fs labs
    (e : event) :
  outcome (load_labels s kaldi_lab lopts fs) = inr labs →
  e ∈ trace (process_all s wav_lst labs
               (final (load_labels s kaldi_lab lopts fs))) →
  e ∈ trace (create_scp s wav_lst scp_file kaldi_lab lopts fs).
Proof.
  intros Hload Hin. unfold create_scp. rewrite trace_bind. simpl.
  apply elem_of_cons. right. rewrite trace_bind, Hload.
  apply elem_of_app. right. rewrite trace_bind.
  apply elem_of_app. by left.
Qed.

(** A build that ends well with more than [N / 20] labels missing has
    issued the error, through a logger that does not raise. *)
Lemma create_scp_over_threshold (s : self) (wav_lst : list string)
    (scp_file dir : string) (lopts : option string) fs
    (lab : gmap string (list Z)) :
  labels_are s dir lopts fs lab →
  length wav_lst < 20 * misses lab wav_lst →
  outcome (create_scp s wav_lst scp_file (Some dir) lopts fs) = inr () →
  threshold_error s (trace (create_scp s wav_lst scp_file (Some dir) lopts fs))
  ∧ error_raises = false.
Proof.
  intros Hlab Hlt H. unfold create_scp in H.
  apply bind_inr in H as ([] & _ & H). rewrite final_logger_write in H.
  apply bind_inr in H as (labs & Hload & H).
  pose proof (load_labels_inr _ _ _ _ _ _ Hlab Hload) as ->.
  apply bind_inr in H as (st & Hloop & _).
  unfold process_all in Hloop.
  apply process_all_inr in Hloop as (_ & Hc & _ & _ & _ & Hr); [| done].
  simpl in Hc.
  destruct (Hr _ eq_refl) as [Hraise Hin].
  - simpl. lia.
  - rewrite Hc. unfold ratio_exceeds. by apply bool_decide_eq_true_2.
  - split; [| done]. by eapply create_scp_trace_of_loop.
Qed.

(** C3, amended. With a label source given and [N] wav files, the
    boundary of the error of too many missing labels is at
    [floor(0.05 * N)]: with at most that many labels missing the error is
    not issued; with [floor(0.05 * N) + 1] or more a build does not end
    well without having issued it. The error goes through the
    error-level logger: with that many labels missing, and a logger that
    raises, the build ends with an exception and writes no manifest. *)
Theorem threshold_at_floor (s : self) (wav_lst : list string)
    (scp_file dir : string) (lopts : option string) fs
    (lab : gmap string (list Z)) :
  labels_are s dir lopts fs lab →
  let r := create_scp s wav_lst scp_file (Some dir) lopts fs in
  (misses lab wav_lst ≤ floor_5_percent (length wav_lst) →
   ¬ threshold_error s (trace r)) ∧
  (floor_5_percent (length wav_lst) < misses lab wav_lst →
   (outcome r = inr () → threshold_error s (trace r)) ∧
   (error_raises = true →
    (∃ e, outcome r = inl e) ∧ manifests_written (trace r) = [])).
Proof.
  intros Hlab r. unfold floor_5_percent. split.
  - intros Hle Hthr.
    apply create_scp_threshold_in_loop in Hthr as (labs & Hload & Hin).
    pose proof (load_labels_inr _ _ _ _ _ _ Hlab Hload) as ->.
    revert Hin. apply process_all_no_threshold; [done |]. simpl.
    pose proof (Nat.Div0.mul_div_le (length wav_lst) 20). lia.
  - intros Hlt.
    assert (length wav_lst < 20 * misses lab wav_lst) as Hlt'.
    { pose proof (Nat.mul_succ_div_gt (length wav_lst) 20). lia. }
    split.
    + intros Hok. by apply (create_scp_over_threshold _ _ _ _ _ _ _ Hlab Hlt').
    + intros Hraise.
      assert (∃ e, outcome r = inl e) as [e He].
      { destruct (outcome r) as [e|[]] eqn:E; [eauto |].
        destruct (create_scp_over_threshold _ _ _ _ _ _ _ Hlab Hlt' E).
        congruence. }
      split; [eauto |].
      pose proof (create_scp_trace s wav_lst scp_file (Some dir) lopts fs)
        as Ht.
      unfold wp in Ht. destruct Ht as (t0 & Ht0 & Hr).
      fold r in Hr. rewrite He in Hr. rewrite Hr.
      by eapply manifests_written_label_events.
Qed.

End threshold_boundary.

Lemma event_in_trace (e : event) (t : list event) :
  bool_decide (e ∈ t) = true → e ∈ t.
Proof. apply bool_decide_eq_true. Qed.

Lemma example_labels_are (raises : bool) (lab : gmap string (list Z))
    (fs : gmap string node) :
  @labels_are (example_collaborators raises lab)
    (timit_self ["train"] (Some "/ali")) "/ali" None fs lab.
Proof. by exists {[ "output_folder" := "/exp" ]}, "/exp". Qed.

(** Twenty wav files with the label of the last one missing, which is
    [floor(0.05 * 20)]: the error is not issued. Two wav files with the
    label of the second missing, one more than [floor(0.05 * 2)]: the
    build that ends well has issued the error, and with a logger that
    raises the build ends with an exception and writes no manifest. *)
Lemma threshold_at_floor_witness :
  ¬ @threshold_error (example_collaborators true (labels_for 19))
      (timit_self ["train"] (Some "/ali"))
      (trace (@timit_prepare.create_scp
                (example_collaborators true (labels_for 19))
                (timit_self ["train"] (Some "/ali")) (timit_wavs 20)
                "/out/train.scp" (Some "/ali") None (timit_world 20))) ∧
  @threshold_error (example_collaborators false (labels_for 1))
    (timit_self ["train"] (Some "/ali"))
    (trace (@timit_prepare.create_scp
              (example_collaborators false (labels_for 1))
              (timit_self ["train"] (Some "/ali")) (timit_wavs 2)
              "/out/train.scp" (Some "/ali") None (timit_world 2))) ∧
  (∃ e, outcome (@timit_prepare.create_scp
                   (example_collaborators true (labels_for 1))
                   (timit_self ["train"] (Some "/ali")) (timit_wavs 2)
                   "/out/train.scp" (Some "/ali") None (timit_world 2))
        = inl e) ∧
  manifests_written
    (trace (@timit_prepare.create_scp
              (example_collaborators true (labels_for 1))
              (timit_self ["train"] (Some "/ali")) (timit_wavs 2)
              "/out/train.scp" (Some "/ali") None (timit_world 2))) = [].
Proof.
  split; [| split].
  - apply (proj1 (@threshold_at_floor
                    (example_collaborators true (labels_for 19))
                    (timit_self ["train"] (Some "/ali")) (timit_wavs 20)
                    "/out/train.scp" "/ali" None (timit_world 20)
                    (labels_for 19) (example_labels_are _ _ _))).
    vm_compute. lia.
  - apply (proj2 (@threshold_at_floor
                    (example_collaborators false (labels_for 1))
                    (timit_self ["train"] (Some "/ali")) (timit_wavs 2)
                    "/out/train.scp" "/ali" None (timit_world 2)
                    (labels_for 1) (example_labels_are _ _ _))).
    + vm_compute. lia.
    + vm_compute. reflexivity.
  - apply (proj2 (@threshold_at_floor
                    (example_collaborators true (labels_for 1))
                    (timit_self ["train"] (Some "/ali")) (timit_wavs 2)
                    "/out/train.scp" "/ali" None (timit_world 2)
                    (labels_for 1) (example_labels_are _ _ _))).
    + vm_compute. lia.
    + reflexivity.
Defined.

(** The error is not issued by every build with more than
    [floor(0.05 * N)] labels missing. Of twenty wav files the first two
    have no label: at the first file the count is 1 of 20, which is not
    above the ratio, and the record of that file needs the label path,
    which is not bound yet. The build ends there with an
    [UnboundLocalError], the error of too many missing labels not
    issued, whether the error-level logger raises or not. *)
Lemma threshold_not_reached (raises : bool) :
  let r := @timit_prepare.create_scp
             (example_collaborators raises (labels_from 2 18))
             (timit_self ["train"] (Some "/ali")) (timit_wavs 20)
             "/out/train.scp" (Some "/ali") None (timit_world 20) in
  misses (labels_from 2 18) (timit_wavs 20) = 2 ∧
  outcome r = inl (UnboundLocalError "snt_lab_path") ∧
  ¬ @threshold_error (example_collaborators raises (labels_from 2 18))
      (timit_self ["train"] (Some "/ali")) (trace r).
Proof.
  destruct raises.
  - split; [vm_compute; reflexivity |].
    split; [vm_compute; reflexivity |].
    unfold threshold_error. intros H.
    apply (bool_decide_eq_true_2 _) in H. vm_compute in H. discriminate.
  - split; [vm_compute; reflexivity |].
    split; [vm_compute; reflexivity |].
    unfold threshold_error. intros H.
    apply (bool_decide_eq_true_2 _) in H. vm_compute in H. discriminate.
Qed.

(** C3 as stated fails: with two wav files and the label of the second
    missing, one label is missing, which is [ceil(0.05 * 2)]; the build
    issues the error of too many missing labels, whether the error-level
    logger raises or not. *)
Lemma boundary_not_at_ceil :
  ¬ @boundary_at_ceil (example_collaborators true (labels_for 1)) ∧
  ¬ @boundary_at_ceil (example_collaborators false (labels_for 1)).
Proof.
  split; intros H;
    destruct (H (timit_self ["train"] (Some "/ali")) (timit_wavs 2)
                "/out/train.scp" "/ali" None (timit_world 2) (labels_for 1)
                (example_labels_are _ _ _)) as [H1 _];
    destruct H1 as (_ & Hno & _); [vm_compute; reflexivity | | vm_compute; reflexivity |];
    apply Hno; unfold threshold_error;
    apply event_in_trace; vm_compute; reflexivity.
Qed.

(** ** The text fields of a manifest line *)

Section text_fields.
Context `{collab : !Collaborators}.
Import PyStr.




(** After [replace("h#", "sil")] no [h#] is left. *)
Lemma replace_go_cons (old new : string) (c : ascii) (s : string) :
  replace_go old new (String c s) 0 =
  if startswith old (String c s)
  then new +:+ replace_go old new s (String.length old - 1)
  else String c (replace_go old new s 0).
Proof. reflexivity. Qed.

Lemma startswith_cons (a b : ascii) (p s : string) :
  startswith (String a p) (String b s) = Ascii.eqb a b && startswith p s.
Proof. reflexivity. Qed.









End text_fields.

Section manifest_lines.
Context `{collab : !Collaborators}.
Import PyStr.

Lemma manifests_written_app (t1 t2 : list event) :
  manifests_written (t1 ++ t2) = manifests_written t1 ++ manifests_written t2.
Proof. apply omap_app. Qed.







End manifest_lines.



(** ** Where the cache works: a second run that skips *)

Section growth.
Context `{collab : !Collaborators}.

Lemma fs_le_refl fs : fs_le fs fs.
Proof. by intros p. Qed.

Lemma fs_le_trans fs1 fs2 fs3 : fs_le fs1 fs2 → fs_le fs2 fs3 → fs_le fs1 fs3.
Proof.
  intros H12 H23 p. destruct (H12 p), (H23 p). split; auto.
Qed.

Lemma isfile_in_insert fs (p : string) (n : node) :
  is_dir n = false → isfile_in (<[p := n]> fs) p = true.
Proof. intros Hn. unfold isfile_in. by rewrite lookup_insert_eq, Hn. Qed.

Lemma fs_le_insert_file fs (p : string) (n : node) :
  is_dir n = false → fs_le fs (<[p := n]> fs).
Proof.
  intros Hn q. unfold isfile_in. destruct (decide (p = q)) as [-> | Hne].
  - rewrite lookup_insert_eq, Hn. by eauto.
  - by rewrite lookup_insert_ne.
Qed.

Lemma fs_le_insert_new fs (p : string) (n : node) :
  fs !! p = None → fs_le fs (<[p := n]> fs).
Proof.
  intros Hp q. unfold isfile_in. destruct (decide (p = q)) as [-> | Hne].
  - rewrite Hp. split; [by intros [? ?] | done].
  - by rewrite lookup_insert_ne.
Qed.

Lemma grows_read_only {A} (m : M A) : read_only m → grows m.
Proof. intros H fs. destruct (H fs) as [-> _]. apply fs_le_refl. Qed.

Lemma grows_bind {A B} (m : M A) (k : A → M B) :
  grows m → (∀ a, grows (k a)) → grows (bind m k).
Proof.
  intros Hm Hk fs. rewrite final_bind.
  destruct (outcome (m fs)) as [e|a]; [apply Hm |].
  eapply fs_le_trans; [apply Hm | apply Hk].
Qed.

Lemma grows_when (b : bool) (m : M unit) : grows m → grows (when b m).
Proof. destruct b; [done |]. intros _ fs. apply fs_le_refl. Qed.

Lemma grows_logger_write (msg : string) (lvl : level) :
  grows (logger_write msg lvl).
Proof. intros fs. apply fs_le_refl. Qed.

Lemma grows_save_pkl (v : pyval) (p : string) : grows (save_pkl v p).
Proof. intros fs. by apply fs_le_insert_file. Qed.

Lemma grows_write_txt_file (ls : list string) (p : string) :
  grows (write_txt_file ls p).
Proof. intros fs. by apply fs_le_insert_file. Qed.

Lemma grows_os_makedirs (p : string) : grows (os_makedirs p).
Proof.
  intros fs. unfold os_makedirs.
  destruct (String.eqb p ""); [apply fs_le_refl |].
  destruct (fs !! p) eqn:Ep; [apply fs_le_refl |].
  destruct (below_file _ _ _); simpl; [apply fs_le_refl |].
  induction (ancestors _ _) as [|d l IH]; simpl.
  - by apply fs_le_insert_new.
  - eapply fs_le_trans; [exact IH |]. unfold mkdir_missing.
    destruct (_ !! d) eqn:Ed; [apply fs_le_refl |].
    by apply fs_le_insert_new.
Qed.

Lemma grows_for_each {S A} (body : S → A → M S) (l : list A) (s : S) :
  (∀ s x, grows (body s x)) → grows (for_each body l s).
Proof.
  intros Hb. revert s. induction l as [|x l IH]; intros s; simpl.
  - intros fs. apply fs_le_refl.
  - apply grows_bind; auto.
Qed.

Lemma files_ok_seq (m : M unit) (k : unit → M unit) (ps1 ps2 : list string) :
  (∀ fs, wp m fs (λ r fs' _, files_ok fs ps1 r fs')) →
  (∀ a fs, wp (k a) fs (λ r fs' _, files_ok fs ps2 r fs')) →
  ∀ fs, wp (bind m k) fs (λ r fs' _, files_ok fs (ps1 ++ ps2) r fs').
Proof.
  intros Hm Hk fs. apply wp_bind. specialize (Hm fs). unfold wp in *.
  destruct Hm as [Hle Hf]. destruct (outcome (m fs)) as [e|[]].
  - split; [done | discriminate].
  - destruct (Hk () (final (m fs))) as [Hle' Hf']. split.
    + by eapply fs_le_trans.
    + intros Hr p [Hp | Hp]%elem_of_app; [| by apply Hf'].
      apply Hle'. by apply Hf.
Qed.

Lemma files_ok_grows (m : M unit) fs :
  grows m → wp m fs (λ r fs' _, files_ok fs [] r fs').
Proof.
  intros H. split; [apply H |]. intros _ p Hp. by apply elem_of_nil in Hp.
Qed.

End growth.

Ltac grows_auto :=
  repeat first
    [ apply grows_read_only; solve [read_only_auto]
    | apply grows_bind; [| intros ?]
    | apply grows_when
    | apply grows_logger_write
    | apply grows_save_pkl
    | apply grows_write_txt_file
    | apply grows_os_makedirs
    | match goal with
      | |- grows (match ?x with _ => _ end) => destruct x eqn:?
      end ].

Section libri_cache.
Context `{collab : !Collaborators}.
Import PyStr librispeech_prepare.

Lemma libri_create_scp_files (s : self) (wav_lst : list string)
    (text_dict : gmap string string) (split : string) (n : nat) fs :
  wp (create_scp s wav_lst text_dict split n) fs
    (λ r fs' _, files_ok fs [scp_path s split] r fs').
Proof.
  unfold create_scp. apply wp_bind. unfold wp at 1. simpl.
  apply wp_bind. apply wp_read_only; [apply read_only_process_all |].
  intros [e|st]; [split; [apply fs_le_refl | discriminate] |].
  apply wp_bind. unfold wp. simpl. split.
  - by apply fs_le_insert_file.
  - intros _ p ->%list_elem_of_singleton. by apply isfile_in_insert.
Qed.

Lemma libri_prepare_split_files (s : self) (i : nat) fs :
  wp (prepare_split s () i) fs
    (λ r fs' _, files_ok fs (split_manifest s i) r fs').
Proof.
  unfold prepare_split, split_manifest.
  apply wp_bind, wp_or_raise.
  destruct (splits (opts s) !! i) as [sp|];
    [| split; [apply fs_le_refl | discriminate]].
  apply wp_bind, wp_read_only; [apply read_only_get_all_files |].
  intros [e|wav_lst]; [split; [apply fs_le_refl | discriminate] |].
  apply wp_bind, wp_read_only; [apply read_only_get_all_files |].
  intros [e|text_lst]; [split; [apply fs_le_refl | discriminate] |].
  apply wp_bind, wp_read_only; [apply read_only_text_to_dict |].
  intros [e|text_dict]; [split; [apply fs_le_refl | discriminate] |].
  apply wp_bind, wp_read_only.
  { destruct (select_n_sentences (opts s)); read_only_auto. }
  intros [e|n]; [split; [apply fs_le_refl | discriminate] |].
  apply libri_create_scp_files.
Qed.

Lemma libri_prepare_splits_files (s : self) (l : list nat) fs :
  wp (for_each (prepare_split s) l ()) fs
    (λ r fs' _, files_ok fs (flat_map (split_manifest s) l) r fs').
Proof.
  revert fs. induction l as [|i l IH]; intros fs; simpl.
  - split; [apply fs_le_refl |]. intros _ p Hp. by apply elem_of_nil in Hp.
  - apply files_ok_seq; [intros; apply libri_prepare_split_files |].
    intros []. apply IH.
Qed.

Lemma grows_check_librispeech_folders (s : self) :
  grows (check_librispeech_folders s).
Proof.
  unfold check_librispeech_folders. apply grows_for_each.
  intros [] split. grows_auto.
Qed.

(** A build that ends well leaves the manifests of the splits and the
    fingerprint of the configuration. *)
Lemma libri_build_cached (s : self) fs :
  outcome (build s fs) = inr () →
  fs_le fs (final (build s fs)) ∧
  (∀ m, m ∈ libri_manifests s → isfile_in (final (build s fs)) m = true) ∧
  final (build s fs) !! save_opt s = Some (Pickle (PyConf (conf (opts s)))).
Proof.
  intros Hok.
  assert (wp (build s) fs (λ r fs' _,
            fs_le fs fs' ∧
            (r = inr () →
             (∀ m, m ∈ flat_map (split_manifest s)
                          (seq 0 (length (splits (opts s)))) →
                   isfile_in fs' m = true) ∧
             fs' !! save_opt s = Some (Pickle (PyConf (conf (opts s)))))))
    as H.
  { unfold build. apply wp_bind.
    pose proof (grows_check_librispeech_folders s fs) as Hc.
    unfold wp at 1.
    destruct (outcome (check_librispeech_folders s fs)) as [e|[]];
      [split; [done | discriminate] |].
    apply wp_bind.
    pose proof (libri_prepare_splits_files s
                  (seq 0 (length (splits (opts s))))
                  (final (check_librispeech_folders s fs))) as Hl.
    unfold wp in Hl. unfold wp at 1. destruct Hl as [Hle Hf].
    destruct (outcome (for_each (prepare_split s) _ () _)) as [e|[]];
      [split; [by eapply fs_le_trans | discriminate] |].
    unfold wp. simpl.
    assert (fs_le (final (for_each (prepare_split s)
                            (seq 0 (length (splits (opts s)))) ()
                            (final (check_librispeech_folders s fs))))
              (<[save_opt s := Pickle (PyConf (conf (opts s)))]>
                 (final (for_each (prepare_split s)
                           (seq 0 (length (splits (opts s)))) ()
                           (final (check_librispeech_folders s fs))))))
      as Hle' by (by apply fs_le_insert_file).
    split.
    - eapply fs_le_trans; [exact Hc |]. by eapply fs_le_trans.
    - intros _. split; [| by rewrite lookup_insert_eq].
      intros m Hm. apply Hle'. by apply Hf. }
  unfold wp in H. destruct H as [Hle H]. destruct (H Hok) as [Hf Hfp].
  split; [done |]. split; [| done].
  intros m Hm. by apply Hf, libri_manifests_covered.
Qed.

Lemma libri_skip_after_build (s : self) fs :
  outcome (build s fs) = inr () →
  outcome (skip s (final (build s fs))) = inr true.
Proof.
  intros Hok. destruct (libri_build_cached s fs Hok) as (_ & Hf & Hfp).
  rewrite libri_skip_outcome.
  assert (forallb (λ split, isfile_in (final (build s fs)) (scp_path s split))
            (splits (opts s)) = true) as ->.
  { apply forallb_forall. intros split Hin. apply Hf.
    unfold libri_manifests. apply list_elem_of_fmap. exists split.
    split; [done |]. by apply list_elem_of_In. }
  unfold isfile_in, load_pkl. rewrite Hfp. simpl.
  by rewrite bool_decide_eq_true_2.
Qed.

Lemma set_save_folder_inr (o : options) (funct_name : option string)
    (gc : option (gmap string string)) fs (s : self) :
  outcome (set_save_folder o funct_name gc fs) = inr s →
  fs_le fs (final (set_save_folder o funct_name gc fs)) ∧
  is_Some (final (set_save_folder o funct_name gc fs) !! save_folder s) ∧
  ∀ fs', is_Some (fs' !! save_folder s) →
         set_save_folder o funct_name gc fs' = mkRes (inr s) fs' [].
Proof.
  intros H.
  assert (∃ folder, ∀ fs',
            set_save_folder o funct_name gc fs' =
            (let* _ := when (negb (bool_decide (is_Some (fs' !! folder))))
                         (os_makedirs folder) in
             ret {| opts := o; save_folder := folder |}) fs')
    as [folder Hset].
  { unfold set_save_folder in *.
    apply bind_inr in H as (folder & Hfolder & _). exists folder.
    intros fs'. rewrite (bind_pure _ _ fs' folder).
    - by rewrite (bind_pure _ _ fs' (bool_decide (is_Some (fs' !! folder)))).
    - destruct (save_folder_opt o) as [f|].
      + simpl in Hfolder. by injection Hfolder as <-.
      + apply bind_inr in Hfolder as (out & Hout & Hfolder).
        apply bind_inr in Hfolder as (name & Hname & Hfolder).
        simpl in Hfolder. injection Hfolder as <-.
        apply or_raise_inr in Hname as ->.
        destruct gc as [g|]; [| done]. simpl in Hout.
        apply or_raise_inr in Hout. unfold bind. simpl. by rewrite Hout. }
  rewrite Hset in H. rewrite (Hset fs).
  apply bind_inr in H as ([] & Hmk & H). simpl in H. injection H as <-.
  rewrite final_bind, Hmk. simpl.
  split; [| split].
  - destruct (bool_decide (is_Some (fs !! folder))); simpl;
      [apply fs_le_refl | apply grows_os_makedirs].
  - destruct (bool_decide (is_Some (fs !! folder))) eqn:E; simpl.
    + by apply bool_decide_eq_true in E.
    + simpl in Hmk. unfold os_makedirs in *.
      destruct (String.eqb folder ""); [done |].
      destruct (fs !! folder); [done |].
      destruct (below_file _ _ _); [done |]. simpl.
      apply foldr_mkdir_missing_keeps. rewrite lookup_insert_eq. eauto.
  - intros fs' Hex. rewrite Hset. unfold bind. simpl.
    by rewrite bool_decide_eq_true_2.
Qed.

Lemma libri_logs (s : self) (l : list string) fs :
  for_each
    (λ _ split, logger_write (tab +:+ scp_path s split +:+ " created!") Debug)
    l () fs =
  mkRes (inr ()) fs
    ((λ split, EvLog Debug (tab +:+ scp_path s split +:+ " created!")) <$> l).
Proof.
  induction l as [|split l IH]; [done |].
  change (for_each ?f (split :: l) () fs)
    with (bind (f () split) (for_each f l) fs).
  unfold bind. simpl in *. by rewrite IH.
Qed.

Lemma filter_fs_work_logs (f : string → string) (l : list string) :
  List.filter is_fs_work ((λ x, EvLog Debug (f x)) <$> l) = [].
Proof. induction l as [|x l IH]; [done |]. simpl. exact IH. Qed.

(** X20. LibriSpeech: after a run that ends well, a second run with the
    same configuration ends well too, leaves the filesystem as it is and
    does no work on it. *)
Lemma libri_second_run_skips (o : options) (funct_name : option string)
    (gc : option (gmap string string)) fs :
  outcome (init o funct_name gc fs) = inr () →
  let second := init o funct_name gc (final (init o funct_name gc fs)) in
  outcome second = inr () ∧
  final second = final (init o funct_name gc fs) ∧
  List.filter is_fs_work (trace second) = [].
Proof.
  intros Hok. unfold init in Hok.
  apply bind_inr in Hok as (s & Hs & Hok).
  destruct (set_save_folder_inr _ _ _ _ _ Hs) as (Hle1 & Hex1 & Hagain).
  set (fs1 := final (set_save_folder o funct_name gc fs)) in *.
  apply bind_inr in Hok as (done & Hskip & Hok).
  assert (read_only (skip s)) as Hro by (unfold skip; read_only_auto).
  rewrite (final_read_only _ _ Hro) in Hok.
  set (fs' := final (init o funct_name gc fs)).
  assert (fs_le fs1 fs' ∧ outcome (skip s fs') = inr true) as [Hle Hskip'].
  { subst fs'. unfold init. rewrite final_bind, Hs. fold fs1.
    rewrite final_bind, Hskip, (final_read_only _ _ Hro).
    destruct done.
    - rewrite libri_logs. simpl. split; [apply fs_le_refl | done].
    - split; [by apply libri_build_cached | by apply libri_skip_after_build]. }
  assert (is_Some (fs' !! save_folder s)) as Hex by (by apply Hle).
  assert (skip s fs' = mkRes (inr true) fs' []) as Hskip''.
  { rewrite <- (res_eta (skip s fs')), Hskip'.
    by destruct (Hro fs') as [-> ->]. }
  assert (init o funct_name gc fs' =
          mkRes (inr ()) fs'
            ((λ split, EvLog Debug (tab +:+ scp_path s split +:+ " created!"))
               <$> splits (opts s))) as ->.
  { unfold init. rewrite (bind_pure _ _ fs' s (Hagain _ Hex)).
    rewrite (bind_pure _ _ fs' true Hskip''). apply libri_logs. }
  simpl. split; [done |]. split; [done |]. apply filter_fs_work_logs.
Qed.

End libri_cache.

Section timit_cache.
Context `{collab : !Collaborators}.
Import PyStr timit_prepare.

Lemma grows_process_all (s : self) (wav_lst : list string) labs :
  grows (process_all s wav_lst labs).
Proof.
  apply grows_for_each. intros st wav_file.
  unfold process_wav, check_label, append_line. grows_auto.
Qed.

Lemma grows_load_labels (s : self) (kaldi_lab lopts : option string) :
  grows (load_labels s kaldi_lab lopts).
Proof. unfold load_labels. grows_auto. Qed.

Lemma timit_create_scp_files (s : self) (wav_lst : list string)
    (scp_file : string) (kaldi_lab lopts : option string) fs :
  wp (create_scp s wav_lst scp_file kaldi_lab lopts) fs
    (λ r fs' _, files_ok fs [scp_file] r fs').
Proof.
  unfold create_scp. apply wp_bind. unfold wp at 1. simpl.
  apply wp_bind. unfold wp at 1.
  pose proof (grows_load_labels s kaldi_lab lopts fs) as Hload.
  destruct (outcome (load_labels s kaldi_lab lopts fs)) as [e|labs];
    [split; [done | discriminate] |].
  apply wp_bind. unfold wp at 1.
  pose proof (grows_process_all s wav_lst labs
                (final (load_labels s kaldi_lab lopts fs))) as Hloop.
  destruct (outcome (process_all s wav_lst labs _)) as [e|st];
    [split; [by eapply fs_le_trans | discriminate] |].
  apply wp_bind. unfold wp. simpl. split.
  - eapply fs_le_trans; [exact Hload |].
    eapply fs_le_trans; [exact Hloop |]. by apply fs_le_insert_file.
  - intros _ p ->%list_elem_of_singleton. by apply isfile_in_insert.
Qed.

Lemma timit_split_train_files (s : self) fs :
  "train" ∈ splits (opts s) →
  wp (split_train s) fs (λ r fs' _, files_ok fs [save_scp_train s] r fs').
Proof.
  intros Hin. unfold split_train. rewrite bool_decide_eq_true_2 by done.
  simpl. apply wp_bind, wp_read_only; [apply read_only_get_all_files |].
  intros [e|l]; [split; [apply fs_le_refl | discriminate] |].
  apply timit_create_scp_files.
Qed.

Lemma timit_split_dev_files (s : self) fs :
  "dev" ∈ splits (opts s) →
  wp (split_dev s) fs (λ r fs' _, files_ok fs [save_scp_dev s] r fs').
Proof.
  intros Hin. unfold split_dev. rewrite bool_decide_eq_true_2 by done.
  simpl. apply wp_bind, wp_read_only; [apply read_only_get_all_files |].
  intros [e|l]; [split; [apply fs_le_refl | discriminate] |].
  apply timit_create_scp_files.
Qed.

Lemma timit_split_test_files (s : self) fs :
  "test" ∈ splits (opts s) →
  wp (split_test s) fs (λ r fs' _, files_ok fs [save_scp_test s] r fs').
Proof.
  intros Hin. unfold split_test. rewrite bool_decide_eq_true_2 by done.
  simpl. apply wp_bind, wp_read_only; [apply read_only_get_all_files |].
  intros [e|l]; [split; [apply fs_le_refl | discriminate] |].
  apply timit_create_scp_files.
Qed.

Lemma grows_check_timit_folders (s : self) : grows (check_timit_folders s).
Proof. unfold check_timit_folders. grows_auto. Qed.

(** A run that ends with a step storing [v] at [p] ends, when it ends
    well, with [v] at [p]. *)
Lemma stored_bind {A} (m : M A) (k : A → M unit) (p : string) (v : node) fs :
  (∀ a fs', outcome (k a fs') = inr () → final (k a fs') !! p = Some v) →
  outcome (bind m k fs) = inr () → final (bind m k fs) !! p = Some v.
Proof.
  intros Hk. rewrite outcome_bind, final_bind.
  destruct (outcome (m fs)) as [e|a]; [done |]. apply Hk.
Qed.

Lemma timit_build_files (s : self) fs :
  "train" ∈ splits (opts s) → "dev" ∈ splits (opts s) →
  "test" ∈ splits (opts s) →
  wp (build s) fs
    (λ r fs' _,
       files_ok fs
         ([] ++ [] ++ [save_scp_train s] ++ [save_scp_dev s] ++
          [save_scp_test s] ++ []) r fs').
Proof.
  intros Htr Hdev Hte. revert fs. unfold build.
  apply files_ok_seq;
    [intros; apply files_ok_grows, grows_check_timit_folders |].
  intros _.
  apply files_ok_seq; [intros; apply files_ok_grows, grows_logger_write |].
  intros _.
  apply files_ok_seq; [intros; by apply timit_split_train_files |].
  intros _.
  apply files_ok_seq; [intros; by apply timit_split_dev_files |].
  intros _.
  apply files_ok_seq; [intros; by apply timit_split_test_files |].
  intros _ fs. apply files_ok_grows, grows_save_pkl.
Qed.

Lemma timit_build_fingerprint (s : self) fs :
  outcome (build s fs) = inr () →
  final (build s fs) !! save_opt s = Some (Pickle (PyConf (conf (opts s)))).
Proof.
  unfold build. do 5 (apply stored_bind; intros ? ?).
  intros _. simpl. by rewrite lookup_insert_eq.
Qed.

(** With the three splits requested, a build that ends well leaves the
    three manifests and the fingerprint, and [skip] says yes. *)
Lemma timit_skip_after_build (s : self) fs :
  "train" ∈ splits (opts s) → "dev" ∈ splits (opts s) →
  "test" ∈ splits (opts s) →
  outcome (build s fs) = inr () →
  fs_le fs (final (build s fs)) ∧
  outcome (skip s (final (build s fs))) = inr true.
Proof.
  intros Htr Hdev Hte Hok.
  destruct (timit_build_files s fs Htr Hdev Hte) as [Hle Hf].
  split; [done |]. rewrite timit_skip_outcome.
  rewrite !(Hf Hok) by (simpl; set_solver).
  unfold isfile_in at 1, load_pkl.
  rewrite (timit_build_fingerprint s fs Hok). simpl.
  by rewrite bool_decide_eq_true_2.
Qed.

Lemma timit_set_save_folder_inr (o : options) (funct_name : option string)
    (gc : option (gmap string string)) fs (s : self) :
  outcome (set_save_folder o funct_name gc fs) = inr s →
  opts s = o ∧
  fs_le fs (final (set_save_folder o funct_name gc fs)) ∧
  is_Some (final (set_save_folder o funct_name gc fs) !! save_folder s) ∧
  ∀ fs', is_Some (fs' !! save_folder s) →
         set_save_folder o funct_name gc fs' = mkRes (inr s) fs' [].
Proof.
  intros H.
  assert (∃ folder, ∀ fs',
            set_save_folder o funct_name gc fs' =
            (let* _ := when (negb (bool_decide (is_Some (fs' !! folder))))
                         (os_makedirs folder) in
             ret {| opts := o; save_folder := folder;
                    global_config := gc |}) fs')
    as [folder Hset].
  { unfold set_save_folder in *.
    apply bind_inr in H as (folder & Hfolder & _). exists folder.
    intros fs'. rewrite (bind_pure _ _ fs' folder).
    - by rewrite (bind_pure _ _ fs' (bool_decide (is_Some (fs' !! folder)))).
    - destruct (save_folder_opt o) as [f|].
      + simpl in Hfolder. by injection Hfolder as <-.
      + apply bind_inr in Hfolder as (out & Hout & Hfolder).
        apply bind_inr in Hfolder as (name & Hname & Hfolder).
        simpl in Hfolder. injection Hfolder as <-.
        apply or_raise_inr in Hname as ->.
        destruct gc as [g|]; [| done]. simpl in Hout.
        apply or_raise_inr in Hout. unfold bind. simpl. by rewrite Hout. }
  rewrite Hset in H. rewrite (Hset fs).
  apply bind_inr in H as ([] & Hmk & H). simpl in H. injection H as <-.
  rewrite final_bind, Hmk. simpl.
  split; [done |]. split; [| split].
  - destruct (bool_decide (is_Some (fs !! folder))); simpl;
      [apply fs_le_refl | apply grows_os_makedirs].
  - destruct (bool_decide (is_Some (fs !! folder))) eqn:E; simpl.
    + by apply bool_decide_eq_true in E.
    + simpl in Hmk. unfold os_makedirs in *.
      destruct (String.eqb folder ""); [done |].
      destruct (fs !! folder); [done |].
      destruct (below_file _ _ _); [done |]. simpl.
      apply foldr_mkdir_missing_keeps. rewrite lookup_insert_eq. eauto.
  - intros fs' Hex. rewrite Hset. unfold bind. simpl.
    by rewrite bool_decide_eq_true_2.
Qed.

(** X21. TIMIT with the three splits requested: after a run that ends
    well, a second run with the same configuration ends well too, leaves
    the filesystem as it is and does no work on it. *)
Lemma timit_second_run_skips (o : options) (funct_name : option string)
    (gc : option (gmap string string)) fs :
  "train" ∈ splits o → "dev" ∈ splits o → "test" ∈ splits o →
  outcome (init o funct_name gc fs) = inr () →
  let second := init o funct_name gc (final (init o funct_name gc fs)) in
  outcome second = inr () ∧
  final second = final (init o funct_name gc fs) ∧
  List.filter is_fs_work (trace second) = [].
Proof.
  intros Htr Hdev Hte Hok. unfold init in Hok.
  apply bind_inr in Hok as (s & Hs & Hok).
  destruct (timit_set_save_folder_inr _ _ _ _ _ Hs)
    as (Ho & Hle1 & Hex1 & Hagain).
  rewrite <- Ho in Htr, Hdev, Hte.
  set (fs1 := final (set_save_folder o funct_name gc fs)) in *.
  apply bind_inr in Hok as (done & Hskip & Hok).
  assert (read_only (skip s)) as Hro by (unfold skip; read_only_auto).
  rewrite (final_read_only _ _ Hro) in Hok.
  set (fs' := final (init o funct_name gc fs)).
  assert (fs_le fs1 fs' ∧ outcome (skip s fs') = inr true) as [Hle Hskip'].
  { subst fs'. unfold init. rewrite final_bind, Hs. fold fs1.
    rewrite final_bind, Hskip, (final_read_only _ _ Hro).
    destruct done.
    - simpl. split; [apply fs_le_refl | done].
    - by apply timit_skip_after_build. }
  assert (is_Some (fs' !! save_folder s)) as Hex by (by apply Hle).
  assert (skip s fs' = mkRes (inr true) fs' []) as Hskip''.
  { rewrite <- (res_eta (skip s fs')), Hskip'.
    by destruct (Hro fs') as [-> ->]. }
  unfold init. rewrite (bind_pure _ _ fs' s (Hagain _ Hex)).
  rewrite (bind_pure _ _ fs' true Hskip''). done.
Qed.

End timit_cache.

(* ===================================================================== *)
(** * Further properties of the code *)
(* ===================================================================== *)

(** ** Paths and identifiers *)

Section paths.
Import PyStr.

Lemma join_split (c : ascii) (s : string) :
  join (String c "") (split c s) = s.
Proof.
  unfold join. induction s as [|x s IH]; [done |]. simpl.
  pose proof (split_not_nil c s) as Hne.
  destruct (Ascii.eqb x c) eqn:E.
  - apply Ascii.eqb_eq in E as ->.
    destruct (split c s) as [|w ws]; [done |]. simpl in *. by rewrite IH.
  - destruct (split c s) as [|w ws]; [done |]. simpl in *.
    destruct ws; by rewrite <- IH.
Qed.

Lemma split_app_sep_last (c : ascii) (d name : string) :
  mem_char c name = false →
  split c (d +:+ String c name) = split c d ++ [name].
Proof. intros H. by rewrite split_sep_app, (split_no_occurrence _ _ H). Qed.

Lemma basename_app (d name : string) :
  mem_char slash name = false → basename (d +:+ "/" +:+ name) = name.
Proof.
  intros H. unfold basename. change ("/" +:+ name) with (String slash name).
  by rewrite (split_app_sep_last _ _ _ H), last_last.
Qed.

Lemma path_head_app (d name : string) :
  mem_char slash name = false → path_head (d +:+ "/" +:+ name) = d +:+ "/".
Proof.
  intros H. unfold path_head. change ("/" +:+ name) with (String slash name).
  rewrite (split_app_sep_last _ _ _ H), removelast_last.
  pose proof (join_split slash d) as Hj. pose proof (split_not_nil slash d).
  destruct (split slash d) as [|w ws]; [done |]. by rewrite <- Hj.
Qed.

Lemma path_head_no_slash (p : string) :
  mem_char slash p = false → path_head p = "".
Proof.
  intros H. unfold path_head. by rewrite (split_no_occurrence _ _ H).
Qed.

Lemma rstrip_app_char (p : ascii → bool) (s : string) (c : ascii) :
  p c = true → rstrip p (s +:+ String c "") = rstrip p s.
Proof.
  intros Hc. induction s as [|x s IH]; simpl; [by rewrite Hc |].
  by rewrite IH.
Qed.

Lemma rstrip_id (p : ascii → bool) (s : string) :
  (∀ c, last_char s = Some c → p c = false) → rstrip p s = s.
Proof.
  induction s as [|x s IH]; [done |]. intros H. simpl in *.
  destruct s as [|y s]; [by rewrite (H x eq_refl) |].
  by rewrite (IH H).
Qed.

Lemma dirname_app (d name : string) :
  d ≠ "" → last_char d ≠ Some slash → mem_char slash name = false →
  dirname (d +:+ "/" +:+ name) = d.
Proof.
  intros Hd Hlast Hname. unfold dirname.
  rewrite (path_head_app _ _ Hname).
  change (d +:+ "/") with (d +:+ String slash "").
  rewrite rstrip_app_char by apply Ascii.eqb_refl.
  rewrite rstrip_id; [by destruct d |].
  intros c Hc. apply Ascii.eqb_neq. intros <-. by apply Hlast.
Qed.

Lemma dirname_no_slash (p : string) :
  mem_char slash p = false → dirname p = "".
Proof. intros H. unfold dirname. by rewrite (path_head_no_slash _ H). Qed.

Lemma last_char_no_slash (s : string) :
  mem_char slash s = false → last_char s ≠ Some slash.
Proof.
  induction s as [|x s IH]; [done |]. simpl.
  intros [Hx Hs]%orb_false_iff. destruct s as [|y s]; [| by apply IH].
  intros [= ->]. by rewrite Ascii.eqb_refl in Hx.
Qed.

(** X1. The destination of an archive is the sibling of the local
    folder: for a local folder [parent/leaf] (with [parent] not empty and
    not ending in a slash) and an archive [dir/name], the folder above is
    [parent] and the destination is [parent/name]. *)
Theorem dest_file_sibling (o : copy_data_locally.options)
    (parent leaf dir name : string) :
  copy_data_locally.local_folder o = parent +:+ "/" +:+ leaf →
  parent ≠ "" → last_char parent ≠ Some slash →
  leaf ≠ "" → mem_char slash leaf = false →
  mem_char slash name = false →
  copy_data_locally.upper_folder o = parent ∧
  copy_data_locally.dest_file o (dir +:+ "/" +:+ name) =
    parent +:+ "/" +:+ name.
Proof.
  intros Hlf Hparent Hlast Hleaf Hsl Hname.
  assert (copy_data_locally.upper_folder o = parent) as Hup.
  { unfold copy_data_locally.upper_folder. rewrite Hlf.
    rewrite <- (app_nil_r "/") at 2. rewrite !app_assoc'.
    rewrite <- !app_assoc'. rewrite (app_assoc' _ "/" "").
    rewrite dirname_app; [| | | done].
    - rewrite app_assoc'. by apply dirname_app.
    - rewrite app_assoc'. by destruct parent.
    - rewrite app_assoc', last_char_app.
      + rewrite last_char_app by done. by apply last_char_no_slash.
      + by destruct leaf. }
  split; [done |].
  unfold copy_data_locally.dest_file. by rewrite Hup, basename_app.
Qed.

End paths.

Section paths2.
Import PyStr.

(** X2. A local folder given as one relative name, without a slash,
    has the empty string as the folder above it, so that every archive
    is staged in the root directory, at [/basename]; and for a local
    folder [/leaf] directly below the root the destination is written
    with two slashes. *)
Theorem dest_file_of_short_folder (o : copy_data_locally.options)
    (f : string) :
  (copy_data_locally.local_folder o ≠ "" →
   mem_char slash (copy_data_locally.local_folder o) = false →
   copy_data_locally.dest_file o f = "/" +:+ basename f) ∧
  (∀ leaf, copy_data_locally.local_folder o = "/" +:+ leaf →
           leaf ≠ "" → mem_char slash leaf = false →
           copy_data_locally.dest_file o f = "//" +:+ basename f).
Proof.
  unfold copy_data_locally.dest_file, copy_data_locally.upper_folder. split.
  - intros Hne Hsl.
    rewrite <- (app_nil_r "/"), dirname_app;
      [| done | by apply last_char_no_slash | done].
    by rewrite (dirname_no_slash _ Hsl).
  - intros leaf Hlf Hleaf Hsl. rewrite Hlf.
    rewrite <- (app_nil_r "/") at 2. rewrite dirname_app; [| done | | done].
    + unfold dirname.
      change (path_head ("/" +:+ leaf))
        with (path_head ("" +:+ "/" +:+ leaf)).
      by rewrite (path_head_app "" leaf Hsl).
    + rewrite (last_char_app "/" leaf Hleaf). by apply last_char_no_slash.
Qed.

(** X3. The decompression command is built like the copy command, with
    nothing between the options and the archive: on a command line of
    plain characters the last word of [uncompress_opts] and the
    destination path are one shell word, which is followed by [-C], the
    local folder with its final slash, and [--strip-components=1]. *)
Theorem uncompress_command_words (o : copy_data_locally.options)
    (dest : string) :
  plain (copy_data_locally.uncompress_cmd o) = true →
  plain (copy_data_locally.uncompress_opts o) = true →
  plain dest = true → plain (copy_data_locally.local_folder o) = true →
  dest ≠ "" → no_blank dest = true →
  no_blank (copy_data_locally.local_folder o) = true →
  shell_words (copy_data_locally.uncompress_command o dest) =
  Some (words (copy_data_locally.uncompress_cmd o) ++
        init_words (copy_data_locally.uncompress_opts o) ++
        [last_piece (copy_data_locally.uncompress_opts o) +:+ dest;
         "-C"; copy_data_locally.local_folder o +:+ "/";
         "--strip-components=1"]).
Proof.
  intros Hc Ho Hd Hl Hdest Hsp Hlf.
  unfold copy_data_locally.uncompress_command.
  rewrite shell_words_plain.
  2: { rewrite !plain_app, Hc, Ho, Hd, Hl. reflexivity. }
  f_equal. rewrite words_app_space. f_equal.
  rewrite <- app_assoc'.
  change (" -C " +:+ ?r) with (" " +:+ "-C" +:+ " " +:+ r).
  rewrite words_app_space, (words_fused _ _ Hdest Hsp).
  rewrite <- List.app_assoc. f_equal. simpl. f_equal.
  set (lf := copy_data_locally.local_folder o) in *.
  change (words
            ("-C" +:+ " " +:+
             ("" +:+ " " +:+
              ((lf +:+ "/") +:+ " " +:+ "--strip-components=1"))) =
          ["-C"; lf +:+ "/"; "--strip-components=1"]).
  rewrite !words_app_space, (words_no_blank (lf +:+ "/")).
  - reflexivity.
  - by destruct lf.
  - clear -Hlf. induction lf as [|x lf IH]; [done |]. simpl in *.
    apply andb_true_iff in Hlf as [-> H]. by rewrite IH.
Qed.

End paths2.

Lemma uncompress_command_words_witness :
  shell_words
    (copy_data_locally.uncompress_command opts_flag
       "/scratch/data/TIMIT.tar.gz") =
  Some ["tar"; "-zxf/scratch/data/TIMIT.tar.gz"; "-C";
        "/scratch/data/TIMIT/"; "--strip-components=1"].
Proof.
  rewrite (uncompress_command_words opts_flag "/scratch/data/TIMIT.tar.gz");
    [reflexivity | reflexivity | reflexivity | reflexivity | reflexivity
    | done | reflexivity | reflexivity].
Defined.

Lemma dest_file_sibling_witness :
  copy_data_locally.upper_folder opts_flag = "/scratch/data" ∧
  copy_data_locally.dest_file opts_flag "/nfs/TIMIT.tar.gz" =
    "/scratch/data/TIMIT.tar.gz".
Proof.
  apply (dest_file_sibling opts_flag "/scratch/data" "TIMIT" "/nfs"
           "TIMIT.tar.gz"); [reflexivity | done | done | done | | ];
    reflexivity.
Defined.

Lemma dest_file_of_short_folder_witness :
  copy_data_locally.dest_file
    {| copy_data_locally.data_file := ["/nfs/TIMIT.tar.gz"];
       copy_data_locally.local_folder := "TIMIT";
       copy_data_locally.copy_cmd := "rsync";
       copy_data_locally.copy_opts := "";
       copy_data_locally.uncompress_cmd := "tar";
       copy_data_locally.uncompress_opts := "-zxf" |}
    "/nfs/TIMIT.tar.gz" = "/TIMIT.tar.gz".
Proof.
  apply (proj1 (dest_file_of_short_folder
                  {| copy_data_locally.data_file := ["/nfs/TIMIT.tar.gz"];
                     copy_data_locally.local_folder := "TIMIT";
                     copy_data_locally.copy_cmd := "rsync";
                     copy_data_locally.copy_opts := "";
                     copy_data_locally.uncompress_cmd := "tar";
                     copy_data_locally.uncompress_opts := "-zxf" |}
                  "/nfs/TIMIT.tar.gz")); [done | reflexivity].
Defined.

Section identifiers.
Context `{collab : !Collaborators}.
Import PyStr.

Lemma startswith_refl (s : string) : startswith s s = true.
Proof. apply startswith_spec. exists "". by rewrite app_nil_r. Qed.

Lemma replace_go_skip_all (old new s : string) :
  replace_go old new s (String.length s) = "".
Proof. induction s as [|x s IH]; [done |]. simpl. exact IH. Qed.

(** Removing a suffix that starts with a character the name does not
    have. *)
Lemma replace_suffix (c : ascii) (p name : string) :
  mem_char c name = false →
  replace (String c p) "" (name +:+ String c p) = name.
Proof.
  intros H. unfold replace. induction name as [|x name IH].
  - change ("" +:+ String c p) with (String c p).
    change (replace_go (String c p) "" (String c p) 0)
      with (if startswith (String c p) (String c p)
            then "" +:+ replace_go (String c p) "" p
                          (String.length (String c p) - 1)
            else String c (replace_go (String c p) "" p 0)).
    rewrite startswith_refl. simpl. rewrite Nat.sub_0_r.
    apply replace_go_skip_all.
  - simpl in H. apply orb_false_iff in H as [Hx Hname].
    change (replace_go (String c p) "" (String x name +:+ String c p) 0)
      with (if Ascii.eqb c x && startswith p (name +:+ String c p)
            then "" +:+ replace_go (String c p) "" (name +:+ String c p)
                          (String.length (String c p) - 1)
            else String x
                   (replace_go (String c p) "" (name +:+ String c p) 0)).
    rewrite Ascii.eqb_sym, Hx. simpl. by rewrite (IH Hname).
Qed.

Lemma index_neg_app_2 {A} (l : list A) (a b : A) :
  index_neg (l ++ [a; b]) 2 = Some a ∧ index_neg (l ++ [a; b]) 1 = Some b.
Proof.
  unfold index_neg. rewrite length_app. simpl.
  destruct (decide (1 ≤ 2 ≤ length l + 2)) as [_|]; [| lia].
  destruct (decide (1 ≤ 1 ≤ length l + 2)) as [_|]; [| lia].
  split.
  - rewrite lookup_app_r by lia.
    by replace (length l + 2 - 2 - length l) with 0 by lia.
  - rewrite lookup_app_r by lia.
    by replace (length l + 2 - 1 - length l) with 1 by lia.
Qed.

(** X4. The identifiers of a TIMIT utterance come from the last two
    components of the path of its wav file: for [dir/spk/name.wav] the
    speaker is [spk] and the sentence is [spk_name]. A wav file given as
    a bare name, without a slash, has no speaker component: the loop
    body ends with an [IndexError] before it reads or writes anything. *)
Theorem timit_ids_of_path :
  (∀ dir spk name,
     mem_char slash spk = false → mem_char slash name = false →
     mem_char "."%char name = false →
     timit_prepare.ids_of (dir +:+ "/" +:+ spk +:+ "/" +:+ name +:+ ".wav") =
       Some (spk, spk +:+ "_" +:+ name)) ∧
  (∀ s n labs st wav_file fs,
     mem_char slash wav_file = false →
     timit_prepare.ids_of wav_file = None ∧
     timit_prepare.process_wav s n labs st wav_file fs =
       mkRes (inl IndexError) fs []).
Proof.
  split.
  - intros dir spk name Hspk Hname Hdot. unfold timit_prepare.ids_of.
    change ("/" +:+ spk +:+ "/" +:+ name +:+ ".wav")
      with (String slash (spk +:+ String slash (name +:+ ".wav"))).
    rewrite split_sep_app, split_app_sep_last, (split_no_occurrence _ _ Hspk)
      by (by rewrite mem_char_app, Hname).
    change ([spk] ++ [name +:+ ".wav"]) with [spk; name +:+ ".wav"].
    destruct (index_neg_app_2 (split slash dir) spk (name +:+ ".wav"))
      as [-> ->].
    change (Some (spk, spk +:+ "_" +:+ replace ".wav" "" (name +:+ ".wav")) =
            Some (spk, spk +:+ "_" +:+ name)).
    by rewrite (replace_suffix "." "wav" name Hdot).
  - intros s n labs st wav_file fs Hsl.
    assert (timit_prepare.ids_of wav_file = None) as H.
    { unfold timit_prepare.ids_of.
      by rewrite (split_no_occurrence _ _ Hsl). }
    split; [done |]. unfold timit_prepare.process_wav, bind.
    by rewrite H.
Qed.

(** X5. The identifiers of a LibriSpeech utterance: for the file
    [dir/spk-chap-utt.flac] the sentence is [spk-chap-utt] and the
    speaker field is [spk-chap], the first two pieces between dashes,
    whatever follows them; a name with one dash or none is its own
    speaker field, the slice [0:2] raising no error. *)
Theorem librispeech_ids_of_path :
  (∀ dir name,
     mem_char slash name = false → mem_char "."%char name = false →
     librispeech_prepare.snt_id_of (dir +:+ "/" +:+ name +:+ ".flac") =
       name) ∧
  (∀ spk chap rest,
     mem_char dash spk = false → mem_char dash chap = false →
     librispeech_prepare.spk_id_of (spk +:+ "-" +:+ chap +:+ "-" +:+ rest) =
       spk +:+ "-" +:+ chap) ∧
  (∀ a b,
     mem_char dash a = false → mem_char dash b = false →
     librispeech_prepare.spk_id_of a = a ∧
     librispeech_prepare.spk_id_of (a +:+ "-" +:+ b) = a +:+ "-" +:+ b).
Proof.
  split; [| split].
  - intros dir name Hname Hdot. unfold librispeech_prepare.snt_id_of.
    change ("/" +:+ name +:+ ".flac") with (String slash (name +:+ ".flac")).
    rewrite split_app_sep_last by (by rewrite mem_char_app, Hname).
    rewrite last_last. apply (replace_suffix "." "flac" name Hdot).
  - intros spk chap rest Hspk Hchap. unfold librispeech_prepare.spk_id_of.
    change ("-" +:+ chap +:+ "-" +:+ rest)
      with (String dash (chap +:+ String dash rest)).
    rewrite (split_sep_app dash spk), (split_sep_app dash chap).
    by rewrite (split_no_occurrence _ _ Hspk), (split_no_occurrence _ _ Hchap).
  - intros a b Ha Hb. unfold librispeech_prepare.spk_id_of. split.
    + by rewrite (split_no_occurrence _ _ Ha).
    + change ("-" +:+ b) with (String dash b).
      by rewrite split_sep_app, (split_no_occurrence _ _ Ha),
        (split_no_occurrence _ _ Hb).
Qed.

End identifiers.

Lemma timit_ids_of_path_witness :
  timit_prepare.ids_of "/d/train/dr1/spk1/u00.wav" =
    Some ("spk1", "spk1_u00").
Proof.
  apply (proj1 (@timit_ids_of_path (example_collaborators false ∅))
           "/d/train/dr1" "spk1" "u00");
    reflexivity.
Defined.

Lemma librispeech_ids_of_path_witness :
  librispeech_prepare.spk_id_of "84-121123-0000" = "84-121123".
Proof.
  apply (proj1 (proj2 librispeech_ids_of_path) "84" "121123" "0000");
    reflexivity.
Defined.

(** ** Lines of the transcription and annotation files *)

Section lines.
Context `{collab : !Collaborators}.
Import PyStr.

Lemma no_whitespace_no_space (w : string) :
  no_whitespace w = true → mem_char space w = false.
Proof.
  induction w as [|x w IH]; [done |]. simpl.
  intros [Hx Hw]%andb_true_iff. rewrite (IH Hw), orb_false_r.
  apply Ascii.eqb_neq. intros ->. done.
Qed.

Lemma last_char_no_whitespace (w : string) (c : ascii) :
  no_whitespace w = true → last_char w = Some c → is_space c = false.
Proof.
  induction w as [|x w IH]; [done |]. simpl.
  intros [Hx Hw]%andb_true_iff. destruct w as [|y w].
  - intros [= <-]. by apply negb_true_iff.
  - by apply IH.
Qed.

Lemma join_cons_cons (sep a b : string) (l : list string) :
  join sep (a :: b :: l) = a +:+ sep +:+ join sep (b :: l).
Proof. done. Qed.

Lemma join_nonempty (sep w : string) (l : list string) :
  w ≠ "" → join sep (w :: l) ≠ "".
Proof.
  intros Hw. destruct l as [|b l]; [done |]. rewrite join_cons_cons.
  by destruct w.
Qed.

Lemma split_join (c : ascii) (w : string) (l : list string) :
  Forall (λ w, mem_char c w = false) (w :: l) →
  split c (join (String c "") (w :: l)) = w :: l.
Proof.
  revert w. induction l as [|b l IH]; intros w H.
  - inversion H; subst. by apply split_no_occurrence.
  - inversion H as [|? ? Hw Hl]; subst. rewrite join_cons_cons.
    change (String c "" +:+ join (String c "") (b :: l))
      with (String c (join (String c "") (b :: l))).
    by rewrite split_sep_app, (split_no_occurrence _ _ Hw), (IH _ Hl).
Qed.

Lemma last_char_join (w : string) (l : list string) (c : ascii) :
  Forall token (w :: l) →
  last_char (join " " (w :: l)) = Some c → is_space c = false.
Proof.
  revert w. induction l as [|b l IH]; intros w H.
  - inversion H as [|? ? [_ Hw] _]; subst.
    by apply last_char_no_whitespace.
  - inversion H as [|? ? _ Hl]; subst. rewrite join_cons_cons.
    inversion Hl as [|? ? [Hb _] _]; subst.
    rewrite last_char_app by done.
    rewrite (last_char_app " ") by (by apply join_nonempty).
    by apply IH.
Qed.

Lemma lstrip_id (p : ascii → bool) (x : ascii) (s : string) :
  p x = false → lstrip p (String x s) = String x s.
Proof. intros H. simpl. by rewrite H. Qed.

(** A line of tokens separated by single spaces is stripped to itself
    without the line terminator. *)
Lemma strip_transcript_line (e : string * list string) :
  Forall token (e.1 :: e.2) →
  strip (transcript_line e) = join " " (e.1 :: e.2).
Proof.
  intros H. unfold strip, transcript_line.
  pose proof (λ c, last_char_join (e.1) (e.2) c H) as Hlast.
  assert (∃ x b, join " " (e.1 :: e.2) = String x b ∧ is_space x = false)
    as (x & b & Hj & Hx).
  { inversion H as [|? ? [Hne Hw] _]; subst.
    destruct (e.1) as [|x w] eqn:E; [done |].
    simpl in Hw. apply andb_true_iff in Hw as [Hx _].
    apply negb_true_iff in Hx.
    destruct (e.2) as [|b l]; [by exists x, w |].
    rewrite join_cons_cons. simpl. eauto. }
  rewrite Hj in *. change (String x b +:+ nl) with (String x (b +:+ nl)).
  rewrite (lstrip_id _ _ _ Hx).
  change (String x (b +:+ nl)) with (String x b +:+ String newline "").
  rewrite rstrip_app_char by done.
  by apply rstrip_id.
Qed.

(** X6. Reading a transcription line: a line made of an identifier and
    words, all without whitespace (the characters of [str.isspace], the
    no-break space among them) and separated by single spaces, enters
    the dictionary as the identifier with the words joined by
    underscores (the empty transcript when there is no word), replacing
    an earlier entry of the same identifier; a file of such lines is
    read into the dictionary of its entries, the last of two entries
    with one identifier winning. A blank line enters the dictionary too,
    as the empty identifier with the empty transcript. *)
Theorem transcript_lines_read (file : string)
    (entries : list (string * list string)) fs :
  Forall (λ e, Forall token (e.1 :: e.2)) entries →
  fs !! file = Some (Text (transcript_line <$> entries)) →
  (∀ d e, e ∈ entries →
     librispeech_prepare.add_line d (transcript_line e) =
       <[e.1 := join "_" e.2]> d) ∧
  librispeech_prepare.text_to_dict [file] fs =
    mkRes (inr (foldl (λ d e, <[e.1 := join "_" e.2]> d) ∅ entries)) fs [] ∧
  (∀ d, librispeech_prepare.add_line d nl = <["" := ""]> d).
Proof.
  intros Htok Hfile.
  assert (∀ d e, Forall token (e.1 :: e.2) →
            librispeech_prepare.add_line d (transcript_line e) =
              <[e.1 := join "_" e.2]> d) as Hline.
  { intros d e He. unfold librispeech_prepare.add_line.
    rewrite (strip_transcript_line _ He).
    change (join " ") with (join (String space "")).
    assert (Forall (λ w, mem_char space w = false) (e.1 :: e.2)) as Hsp.
    { eapply Forall_impl; [exact He |].
      intros w [_ Hw]. by apply no_whitespace_no_space. }
    by rewrite !(split_join _ _ _ Hsp). }
  split; [| split].
  - intros d e He. apply Hline.
    by apply (proj1 (Forall_forall _ _) Htok).
  - unfold librispeech_prepare.text_to_dict. simpl.
    unfold bind, open_lines. rewrite Hfile. simpl. f_equal. f_equal.
    clear Hfile. generalize (∅ : gmap string string).
    induction Htok as [|e l He Hl IH]; intros d; [done |].
    simpl. rewrite (Hline d e He). apply IH.
  - intros d. reflexivity.
Qed.

Lemma length_split (c : ascii) (s : string) :
  length (split c s) = S (count_char c s).
Proof.
  induction s as [|x s IH]; [done |]. simpl.
  pose proof (split_not_nil c s).
  destruct (Ascii.eqb x c); simpl; [by rewrite IH |].
  destruct (split c s); [done |]. simpl in *. lia.
Qed.

Lemma word_of_line_none (line : string) :
  timit_prepare.word_of_line line = None ↔
  count_char space (rstrip_newline line) < 2.
Proof.
  unfold timit_prepare.word_of_line, index.
  rewrite lookup_ge_None, length_split. lia.
Qed.

Lemma mapM_None_elem {A B} (f : A → option B) (l : list A) (x : A) :
  x ∈ l → f x = None → mapM f l = None.
Proof.
  intros Hin Hx. destruct (mapM f l) as [k|] eqn:E; [| done].
  assert (is_Some (mapM f l)) as Hs by eauto.
  apply mapM_is_Some in Hs.
  apply (proj1 (Forall_forall _ _) Hs) in Hin. simpl in Hin.
  rewrite Hx in Hin. by destruct Hin.
Qed.

(** X7. A line of a [.wrd] file gives its third field. A line with
    fewer than two spaces (a blank line, for one) has no third field:
    with such a line in the [.wrd] file of a wav file that can be read,
    the second half of the loop body ends with an [IndexError], having
    written nothing. *)
Theorem short_annotation_line (line : string) :
  (timit_prepare.word_of_line line = None ↔
   count_char space (rstrip_newline line) < 2) ∧
  (∀ labs st ids wav_file fs samples wrd_lines,
     fs !! wav_file = Some (Audio samples) →
     is_Some (fs !! dirname (replace ".wav" ".wrd" wav_file)) →
     fs !! replace ".wav" ".wrd" wav_file = Some (Text wrd_lines) →
     line ∈ wrd_lines →
     count_char space (rstrip_newline line) < 2 →
     timit_prepare.append_line labs st ids wav_file fs =
       mkRes (inl IndexError) fs []).
Proof.
  split; [apply word_of_line_none |].
  intros labs st ids wav_file fs samples wrd_lines Hwav Hdir Hwrd Hin Hshort.
  unfold timit_prepare.append_line.
  rewrite (bind_pure _ _ fs samples)
    by (unfold read_wav_soundfile; by rewrite Hwav).
  rewrite (bind_pure _ _ fs true)
    by (unfold os_path_exists; by rewrite bool_decide_eq_true_2).
  rewrite (bind_pure _ _ fs ()) by reflexivity.
  rewrite (bind_pure _ _ fs wrd_lines)
    by (unfold open_lines; by rewrite Hwrd).
  rewrite (mapM_None_elem _ _ line Hin) by (by apply word_of_line_none).
  reflexivity.
Qed.

End lines.

(** ** The corpus is left alone *)

Section frame.
Context `{collab : !Collaborators}.
Import PyStr.

Lemma preserves_read_only {A} (folder : string) (m : M A) :
  read_only m → preserves folder m.
Proof. intros H fs p n Hp _. by destruct (H fs) as [-> _]. Qed.

Lemma preserves_bind_inr {A B} (folder : string) (m : M A) (k : A → M B) :
  preserves folder m →
  (∀ fs a, outcome (m fs) = inr a → preserves folder (k a)) →
  preserves folder (bind m k).
Proof.
  intros Hm Hk fs p n Hp Hout. rewrite final_bind.
  destruct (outcome (m fs)) as [e|a] eqn:E; [by apply Hm |].
  apply (Hk fs a E); [by apply Hm | done].
Qed.

Lemma preserves_bind {A B} (folder : string) (m : M A) (k : A → M B) :
  preserves folder m → (∀ a, preserves folder (k a)) →
  preserves folder (bind m k).
Proof. intros Hm Hk. apply preserves_bind_inr; auto. Qed.

Lemma preserves_when (folder : string) (b : bool) (m : M unit) :
  preserves folder m → preserves folder (when b m).
Proof. intros H. destruct b; [done |]. by intros fs p n Hp _. Qed.

Lemma preserves_for_each {S A} (folder : string) (body : S → A → M S)
    (l : list A) (s : S) :
  (∀ s x, preserves folder (body s x)) →
  preserves folder (for_each body l s).
Proof.
  intros H. revert s. induction l as [|x l IH]; intros s.
  - by intros fs p n Hp _.
  - simpl. apply preserves_bind; [apply H | apply IH].
Qed.

Lemma preserves_logger_write (folder msg : string) (lvl : level) :
  preserves folder (logger_write msg lvl).
Proof. by intros fs p n Hp _. Qed.

Lemma preserves_insert (folder q : string) (v : node)
    (fs : gmap string node) (p : string) (n : node) :
  startswith (folder +:+ "/") q = true →
  fs !! p = Some n → startswith (folder +:+ "/") p = false →
  <[q := v]> fs !! p = Some n.
Proof.
  intros Hq Hp Hout. rewrite lookup_insert_ne; [done |]. intros ->.
  congruence.
Qed.

Lemma preserves_save_pkl (folder : string) (v : pyval) (q : string) :
  startswith (folder +:+ "/") q = true → preserves folder (save_pkl v q).
Proof. intros Hq fs p n Hp Hout. by apply (preserves_insert folder). Qed.

Lemma preserves_write_txt_file (folder : string) (ls : list string)
    (q : string) :
  startswith (folder +:+ "/") q = true →
  preserves folder (write_txt_file ls q).
Proof. intros Hq fs p n Hp Hout. by apply (preserves_insert folder). Qed.

Lemma mkdir_missing_lookup (d q : string) (n : node)
    (fs : gmap string node) :
  fs !! q = Some n → mkdir_missing d fs !! q = Some n.
Proof.
  intros Hq. unfold mkdir_missing. destruct (fs !! d) eqn:E; [done |].
  rewrite lookup_insert_ne; [done |]. intros ->. congruence.
Qed.

Lemma foldr_mkdir_missing_lookup (l : list string) (q : string) (n : node)
    (fs : gmap string node) :
  fs !! q = Some n → foldr mkdir_missing fs l !! q = Some n.
Proof.
  intros Hq. induction l as [|d l IH]; simpl; [done |].
  by apply mkdir_missing_lookup.
Qed.

(** Creating directories changes no entry that exists. *)
Lemma os_makedirs_lookup (q p : string) (n : node) (fs : gmap string node) :
  fs !! p = Some n → final (os_makedirs q fs) !! p = Some n.
Proof.
  intros Hp. unfold os_makedirs. destruct (String.eqb q ""); [done |].
  destruct (fs !! q) eqn:E; [done |].
  destruct (below_file _ _ _); simpl; [done |].
  apply foldr_mkdir_missing_lookup.
  rewrite lookup_insert_ne; [done |]. intros ->. congruence.
Qed.

Lemma preserves_os_makedirs (folder q : string) :
  preserves folder (os_makedirs q).
Proof. intros fs p n Hp _. by apply os_makedirs_lookup. Qed.

Lemma startswith_app (a b : string) : startswith a (a +:+ b) = true.
Proof. apply startswith_spec. by exists b. Qed.

Lemma below_folder (folder rest : string) :
  startswith (folder +:+ "/") (folder +:+ "/" +:+ rest) = true.
Proof. rewrite <- app_assoc'. apply startswith_app. Qed.

End frame.

Ltac preserves_auto :=
  repeat first
    [ apply preserves_read_only; solve [read_only_auto]
    | apply preserves_bind; [| intros ?]
    | apply preserves_when
    | apply preserves_logger_write
    | apply preserves_os_makedirs
    | apply preserves_save_pkl
    | apply preserves_write_txt_file
    | match goal with
      | |- preserves _ (match ?x with _ => _ end) => destruct x eqn:?
      end ].

Section frame_builds.
Context `{collab : !Collaborators}.
Import PyStr.

Lemma preserves_timit_process_all (s : timit_prepare.self)
    (wav_lst : list string) labs :
  (∀ l, labs = Some l → l.2 = timit_prepare.save_folder s +:+ "/kaldi_labels") →
  preserves (timit_prepare.save_folder s)
    (timit_prepare.process_all s wav_lst labs).
Proof.
  intros Hl. apply preserves_for_each. intros st wav_file.
  unfold timit_prepare.process_wav, timit_prepare.check_label,
    timit_prepare.append_line.
  preserves_auto.
  all: try (rewrite (Hl _ eq_refl), app_assoc'; apply below_folder).
Qed.

Lemma preserves_timit_create_scp (s : timit_prepare.self)
    (wav_lst : list string) (rest : string)
    (kaldi_lab lopts : option string) :
  preserves (timit_prepare.save_folder s)
    (timit_prepare.create_scp s wav_lst
       (timit_prepare.save_folder s +:+ "/" +:+ rest) kaldi_lab lopts).
Proof.
  unfold timit_prepare.create_scp.
  apply preserves_bind; [apply preserves_logger_write | intros _].
  apply preserves_bind_inr.
  { unfold timit_prepare.load_labels. preserves_auto. }
  intros fs labs Hlabs.
  apply preserves_bind.
  { apply preserves_timit_process_all. intros l ->.
    by eapply load_labels_dir. }
  intros st. preserves_auto. apply below_folder.
Qed.

Lemma preserves_timit_build (s : timit_prepare.self) :
  preserves (timit_prepare.save_folder s) (timit_prepare.build s).
Proof.
  unfold timit_prepare.build.
  apply preserves_bind;
    [unfold timit_prepare.check_timit_folders; preserves_auto | intros _].
  apply preserves_bind; [apply preserves_logger_write | intros _].
  apply preserves_bind; [| intros _].
  { unfold timit_prepare.split_train. apply preserves_when.
    apply preserves_bind;
      [apply preserves_read_only, read_only_get_all_files | intros l].
    apply (preserves_timit_create_scp s l "train.scp"). }
  apply preserves_bind; [| intros _].
  { unfold timit_prepare.split_dev. apply preserves_when.
    apply preserves_bind;
      [apply preserves_read_only, read_only_get_all_files | intros l].
    apply (preserves_timit_create_scp s l "dev.scp"). }
  apply preserves_bind; [| intros _].
  { unfold timit_prepare.split_test. apply preserves_when.
    apply preserves_bind;
      [apply preserves_read_only, read_only_get_all_files | intros l].
    apply (preserves_timit_create_scp s l "test.scp"). }
  apply preserves_save_pkl.
  apply (below_folder _ "opt_timit_prepare.pkl").
Qed.

Lemma preserves_libri_build (s : librispeech_prepare.self) :
  preserves (librispeech_prepare.save_folder s)
    (librispeech_prepare.build s).
Proof.
  unfold librispeech_prepare.build,
    librispeech_prepare.check_librispeech_folders.
  apply preserves_bind.
  { apply preserves_for_each. intros [] split. preserves_auto. }
  intros _. apply preserves_bind; [| intros _; preserves_auto].
  - apply preserves_for_each. intros [] i.
    unfold librispeech_prepare.prepare_split.
    apply preserves_bind; [preserves_auto | intros split].
    apply preserves_bind; [preserves_auto | intros wav_lst].
    apply preserves_bind; [preserves_auto | intros text_lst].
    apply preserves_bind.
    { apply preserves_read_only, read_only_text_to_dict. }
    intros text_dict.
    apply preserves_bind.
    { destruct (librispeech_prepare.select_n_sentences _); preserves_auto. }
    intros n. unfold librispeech_prepare.create_scp.
    apply preserves_bind; [apply preserves_logger_write | intros _].
    apply preserves_bind.
    { apply preserves_read_only. intros fs.
      apply read_only_process_all. }
    intros st. preserves_auto.
    unfold librispeech_prepare.scp_path. apply below_folder.
  - unfold librispeech_prepare.save_opt. apply below_folder.
Qed.

Lemma startswith_longer (p : string) : startswith (p +:+ "/") p = false.
Proof.
  apply not_true_is_false. intros [r Hr]%startswith_spec.
  rewrite app_assoc' in Hr. symmetry in Hr. by apply app_neq_self in Hr.
Qed.

Lemma timit_set_save_folder_lookup (o : timit_prepare.options)
    (funct_name : option string) (gc : option (gmap string string)) fs
    (p : string) (n : node) :
  fs !! p = Some n →
  final (timit_prepare.set_save_folder o funct_name gc fs) !! p = Some n.
Proof.
  intros Hp.
  assert (preserves p (timit_prepare.set_save_folder o funct_name gc)) as H.
  { unfold timit_prepare.set_save_folder. preserves_auto. }
  apply H; [done | apply startswith_longer].
Qed.

Lemma libri_set_save_folder_lookup (o : librispeech_prepare.options)
    (funct_name : option string) (gc : option (gmap string string)) fs
    (p : string) (n : node) :
  fs !! p = Some n →
  final (librispeech_prepare.set_save_folder o funct_name gc fs) !! p
    = Some n.
Proof.
  intros Hp.
  assert (preserves p (librispeech_prepare.set_save_folder o funct_name gc))
    as H.
  { unfold librispeech_prepare.set_save_folder. preserves_auto. }
  apply H; [done | apply startswith_longer].
Qed.

Lemma outside_folder_prefix (folder p : string) :
  outside_folder folder p = true → startswith (folder +:+ "/") p = false.
Proof.
  unfold outside_folder. intros [_ H]%andb_true_iff.
  by apply negb_true_iff.
Qed.

(** X8. The preparation leaves the corpus alone: a file or directory
    that exists before a run of [timit_prepare] or of
    [librispeech_prepare], and lies outside the save folder (the two
    paths normalised, both absolute or both relative; the splits of
    [librispeech_prepare] among the names that [check_opts] admits), is
    there unchanged after the run, however the run ends. What the logger
    and the label reader write, and links between files, are outside
    this model of the filesystem. *)
Theorem corpus_left_alone (p : string) (n : node) fs :
  fs !! p = Some n →
  (∀ o funct_name gc,
     (∀ s, outcome (timit_prepare.set_save_folder o funct_name gc fs)
           = inr s →
           outside_folder (timit_prepare.save_folder s) p = true) →
     final (timit_prepare.init o funct_name gc fs) !! p = Some n) ∧
  (∀ o funct_name gc,
     Forall (λ split, split ∈ libri_split_names)
       (librispeech_prepare.splits o) →
     (∀ s, outcome (librispeech_prepare.set_save_folder o funct_name gc fs)
           = inr s →
           outside_folder (librispeech_prepare.save_folder s) p = true) →
     final (librispeech_prepare.init o funct_name gc fs) !! p = Some n).
Proof.
  intros Hp.
  split; [intros o funct_name gc Hout' | intros o funct_name gc _ Hout'];
    pose proof (λ s Hs, outside_folder_prefix _ _ (Hout' s Hs)) as Hout;
    simpl in Hout.
  - unfold timit_prepare.init. rewrite final_bind.
    pose proof (timit_set_save_folder_lookup o funct_name gc fs p n Hp)
      as Hp1.
    destruct (outcome (timit_prepare.set_save_folder o funct_name gc fs))
      as [e|s] eqn:Hs; [done |].
    assert (read_only (timit_prepare.skip s)) as Hro
      by (unfold timit_prepare.skip; read_only_auto).
    rewrite final_bind, (final_read_only _ _ Hro).
    destruct (outcome (timit_prepare.skip s _)) as [e|[]]; [done | done |].
    apply preserves_timit_build; [done | by apply Hout].
  - unfold librispeech_prepare.init. rewrite final_bind.
    pose proof (libri_set_save_folder_lookup o funct_name gc fs p n Hp)
      as Hp1.
    destruct (outcome (librispeech_prepare.set_save_folder o funct_name gc
                         fs)) as [e|s] eqn:Hs; [done |].
    assert (read_only (librispeech_prepare.skip s)) as Hro
      by (unfold librispeech_prepare.skip; read_only_auto).
    rewrite final_bind, (final_read_only _ _ Hro).
    destruct (outcome (librispeech_prepare.skip s _)) as [e|[]]; [done | |].
    + rewrite libri_logs. done.
    + apply preserves_libri_build; [done | by apply Hout].
Qed.

End frame_builds.

(** ** The records of a manifest *)

Section records.
Context `{collab : !Collaborators}.
Import PyStr.

(** *** Runs that leave the audio files alone *)

Lemma no_new_audio_refl fs : no_new_audio fs fs.
Proof. by intros p k. Qed.

Lemma no_new_audio_trans fs1 fs2 fs3 :
  no_new_audio fs1 fs2 → no_new_audio fs2 fs3 → no_new_audio fs1 fs3.
Proof. intros H12 H23 p k H. by apply H12, H23. Qed.

Lemma no_new_audio_insert fs (p : string) (n : node) :
  (∀ k, n ≠ Audio k) → no_new_audio fs (<[p := n]> fs).
Proof.
  intros Hn q k. destruct (decide (p = q)) as [-> | Hne].
  - rewrite lookup_insert_eq. intros [= ->]. by destruct (Hn k).
  - by rewrite lookup_insert_ne.
Qed.

Lemma keeps_audio_read_only {A} (m : M A) : read_only m → keeps_audio m.
Proof. intros H fs. destruct (H fs) as [-> _]. apply no_new_audio_refl. Qed.

Lemma keeps_audio_bind {A B} (m : M A) (k : A → M B) :
  keeps_audio m → (∀ a, keeps_audio (k a)) → keeps_audio (bind m k).
Proof.
  intros Hm Hk fs. rewrite final_bind.
  destruct (outcome (m fs)) as [e|a]; [apply Hm |].
  eapply no_new_audio_trans; [apply Hm | apply Hk].
Qed.

Lemma keeps_audio_when (b : bool) (m : M unit) :
  keeps_audio m → keeps_audio (when b m).
Proof. destruct b; [done |]. intros _ fs. apply no_new_audio_refl. Qed.

Lemma keeps_audio_logger_write (msg : string) (lvl : level) :
  keeps_audio (logger_write msg lvl).
Proof. intros fs. apply no_new_audio_refl. Qed.

Lemma keeps_audio_save_pkl (v : pyval) (p : string) :
  keeps_audio (save_pkl v p).
Proof. intros fs. by apply no_new_audio_insert. Qed.

Lemma keeps_audio_os_makedirs (p : string) : keeps_audio (os_makedirs p).
Proof.
  intros fs. unfold os_makedirs.
  destruct (String.eqb p ""); [apply no_new_audio_refl |].
  destruct (fs !! p); [apply no_new_audio_refl |].
  destruct (below_file _ _ _); simpl; [apply no_new_audio_refl |].
  induction (ancestors _ _) as [|d l IH]; simpl.
  - by apply no_new_audio_insert.
  - eapply no_new_audio_trans; [exact IH |]. unfold mkdir_missing.
    destruct (_ !! d); [apply no_new_audio_refl |].
    by apply no_new_audio_insert.
Qed.

Ltac keeps_audio_auto :=
  repeat first
    [ apply keeps_audio_read_only; solve [read_only_auto]
    | apply keeps_audio_bind; [| intros ?]
    | apply keeps_audio_when
    | apply keeps_audio_logger_write
    | apply keeps_audio_save_pkl
    | apply keeps_audio_os_makedirs
    | match goal with
      | |- keeps_audio (match ?x with _ => _ end) => destruct x eqn:?
      end ].

Lemma keeps_audio_process_wav (s : timit_prepare.self) (n : nat) labs st
    wav_file :
  keeps_audio (timit_prepare.process_wav s n labs st wav_file).
Proof.
  unfold timit_prepare.process_wav, timit_prepare.check_label,
    timit_prepare.append_line.
  keeps_audio_auto.
Qed.

Lemma keeps_audio_load_labels (s : timit_prepare.self)
    (kaldi_lab lopts : option string) :
  keeps_audio (timit_prepare.load_labels s kaldi_lab lopts).
Proof. unfold timit_prepare.load_labels. keeps_audio_auto. Qed.

(** *** The lines of the loop *)

(** The label path after the label lookup: that of the sentence when it
    has a label, the one bound before when it has none. *)
Lemma check_label_bound (s : timit_prepare.self) (n : nat)
    (l : gmap string (list Z) * string) (snt_id : string)
    (st st1 : timit_prepare.locals) fs :
  outcome (timit_prepare.check_label s n l snt_id st fs) = inr st1 →
  timit_prepare.snt_lab_path st1 =
    match l.1 !! snt_id with
    | Some _ => Some (l.2 +:+ "/" +:+ snt_id +:+ ".pkl")
    | None => timit_prepare.snt_lab_path st
    end.
Proof.
  unfold timit_prepare.check_label, bind, when, logger_write, save_pkl.
  destruct (l.1 !! snt_id) as [blob|]; simpl;
    (destruct n as [|n']; simpl; [discriminate |]);
    destruct (ratio_exceeds _ (S n')); simpl;
    destruct error_raises; simpl; try discriminate;
    by intros [= <-].
Qed.

(** The second half of the body, when it returns: the wav file is an
    audio file, both sibling files are text files, and the line is made
    of the six fields and, with a label source, of the label path that
    is bound. *)
Lemma append_line_record
    (labs : option (gmap string (list Z) * string))
    (st st' : timit_prepare.locals) (ids : string * string)
    (wav_file : string) fs :
  outcome (timit_prepare.append_line labs st ids wav_file fs) = inr st' →
  ∃ samples wrd_lines words phn_lines phonemes rest,
    fs !! wav_file = Some (Audio samples) ∧
    fs !! replace ".wav" ".wrd" wav_file = Some (Text wrd_lines) ∧
    mapM timit_prepare.word_of_line wrd_lines = Some words ∧
    fs !! replace ".wav" ".phn" wav_file = Some (Text phn_lines) ∧
    mapM timit_prepare.phoneme_of_line phn_lines = Some phonemes ∧
    match labs with
    | None => rest = ""
    | Some _ =>
        ∃ path, timit_prepare.snt_lab_path st = Some path ∧
                rest = " kaldi_lab=(" +:+ path +:+ ",pkl)"
    end ∧
    timit_prepare.scp_lines st' =
      timit_prepare.scp_lines st ++
      [timit_prepare.scp_line ids.2
         (float_div_str samples timit_prepare.samplerate) wav_file ids.1
         (join "_" phonemes) (join "_" words) +:+ rest] ∧
    timit_prepare.snt_lab_path st' = timit_prepare.snt_lab_path st ∧
    timit_prepare.missing_lab st' = timit_prepare.missing_lab st.
Proof.
  unfold timit_prepare.append_line. intros H.
  apply bind_inr in H as (samples & Hsamples & H).
  assert (fs !! wav_file = Some (Audio samples)) as Hwav.
  { unfold read_wav_soundfile in Hsamples.
    destruct (fs !! wav_file) as [[]|]; simpl in Hsamples; congruence. }
  rewrite (final_read_only _ _ (read_only_read_wav_soundfile _)) in H.
  apply bind_inr in H as (there & _ & H). simpl in H.
  apply bind_inr in H as ([] & _ & H).
  rewrite final_when_logger_write in H.
  apply bind_inr in H as (wrd_lines & Hwrd & H).
  apply open_lines_inr in Hwrd.
  rewrite (final_read_only _ _ (read_only_open_lines _)) in H.
  apply bind_inr in H as (words & Hwords & H).
  apply or_raise_inr in Hwords.
  rewrite (final_read_only _ _ (read_only_or_raise _ _)) in H.
  apply bind_inr in H as (there' & _ & H). simpl in H.
  apply bind_inr in H as ([] & _ & H).
  rewrite final_when_logger_write in H.
  apply bind_inr in H as (phn_lines & Hphn & H).
  apply open_lines_inr in Hphn.
  rewrite (final_read_only _ _ (read_only_open_lines _)) in H.
  apply bind_inr in H as (phonemes & Hphonemes & H).
  apply or_raise_inr in Hphonemes.
  rewrite (final_read_only _ _ (read_only_or_raise _ _)) in H.
  apply bind_inr in H as (line & Hline & H).
  simpl in H. injection H as <-. simpl.
  exists samples, wrd_lines, words, phn_lines, phonemes.
  destruct labs as [l|].
  - apply bind_inr in Hline as (path & Hpath & Hline). simpl in Hline.
    apply or_raise_inr in Hpath. injection Hline as <-.
    exists (" kaldi_lab=(" +:+ path +:+ ",pkl)").
    repeat (split; [done |]). split; [by exists path |]. done.
  - simpl in Hline. injection Hline as <-. exists "".
    rewrite app_nil_r. by repeat split.
Qed.

Lemma bound_label_path_snoc (s : timit_prepare.self)
    (lab : gmap string (list Z)) (l : list string) (x : string)
    (ids : string * string) :
  timit_prepare.ids_of x = Some ids →
  bound_label_path s lab (l ++ [x]) =
  match lab !! ids.2 with
  | Some _ => Some (label_path s ids.2)
  | None => bound_label_path s lab l
  end.
Proof.
  intros Hids. unfold bound_label_path. rewrite foldl_app. simpl.
  by rewrite Hids.
Qed.

(** The lines that the loop adds: one per wav file, in order, each the
    record of its file. *)
Lemma timit_loop_records (s : timit_prepare.self) (n : nat)
    (labs : option (gmap string (list Z) * string)) (l : list string)
    (st st' : timit_prepare.locals) fs (before : list string) :
  timit_prepare.missing_lab st = false →
  (∀ lb, labs = Some lb →
         lb.2 = timit_prepare.save_folder s +:+ "/kaldi_labels" ∧
         timit_prepare.snt_lab_path st = bound_label_path s lb.1 before) →
  outcome (for_each (timit_prepare.process_wav s n labs) l st fs) = inr st' →
  ∃ new,
    timit_prepare.scp_lines st' = timit_prepare.scp_lines st ++ new ∧
    length new = length l ∧
    ∀ i wav_file, l !! i = Some wav_file →
      ∃ line, new !! i = Some line ∧
              timit_record s (fst <$> labs) fs (before ++ take i l)
                wav_file line.
Proof.
  revert st fs before.
  induction l as [|x l IH]; intros st fs before Hst Hlabs H.
  - simpl in H. injection H as <-. exists [].
    rewrite List.app_nil_r. by repeat split.
  - simpl in H. apply bind_inr in H as (st1 & Hbody & H).
    pose proof (keeps_text_process_wav s n labs st x fs) as Htext.
    pose proof (keeps_audio_process_wav s n labs st x fs) as Haudio.
    set (fs1 := final (timit_prepare.process_wav s n labs st x fs)) in *.
    unfold timit_prepare.process_wav in Hbody.
    apply bind_inr in Hbody as (ids & Hids & Hbody).
    apply or_raise_inr in Hids.
    rewrite (final_read_only _ _ (read_only_or_raise _ _)) in Hbody.
    apply bind_inr in Hbody as (st0 & Hst0 & Hbody).
    set (fs0 := final (match labs with
                       | Some l0 =>
                           timit_prepare.check_label s n l0 ids.2 st
                       | None => ret st
                       end fs)) in *.
    assert (timit_prepare.missing_lab st0 = false ∧
            timit_prepare.scp_lines st0 = timit_prepare.scp_lines st ∧
            no_new_text fs fs0 ∧ no_new_audio fs fs0 ∧
            ∀ lb, labs = Some lb →
                  timit_prepare.snt_lab_path st0 =
                  bound_label_path s lb.1 (before ++ [x]))
      as (Hm0 & Hl0 & Htext0 & Haudio0 & Hpath0).
    { destruct labs as [lb|].
      - pose proof (check_label_bound _ _ _ _ _ _ _ Hst0) as Hb.
        apply check_label_inr in Hst0 as (_ & Hm & Hl & _).
        split; [by destruct (lb.1 !! ids.2); rewrite Hm |].
        split; [done |].
        split; [apply keeps_text_check_label |].
        split.
        { subst fs0. unfold timit_prepare.check_label.
          generalize fs. change (keeps_audio
            (timit_prepare.check_label s n lb ids.2 st)).
          unfold timit_prepare.check_label. keeps_audio_auto. }
        intros lb' [= <-]. destruct (Hlabs lb eq_refl) as [Hdir Hbound].
        rewrite (bound_label_path_snoc _ _ _ _ _ Hids), Hb, Hbound.
        unfold label_path. by rewrite Hdir.
      - simpl in Hst0. injection Hst0 as <-.
        split; [done |]. split; [done |].
        split; [apply no_new_text_refl |].
        split; [apply no_new_audio_refl |]. by intros lb [=]. }
    rewrite Hm0 in Hbody.
    apply append_line_record in Hbody
      as (samples & wrd_lines & words & phn_lines & phonemes & rest &
          Hwav & Hwrd & Hwords & Hphn & Hphonemes & Hrest & Hlines &
          Hpath1 & Hm1).
    destruct (IH st1 fs1 (before ++ [x])) as (new & Hnew & Hlen & Hrec).
    + by rewrite Hm1.
    + intros lb Hlb. destruct (Hlabs lb Hlb) as [Hdir _].
      split; [done |]. rewrite Hpath1. by apply Hpath0.
    + exact H.
    + eexists (_ :: new). split; [| split].
      * by rewrite Hnew, Hlines, Hl0, <- List.app_assoc.
      * simpl. by rewrite Hlen.
      * intros [|i] wav Hi; simpl in Hi.
        -- injection Hi as <-. eexists. split; [reflexivity |].
           exists ids, samples, wrd_lines, words, phn_lines, phonemes, rest.
           split; [done |]. split; [by apply Haudio0 |].
           split; [by apply Htext0 |]. split; [done |].
           split; [by apply Htext0 |]. split; [done |].
           split; [| done].
           simpl. rewrite List.app_nil_r by done.
           destruct labs as [lb|]; simpl; [| done].
           destruct Hrest as (path & Hp & ->). exists path.
           split; [| done]. by rewrite <- (Hpath0 lb eq_refl).
        -- destruct (Hrec i wav Hi) as (line & Hline & Hr).
           exists line. split; [done |]. simpl.
           rewrite <- List.app_assoc in Hr. simpl in Hr.
           destruct Hr as (ids' & sm & wl & ws & pl & ps & r' &
                           H1 & H2 & H3 & H4 & H5 & H6 & H7 & H8).
           exists ids', sm, wl, ws, pl, ps, r'.
           split; [done |]. split; [by apply Haudio |].
           split; [by apply Htext |]. split; [done |].
           split; [by apply Htext |]. done.
Qed.

(** The label store of a run whose labels are read. *)
Lemma load_labels_store (s : timit_prepare.self)
    (kaldi_lab lopts : option string) fs labs :
  outcome (timit_prepare.load_labels s kaldi_lab lopts fs) = inr labs →
  label_store s kaldi_lab lopts fs (fst <$> labs).
Proof.
  unfold timit_prepare.load_labels, label_store.
  destruct kaldi_lab as [dir|]; [| by intros [= <-]].
  intros (out & Hout & H)%bind_inr.
  assert (final (output_folder_of (timit_prepare.global_config s) fs) = fs)
    as Hfs.
  { apply final_read_only. unfold output_folder_of. read_only_auto. }
  rewrite Hfs in H.
  apply bind_inr in H as (lab & Hlab & H).
  unfold read_kaldi_lab in Hlab. simpl in Hlab.
  apply bind_inr in H as (there & _ & H).
  apply bind_inr in H as ([] & _ & H). simpl in H. injection H as <-.
  exists lab. split; [done |]. unfold labels_are, output_folder_of in *.
  destruct (timit_prepare.global_config s) as [g|]; [| done].
  apply or_raise_inr in Hout. by exists g, out.
Qed.

(** X9. A TIMIT manifest is complete and in order: when [create_scp]
    ends well it has written one manifest, the file holds one line per
    wav file of the list, in the order of the list, each line being the
    record of its wav file: its identifiers, its duration, its path, its
    phonemes and words and, with a label source, the label path bound at
    its turn. No wav file is left out, with or without a label
    source. *)
Theorem timit_manifest_complete (s : timit_prepare.self)
    (wav_lst : list string) (scp_file : string)
    (kaldi_lab lopts : option string) fs :
  let r := timit_prepare.create_scp s wav_lst scp_file kaldi_lab lopts fs in
  outcome r = inr () →
  ∃ lines labs,
    manifests_written (trace r) = [(scp_file, lines)] ∧
    final r !! scp_file = Some (Text ((λ l, l +:+ nl) <$> lines)) ∧
    length lines = length wav_lst ∧
    label_store s kaldi_lab lopts fs labs ∧
    ∀ i wav_file, wav_lst !! i = Some wav_file →
      ∃ line, lines !! i = Some line ∧
              timit_record s labs fs (take i wav_lst) wav_file line.
Proof.
  intros r Hok. subst r. unfold timit_prepare.create_scp in *.
  apply bind_inr in Hok as ([] & _ & Hok).
  rewrite final_logger_write in Hok.
  apply bind_inr in Hok as (labs & Hload & Hok).
  apply bind_inr in Hok as (st & Hloop & _).
  pose proof (keeps_text_load_labels s kaldi_lab lopts fs) as Htext.
  pose proof (keeps_audio_load_labels s kaldi_lab lopts fs) as Haudio.
  pose proof (load_labels_dir s kaldi_lab lopts fs) as Hdir.
  pose proof (load_labels_store s kaldi_lab lopts fs labs Hload) as Hstore.
  set (fs1 := final (timit_prepare.load_labels s kaldi_lab lopts fs)) in *.
  unfold timit_prepare.process_all in Hloop.
  destruct (timit_loop_records s (length wav_lst) labs wav_lst
              timit_prepare.init_locals st fs1 [] eq_refl)
    as (lines & Hlines & Hlen & Hrec).
  { intros lb ->. split; [by apply Hdir | done]. }
  { exact Hloop. }
  simpl in Hlines. exists lines, (fst <$> labs).
  split; [| split; [| split; [done | split; [done |]]]].
  - rewrite trace_bind. simpl.
    unfold manifests_written at 1. simpl. fold manifests_written.
    rewrite trace_bind, manifests_written_app, Hload.
    rewrite (manifests_written_label_events _ _
               (emits_load_labels s kaldi_lab lopts fs)).
    fold fs1. rewrite trace_bind, manifests_written_app.
    rewrite (manifests_written_label_events (timit_prepare.save_folder s)).
    2:{ apply emits_process_all. intros l ->. by apply Hdir. }
    unfold timit_prepare.process_all. rewrite Hloop. simpl.
    by rewrite Hlines.
  - rewrite final_bind. simpl. rewrite final_bind, Hload. fold fs1.
    rewrite final_bind. unfold timit_prepare.process_all. rewrite Hloop.
    simpl. by rewrite lookup_insert_eq, Hlines.
  - intros i wav Hi. destruct (Hrec i wav Hi) as (line & Hline & Hr).
    exists line. split; [done |]. simpl in Hr.
    destruct Hr as (ids' & sm & wl & ws & pl & ps & r' &
                    H1 & H2 & H3 & H4 & H5 & H6 & H7 & H8).
    exists ids', sm, wl, ws, pl, ps, r'.
    split; [done |]. split; [by apply Haudio |].
    split; [by apply Htext |]. split; [done |].
    split; [by apply Htext |]. done.
Qed.

Lemma libri_loop_records (text_dict : gmap string string) (n : nat)
    (l : list string) (st st' : list string * nat) fs :
  outcome (for_each_break (librispeech_prepare.process_wav text_dict n)
             l st fs) = inr st' →
  ∃ new, st'.1 = st.1 ++ new ∧
         Forall2 (libri_record fs text_dict)
           (if decide (st.2 < n) then take (n - st.2) l else l) new.
Proof.
  revert st fs. induction l as [|x l IH]; intros st fs H.
  { simpl in H. injection H as <-. exists []. rewrite List.app_nil_r.
    split; [done |]. destruct (decide (st.2 < n)); [rewrite take_nil |];
      constructor. }
  simpl in H. apply bind_inr in H as (f & Hbody & H).
  assert (final (librispeech_prepare.process_wav text_dict n st x fs) = fs)
    as Hfs.
  { apply final_read_only. unfold librispeech_prepare.process_wav.
    read_only_auto. }
  rewrite Hfs in H.
  unfold librispeech_prepare.process_wav in Hbody.
  apply bind_inr in Hbody as (wrd & Hwrd & Hbody).
  apply or_raise_inr in Hwrd.
  rewrite (final_read_only _ _ (read_only_or_raise _ _)) in Hbody.
  apply bind_inr in Hbody as (samples & Hsamples & Hbody). simpl in Hbody.
  assert (fs !! x = Some (Audio samples)) as Hx.
  { unfold read_wav_soundfile in Hsamples.
    destruct (fs !! x) as [[]|]; simpl in Hsamples; congruence. }
  assert (libri_record fs text_dict x
            (librispeech_prepare.scp_line (librispeech_prepare.snt_id_of x)
               (float_div_str samples librispeech_prepare.samplerate) x
               (librispeech_prepare.spk_id_of
                  (librispeech_prepare.snt_id_of x)) wrd)) as Hrec.
  { by exists wrd, samples. }
  destruct (decide (st.2 + 1 = n)) as [Heq | Hne]; simpl in Hbody;
    injection Hbody as <-.
  - simpl in H. injection H as <-. simpl. eexists. split; [done |].
    destruct (decide (st.2 < n)) as [_ | ?]; [| lia].
    replace (n - st.2) with 1 by lia. simpl. rewrite take_0.
    by repeat constructor.
  - destruct (IH _ _ H) as (new & Hnew & Hrecs). simpl in *.
    eexists (_ :: new). split; [by rewrite Hnew, <- List.app_assoc |].
    destruct (decide (st.2 < n)) as [Hlt | Hge].
    + replace (n - st.2) with (S (n - (st.2 + 1))) by lia. simpl.
      constructor; [done |].
      by destruct (decide (st.2 + 1 < n)); [| lia].
    + constructor; [done |].
      by destruct (decide (st.2 + 1 < n)); [lia |].
Qed.

(** X10. A LibriSpeech manifest holds the records of the files the loop
    reaches, in the order of the list: the first [select_n_sentences]
    files when that number is at least one, and all the files when it
    is zero (the counter is compared after it has been incremented, so
    that zero never stops the loop). *)
Theorem librispeech_manifest_complete (s : librispeech_prepare.self)
    (wav_lst : list string) (text_dict : gmap string string)
    (split : string) (n : nat) fs :
  let r := librispeech_prepare.create_scp s wav_lst text_dict split n fs in
  outcome r = inr () →
  ∃ lines,
    manifests_written (trace r) =
      [(librispeech_prepare.scp_path s split, lines)] ∧
    final r !! librispeech_prepare.scp_path s split =
      Some (Text ((λ l, l +:+ nl) <$> lines)) ∧
    Forall2 (libri_record fs text_dict) (processed n wav_lst) lines ∧
    length lines =
      match n with 0 => length wav_lst | _ => n `min` length wav_lst end.
Proof.
  intros r Hok. subst r. unfold librispeech_prepare.create_scp in *.
  apply bind_inr in Hok as ([] & _ & Hok).
  rewrite final_logger_write in Hok.
  apply bind_inr in Hok as (st & Hloop & _).
  destruct (read_only_process_all wav_lst text_dict n fs) as [Hfs Htr].
  unfold librispeech_prepare.process_all in *.
  destruct (libri_loop_records _ _ _ _ _ _ Hloop) as (lines & Hlines & Hrec).
  simpl in Hlines, Hrec. exists lines.
  assert (Forall2 (libri_record fs text_dict) (processed n wav_lst) lines)
    as Hrec'.
  { unfold processed. destruct n as [|n'].
    - by destruct (decide (0 < 0)); [lia |].
    - destruct (decide (0 < S n')); [| lia].
      by rewrite Nat.sub_0_r in Hrec. }
  split; [| split; [| split; [done |]]].
  - rewrite trace_bind. simpl.
    unfold manifests_written at 1. simpl. fold manifests_written.
    rewrite trace_bind, Htr, Hloop. simpl. by rewrite Hlines.
  - rewrite final_bind. simpl. rewrite final_bind, Hloop, Hfs. simpl.
    by rewrite lookup_insert_eq, Hlines.
  - rewrite <- (Forall2_length _ _ _ Hrec'). unfold processed.
    destruct n; [done |]. by rewrite length_take.
Qed.

End records.

(** ** The fingerprint and the cache *)

Section cache.
Context `{collab : !Collaborators}.
Import PyStr.

Lemma bind_ext_inr {A B} (m : M A) (k1 k2 : A → M B) fs :
  (∀ a, outcome (m fs) = inr a →
        k1 a (final (m fs)) = k2 a (final (m fs))) →
  bind m k1 fs = bind m k2 fs.
Proof.
  intros H. unfold bind. destruct (outcome (m fs)) as [e|a]; [done |].
  by rewrite (H a eq_refl).
Qed.

Lemma read_only_timit_skip (s : timit_prepare.self) :
  read_only (timit_prepare.skip s).
Proof. unfold timit_prepare.skip. read_only_auto. Qed.

Lemma read_only_libri_skip (s : librispeech_prepare.self) :
  read_only (librispeech_prepare.skip s).
Proof. unfold librispeech_prepare.skip. read_only_auto. Qed.

Lemma read_only_result {A} (m : M A) fs (a : A) :
  read_only m → outcome (m fs) = inr a → m fs = mkRes (inr a) fs [].
Proof.
  intros Hro Ha. rewrite <- (res_eta (m fs)), Ha.
  by destruct (Hro fs) as [-> ->].
Qed.

(** X11. The fingerprint is written by a build that ends well and by
    no other run: in a run of [timit_prepare] or [librispeech_prepare]
    that ends with an exception no event writes the fingerprint file,
    and a run that does not skip and ends well ends with the write of
    the current configuration, which the fingerprint file then holds. *)
Theorem fingerprint_only_on_success :
  (∀ o funct_name gc fs s,
     outcome (timit_prepare.set_save_folder o funct_name gc fs) = inr s →
     let r := timit_prepare.init o funct_name gc fs in
     ((∃ e, outcome r = inl e) →
      Forall (λ ev, ¬ writes_to (timit_prepare.save_opt s) ev) (trace r)) ∧
     (outcome r = inr () →
      outcome (timit_prepare.skip s
                 (final (timit_prepare.set_save_folder o funct_name gc fs)))
        = inr false →
      (∃ T, trace r =
            T ++ [EvSavePkl (timit_prepare.save_opt s)
                    (PyConf (timit_prepare.conf (timit_prepare.opts s)))]) ∧
      final r !! timit_prepare.save_opt s =
        Some (Pickle (PyConf (timit_prepare.conf (timit_prepare.opts s)))))) ∧
  (∀ o funct_name gc fs s,
     outcome (librispeech_prepare.set_save_folder o funct_name gc fs)
       = inr s →
     let r := librispeech_prepare.init o funct_name gc fs in
     ((∃ e, outcome r = inl e) →
      Forall (λ ev, ¬ writes_to (librispeech_prepare.save_opt s) ev)
        (trace r)) ∧
     (outcome r = inr () →
      outcome (librispeech_prepare.skip s
                 (final (librispeech_prepare.set_save_folder o funct_name gc
                           fs))) = inr false →
      (∃ T, trace r =
            T ++ [EvSavePkl (librispeech_prepare.save_opt s)
                    (PyConf (librispeech_prepare.conf
                               (librispeech_prepare.opts s)))]) ∧
      final r !! librispeech_prepare.save_opt s =
        Some (Pickle (PyConf (librispeech_prepare.conf
                                (librispeech_prepare.opts s)))))).
Proof.
  split; intros o funct_name gc fs s Hs r; subst r.
  - pose proof (wp_set_save_folder o funct_name gc fs) as Hset.
    unfold wp in Hset. specialize (Hset s Hs).
    set (fs1 := final (timit_prepare.set_save_folder o funct_name gc fs))
      in *.
    pose proof (read_only_timit_skip s fs1) as [Hf Ht].
    pose proof (wp_build s fs1) as Hb. unfold wp in Hb.
    unfold timit_prepare.init.
    rewrite outcome_bind, trace_bind, final_bind, Hs. fold fs1.
    rewrite outcome_bind, trace_bind, final_bind, Hf, Ht.
    split.
    + intros [e He]. apply Forall_app. split.
      { eapply Forall_impl; [exact Hset |]. apply timit_event_not_fp. }
      destruct (outcome (timit_prepare.skip s fs1)) as [e'|[]];
        [constructor | done |].
      simpl in *. destruct Hb as (T & HT & Hb). rewrite He in Hb.
      rewrite Hb. eapply Forall_impl; [exact HT |].
      apply timit_event_not_fp.
    + intros Hok Hskip. rewrite Hskip in *. simpl in *.
      destruct Hb as (T & HT & Hb). rewrite Hok in Hb.
      destruct Hb as [Hb _]. split.
      * exists (trace (timit_prepare.set_save_folder o funct_name gc fs)
                  ++ T).
        by rewrite Hb, List.app_assoc.
      * by apply timit_build_fingerprint.
  - pose proof (libri_wp_set_save_folder o funct_name gc fs) as Hset.
    unfold wp in Hset. specialize (Hset s Hs).
    set (fs1 := final (librispeech_prepare.set_save_folder o funct_name gc
                         fs)) in *.
    pose proof (read_only_libri_skip s fs1) as [Hf Ht].
    pose proof (libri_wp_build s fs1) as Hb. unfold wp in Hb.
    unfold librispeech_prepare.init.
    rewrite outcome_bind, trace_bind, final_bind, Hs. fold fs1.
    rewrite outcome_bind, trace_bind, final_bind, Hf, Ht.
    split.
    + intros [e He]. apply Forall_app. split.
      { eapply Forall_impl; [exact Hset |]. apply libri_event_not_fp. }
      destruct (outcome (librispeech_prepare.skip s fs1)) as [e'|[]];
        [constructor | by rewrite libri_logs in He |].
      simpl in *. destruct Hb as (T & HT & Hb). rewrite He in Hb.
      rewrite Hb. eapply Forall_impl; [exact HT |].
      apply libri_event_not_fp.
    + intros Hok Hskip. rewrite Hskip in *. simpl in *.
      destruct Hb as (T & HT & Hb). rewrite Hok in Hb.
      destruct Hb as [Hb _]. split.
      * exists (trace (librispeech_prepare.set_save_folder o funct_name gc
                         fs) ++ T).
        by rewrite Hb, List.app_assoc.
      * by apply libri_build_cached.
Qed.

End cache.

Section cache_decisions.
Context `{collab : !Collaborators}.
Import PyStr.

(** X12. A changed configuration invalidates the cache: when the
    fingerprint file holds a value that is not equal to the current
    configuration, [skip] answers [False] whatever manifests exist, and
    the run is the full build. *)
Theorem changed_configuration_rebuilds :
  (∀ o funct_name gc fs s v,
     outcome (timit_prepare.set_save_folder o funct_name gc fs) = inr s →
     fs !! timit_prepare.save_opt s = Some (Pickle v) →
     py_eq_conf v (timit_prepare.conf (timit_prepare.opts s)) = false →
     outcome (timit_prepare.skip s fs) = inr false ∧
     timit_prepare.init o funct_name gc fs =
       (let* s := timit_prepare.set_save_folder o funct_name gc in
        timit_prepare.build s) fs) ∧
  (∀ o funct_name gc fs s v,
     outcome (librispeech_prepare.set_save_folder o funct_name gc fs)
       = inr s →
     fs !! librispeech_prepare.save_opt s = Some (Pickle v) →
     py_eq_conf v (librispeech_prepare.conf (librispeech_prepare.opts s))
       = false →
     outcome (librispeech_prepare.skip s fs) = inr false ∧
     librispeech_prepare.init o funct_name gc fs =
       (let* s := librispeech_prepare.set_save_folder o funct_name gc in
        librispeech_prepare.build s) fs).
Proof.
  split; intros o funct_name gc fs s v Hs Hfp Hne.
  - assert (∀ fs', fs' !! timit_prepare.save_opt s = Some (Pickle v) →
              outcome (timit_prepare.skip s fs') = inr false) as Hskip.
    { intros fs' Hfp'. rewrite timit_skip_outcome.
      unfold load_pkl. rewrite Hfp'. simpl. rewrite Hne.
      by destruct (_ && _). }
    split; [by apply Hskip |].
    unfold timit_prepare.init. apply bind_ext_inr. intros s' Hs'.
    assert (s' = s) as -> by congruence.
    assert (timit_prepare.skip s
              (final (timit_prepare.set_save_folder o funct_name gc fs)) =
            mkRes (inr false)
              (final (timit_prepare.set_save_folder o funct_name gc fs)) [])
      as Hres.
    { apply read_only_result; [apply read_only_timit_skip |].
      apply Hskip. by apply timit_set_save_folder_lookup. }
    by rewrite (bind_pure _ _ _ false Hres).
  - assert (∀ fs', fs' !! librispeech_prepare.save_opt s = Some (Pickle v) →
              outcome (librispeech_prepare.skip s fs') = inr false) as Hskip.
    { intros fs' Hfp'. rewrite libri_skip_outcome.
      unfold load_pkl, isfile_in at 2. rewrite Hfp'. simpl. rewrite Hne.
      by destruct (forallb _ _). }
    split; [by apply Hskip |].
    unfold librispeech_prepare.init. apply bind_ext_inr. intros s' Hs'.
    assert (s' = s) as -> by congruence.
    assert (librispeech_prepare.skip s
              (final (librispeech_prepare.set_save_folder o funct_name gc
                        fs)) =
            mkRes (inr false)
              (final (librispeech_prepare.set_save_folder o funct_name gc
                        fs)) [])
      as Hres.
    { apply read_only_result; [apply read_only_libri_skip |].
      apply Hskip. by apply libri_set_save_folder_lookup. }
    by rewrite (bind_pure _ _ _ false Hres).
Qed.

(** X13. What [librispeech_prepare.skip] answers, as it is written: it
    is [True] exactly when every manifest of the requested splits is a
    file and the fingerprint file, if it is there, holds the current
    configuration. *)
Theorem librispeech_skip_true (s : librispeech_prepare.self) fs :
  outcome (librispeech_prepare.skip s fs) = inr true ↔
  (∀ split, split ∈ librispeech_prepare.splits (librispeech_prepare.opts s) →
            isfile_in fs (librispeech_prepare.scp_path s split) = true) ∧
  (isfile_in fs (librispeech_prepare.save_opt s) = true →
   outcome (load_pkl (librispeech_prepare.save_opt s) fs) =
     inr (PyConf (librispeech_prepare.conf (librispeech_prepare.opts s)))).
Proof.
  rewrite libri_skip_outcome.
  destruct (forallb _ _) eqn:Hall.
  - assert (∀ split,
              split ∈ librispeech_prepare.splits
                        (librispeech_prepare.opts s) →
              isfile_in fs (librispeech_prepare.scp_path s split) = true)
      as Hall'.
    { intros split Hin. apply list_elem_of_In in Hin.
      by apply (proj1 (forallb_forall _ _) Hall). }
    destruct (isfile_in fs (librispeech_prepare.save_opt s)).
    + destruct (outcome (load_pkl _ fs)) as [e|v].
      * split; [done |]. intros [_ H]. by specialize (H eq_refl).
      * split.
        -- intros [= Hv]. apply py_eq_conf_true in Hv as ->. done.
        -- intros [_ H]. specialize (H eq_refl). injection H as ->.
           f_equal. by apply py_eq_conf_true.
    + split; [| done]. intros _. split; [done | discriminate].
  - split; [done |]. intros [H _]. exfalso.
    assert (forallb
              (λ split, isfile_in fs (librispeech_prepare.scp_path s split))
              (librispeech_prepare.splits (librispeech_prepare.opts s))
            = true) as Ht; [| congruence].
    apply forallb_forall. intros split Hin. apply H.
    by apply list_elem_of_In.
Qed.

Lemma for_each_unit_ok {A} (body : unit → A → M unit) (l : list A) fs :
  (∀ x fs0, outcome (body () x fs0) = inr () ∧ final (body () x fs0) = fs0) →
  outcome (for_each body l () fs) = inr ().
Proof.
  intros H. induction l as [|x l IH]; [done |]. simpl.
  rewrite outcome_bind. destruct (H x fs) as [-> ->]. exact IH.
Qed.

Lemma for_each_unit_stops {A} (body : unit → A → M unit) (l : list A) fs
    (x : A) :
  (∀ y, body () y fs = mkRes (inr ()) fs [] ∨
        ∃ msg, body () y fs =
               mkRes (inl (LoggedError msg)) fs [EvLog Error msg]) →
  x ∈ l →
  (∃ msg, body () x fs =
          mkRes (inl (LoggedError msg)) fs [EvLog Error msg]) →
  ∃ msg, for_each body l () fs =
         mkRes (inl (LoggedError msg)) fs [EvLog Error msg].
Proof.
  intros Hall Hin Hx. induction l as [|y l IH];
    [by apply elem_of_nil in Hin |].
  simpl. destruct (Hall y) as [Hy | [msg Hy]].
  - rewrite (bind_pure _ _ fs () Hy).
    apply elem_of_cons in Hin as [-> | Hin]; [| by apply IH].
    destruct Hx as [msg Hx]. congruence.
  - exists msg. unfold bind. by rewrite Hy.
Qed.

Lemma check_folder_run (folder msg : string) fs :
  (let* there := os_path_exists folder in
   when (negb there) (logger_write msg Error)) fs =
  match fs !! folder with
  | Some _ => mkRes (inr ()) fs []
  | None =>
      mkRes (if error_raises then inl (LoggedError msg) else inr ()) fs
        [EvLog Error msg]
  end.
Proof.
  unfold bind, os_path_exists, when, logger_write. simpl.
  destruct (fs !! folder) as [n|].
  - by rewrite bool_decide_eq_true_2 by eauto.
  - rewrite bool_decide_eq_false_2 by (by intros [? ?]). simpl.
    by destruct error_raises.
Qed.

Lemma bind_assoc {A B C} (m : M A) (k1 : A → M B) (k2 : B → M C) fs :
  bind (bind m k1) k2 fs = bind m (λ a, bind (k1 a) k2) fs.
Proof.
  unfold bind. destruct (outcome (m fs)) as [e|a]; simpl; [done |].
  destruct (outcome (k1 a (final (m fs)))) as [e|b]; simpl; [done |].
  by rewrite List.app_assoc.
Qed.

Lemma check_timit_folders_run (s : timit_prepare.self) fs :
  timit_prepare.check_timit_folders s fs =
  match fs !! (timit_prepare.data_folder (timit_prepare.opts s)
               +:+ "/test/dr1"),
        fs !! (timit_prepare.data_folder (timit_prepare.opts s)
               +:+ "/train/dr1") with
  | Some _, Some _ => mkRes (inr ()) fs []
  | None, Some _ =>
      mkRes
        (if error_raises
         then inl (LoggedError
                ("the folder " +:+
                 (timit_prepare.data_folder (timit_prepare.opts s)
                  +:+ "/test/dr*") +:+
                 " does not exist (it is expected in the TIMIT dataset)"))
         else inr ()) fs
        [EvLog Error
           ("the folder " +:+
            (timit_prepare.data_folder (timit_prepare.opts s)
             +:+ "/test/dr*") +:+
            " does not exist (it is expected in the TIMIT dataset)")]
  | Some _, None =>
      mkRes
        (if error_raises
         then inl (LoggedError
                ("the folder " +:+
                 (timit_prepare.data_folder (timit_prepare.opts s)
                  +:+ "/train/dr*") +:+
                 " does not exist (it is expected in the TIMIT dataset)"))
         else inr ()) fs
        [EvLog Error
           ("the folder " +:+
            (timit_prepare.data_folder (timit_prepare.opts s)
             +:+ "/train/dr*") +:+
            " does not exist (it is expected in the TIMIT dataset)")]
  | None, None =>
      if error_raises
      then mkRes
             (inl (LoggedError
                ("the folder " +:+
                 (timit_prepare.data_folder (timit_prepare.opts s)
                  +:+ "/test/dr*") +:+
                 " does not exist (it is expected in the TIMIT dataset)")))
             fs
             [EvLog Error
                ("the folder " +:+
                 (timit_prepare.data_folder (timit_prepare.opts s)
                  +:+ "/test/dr*") +:+
                 " does not exist (it is expected in the TIMIT dataset)")]
      else mkRes (inr ()) fs
             [EvLog Error
                ("the folder " +:+
                 (timit_prepare.data_folder (timit_prepare.opts s)
                  +:+ "/test/dr*") +:+
                 " does not exist (it is expected in the TIMIT dataset)");
              EvLog Error
                ("the folder " +:+
                 (timit_prepare.data_folder (timit_prepare.opts s)
                  +:+ "/train/dr*") +:+
                 " does not exist (it is expected in the TIMIT dataset)")]
  end.
Proof.
  unfold timit_prepare.check_timit_folders.
  rewrite <- (bind_assoc (os_path_exists _)
                (λ there, when (negb there) (logger_write _ Error))).
  unfold bind at 1. rewrite !check_folder_run.
  destruct (fs !! (timit_prepare.data_folder (timit_prepare.opts s)
                   +:+ "/test/dr1")) as [n1|]; simpl.
  - by destruct (fs !! _), error_raises.
  - destruct error_raises; simpl; by destruct (fs !! _).
Qed.

(** X14. The folder checks come before any write. With a logger that
    raises on an error, a TIMIT corpus without [test/dr1] or
    [train/dr1], or a LibriSpeech corpus without the folder of a
    requested split, ends the build with the logged error and nothing
    else done; with a logger that does not raise the checks never stop
    a run. *)
Theorem missing_folder_stops_build :
  (error_raises = true →
   (∀ (s : timit_prepare.self) fs,
      fs !! (timit_prepare.data_folder (timit_prepare.opts s) +:+ "/test/dr1")
        = None ∨
      fs !! (timit_prepare.data_folder (timit_prepare.opts s) +:+ "/train/dr1")
        = None →
      ∃ msg, timit_prepare.build s fs =
             mkRes (inl (LoggedError msg)) fs [EvLog Error msg]) ∧
   (∀ (s : librispeech_prepare.self) fs split,
      split ∈ librispeech_prepare.splits (librispeech_prepare.opts s) →
      fs !! (librispeech_prepare.data_folder (librispeech_prepare.opts s)
             +:+ "/" +:+ split) = None →
      ∃ msg, librispeech_prepare.build s fs =
             mkRes (inl (LoggedError msg)) fs [EvLog Error msg])) ∧
  (error_raises = false →
   ∀ (s : timit_prepare.self) (s' : librispeech_prepare.self) fs,
     outcome (timit_prepare.check_timit_folders s fs) = inr () ∧
     outcome (librispeech_prepare.check_librispeech_folders s' fs) = inr ()).
Proof.
  split.
  - intros Hraise. split.
    + intros s fs Hmiss.
      assert (∃ msg, timit_prepare.check_timit_folders s fs =
                     mkRes (inl (LoggedError msg)) fs [EvLog Error msg])
        as [msg Hmsg].
      { rewrite check_timit_folders_run, Hraise.
        destruct (fs !! (timit_prepare.data_folder (timit_prepare.opts s)
                         +:+ "/test/dr1")) as [n1|],
          (fs !! (timit_prepare.data_folder (timit_prepare.opts s)
                  +:+ "/train/dr1")) as [n2|];
          [by destruct Hmiss | eexists; reflexivity ..]. }
      exists msg. unfold timit_prepare.build. unfold bind at 1.
      by rewrite Hmsg.
    + intros s fs split Hin Hmiss. unfold librispeech_prepare.build.
      assert (∃ msg,
                librispeech_prepare.check_librispeech_folders s fs =
                mkRes (inl (LoggedError msg)) fs [EvLog Error msg])
        as [msg Hmsg].
      { unfold librispeech_prepare.check_librispeech_folders.
        apply (for_each_unit_stops _ _ _ split); [| done |].
        - intros y. rewrite check_folder_run, Hraise.
          destruct (fs !! (librispeech_prepare.data_folder
                             (librispeech_prepare.opts s) +:+ "/" +:+ y));
            [by left | right; eexists; reflexivity].
        - rewrite check_folder_run, Hraise, Hmiss. eexists. reflexivity. }
      exists msg. unfold bind at 1. by rewrite Hmsg.
  - intros Hquiet s s' fs. split.
    + rewrite check_timit_folders_run, Hquiet.
      by destruct (fs !! _), (fs !! _).
    + apply for_each_unit_ok. intros x fs0.
      rewrite check_folder_run, Hquiet. by destruct (fs0 !! _).
Qed.

End cache_decisions.

(** ** The shell commands of the stager *)

Section stager_commands.
Context `{collab : !Collaborators}.
Import copy_data_locally.

Lemma stage_commands (o : options) (f : string) fs :
  Forall (λ e, is_shell e = true →
               e = EvShell (copy_command o f (dest_file o f)) ∨
               e = EvShell (uncompress_command o (dest_file o f)))
    (trace (stage o () f fs)) ∧
  length (List.filter is_shell (trace (stage o () f fs))) ≤ 2.
Proof.
  unfold stage, bind, os_path_exists, run_shell, logger_write. simpl.
  destruct (bool_decide (is_Some (fs !! dest_file o f))); simpl;
    [split; [constructor | lia] |].
  destruct (shell (copy_command o f (dest_file o f)) fs).1 as [e|[]]; simpl.
  - split; [| lia].
    repeat (apply Forall_cons; split;
            [simpl; intros; (discriminate || auto) |]).
    constructor.
  - destruct (shell (uncompress_command o (dest_file o f))
                (shell (copy_command o f (dest_file o f)) fs).2).1
      as [e|[]];
      simpl; (split; [| lia]);
      repeat (apply Forall_cons; split;
              [simpl; intros; (discriminate || auto) |]);
      constructor.
Qed.

Lemma for_each_stage_commands (o : options) (l : list string) fs :
  Forall (λ e, is_shell e = true →
               ∃ f, f ∈ l ∧
                    (e = EvShell (copy_command o f (dest_file o f)) ∨
                     e = EvShell (uncompress_command o (dest_file o f))))
    (trace (for_each (stage o) l () fs)) ∧
  length (List.filter is_shell (trace (for_each (stage o) l () fs)))
    ≤ 2 * length l.
Proof.
  revert fs. induction l as [|f l IH]; intros fs.
  { split; [constructor | simpl; lia]. }
  simpl. rewrite trace_bind.
  destruct (stage_commands o f fs) as [Hf Hn].
  assert (Forall
            (λ e, is_shell e = true →
                  ∃ g, g ∈ f :: l ∧
                       (e = EvShell (copy_command o g (dest_file o g)) ∨
                        e = EvShell (uncompress_command o (dest_file o g))))
            (trace (stage o () f fs))) as Hf'.
  { eapply Forall_impl; [exact Hf |]. intros e He Hs. exists f.
    split; [by left | auto]. }
  destruct (outcome (stage o () f fs)) as [e|[]].
  - rewrite List.app_nil_r. split; [done | lia].
  - destruct (IH (final (stage o () f fs))) as [Hl Hm]. split.
    + apply Forall_app. split; [done |].
      eapply Forall_impl; [exact Hl |].
      intros e He Hs. destruct (He Hs) as (g & Hg & Hcmd).
      exists g. split; [by right | done].
    + rewrite List.filter_app, length_app. lia.
Qed.

(** X15. The shell commands of a run of the stager: every command is
    the copy or the decompression of an archive of the list, built by
    [copy_command] and [uncompress_command] for the destination of that
    archive, and a run issues at most two commands for each archive of
    the list. *)
Theorem stager_commands_of_archives (o : options) fs :
  Forall (stager_command o) (trace (init o fs)) ∧
  length (List.filter is_shell (trace (init o fs)))
    ≤ 2 * length (data_file o).
Proof.
  unfold init. rewrite trace_bind, List.filter_app, length_app.
  set (first := try_except _ _ fs).
  assert (Forall (λ e, is_shell e = false) (trace first)) as Hfirst.
  { subst first. unfold try_except, os_makedirs, logger_write.
    destruct (String.eqb (local_folder o) ""); simpl;
      [repeat constructor |].
    destruct (fs !! local_folder o); simpl; [repeat constructor |].
    destruct (below_file _ _ _); simpl; repeat constructor. }
  assert (List.filter is_shell (trace first) = []) as ->.
  { induction Hfirst as [|e t He Ht IH]; [done |]. simpl. by rewrite He. }
  split.
  - apply Forall_app. split.
    + eapply Forall_impl; [exact Hfirst |]. by intros [].
    + destruct (outcome first) as [e|[]]; [constructor |].
      destruct (for_each_stage_commands o (data_file o) (final first))
        as [H _].
      eapply Forall_impl; [exact H |].
      intros [] He; simpl; try done.
      destruct (He eq_refl) as (f & Hf & [[= ->] | [= ->]]);
        exists f; auto.
  - destruct (outcome first) as [e|[]]; [simpl; lia |].
    by destruct (for_each_stage_commands o (data_file o) (final first)).
Qed.

End stager_commands.

(** ** The label files *)

Section label_files.
Context `{collab : !Collaborators}.
Import PyStr timit_prepare.

Lemma app_inv_tail' (a b c : string) : a +:+ c = b +:+ c → a = b.
Proof.
  revert b. induction a as [|x a IH]; intros [|y b] H; simpl in *.
  - done.
  - apply (f_equal String.length) in H. simpl in H.
    rewrite app_length' in H. lia.
  - apply (f_equal String.length) in H. simpl in H.
    rewrite app_length' in H. lia.
  - injection H as -> H. by rewrite (IH _ H).
Qed.

Lemma label_path_inj (s : self) (a b : string) :
  label_path s a = label_path s b → a = b.
Proof.
  unfold label_path. intros H.
  apply app_inv_head' in H. apply app_inv_head' in H.
  by apply app_inv_tail' in H.
Qed.

Lemma final_check_label (s : self) (n : nat) (lab : gmap string (list Z))
    (snt_id : string) (st : locals) fs :
  final (check_label s n (lab, save_folder s +:+ "/kaldi_labels") snt_id st
           fs) =
  match lab !! snt_id with
  | Some blob => <[label_path s snt_id := Pickle (PyLabel blob)]> fs
  | None => fs
  end.
Proof.
  unfold check_label, label_path. rewrite final_bind. simpl.
  destruct (lab !! snt_id) as [blob|]; simpl.
  - rewrite final_bind. destruct n as [|n']; simpl; [done |].
    rewrite final_when_logger_write. by destruct (outcome _).
  - rewrite final_bind. destruct n as [|n']; simpl; [done |].
    rewrite final_when_logger_write. by destruct (outcome _).
Qed.

Lemma append_line_lookup labs (st : locals) (ids : string * string)
    (wav_file : string) fs (p : string) (n : node) :
  fs !! p = Some n → final (append_line labs st ids wav_file fs) !! p = Some n.
Proof.
  intros Hp.
  assert (preserves p (append_line labs st ids wav_file)) as H.
  { unfold append_line. preserves_auto. }
  apply H; [done | apply startswith_longer].
Qed.

(** A label file that is in place stays in place through a turn of the
    loop. *)
Lemma process_wav_stable (s : self) (n : nat) (lab : gmap string (list Z))
    (st : locals) (wav_file : string) fs (snt_id : string) (blob : list Z) :
  lab !! snt_id = Some blob →
  fs !! label_path s snt_id = Some (Pickle (PyLabel blob)) →
  final (process_wav s n (Some (lab, save_folder s +:+ "/kaldi_labels")) st
           wav_file fs) !! label_path s snt_id =
    Some (Pickle (PyLabel blob)).
Proof.
  intros Hlab Hfs. unfold process_wav. rewrite final_bind.
  destruct (ids_of wav_file) as [ids|]; simpl; [| done].
  rewrite final_bind.
  assert (final (check_label s n (lab, save_folder s +:+ "/kaldi_labels")
                   ids.2 st fs) !! label_path s snt_id =
          Some (Pickle (PyLabel blob))) as Hfs1.
  { rewrite final_check_label. destruct (lab !! ids.2) as [b|] eqn:E;
      [| done].
    destruct (decide (label_path s ids.2 = label_path s snt_id)) as [Heq|Hne].
    - apply label_path_inj in Heq. rewrite Heq in *.
      rewrite lookup_insert_eq. congruence.
    - by rewrite lookup_insert_ne. }
  destruct (outcome (check_label _ _ _ _ _ fs)) as [e|st1]; [done |].
  destruct (missing_lab st1); [done |]. by apply append_line_lookup.
Qed.

Lemma process_all_stable (s : self) (n : nat) (lab : gmap string (list Z))
    (l : list string) (st : locals) fs (snt_id : string) (blob : list Z) :
  lab !! snt_id = Some blob →
  fs !! label_path s snt_id = Some (Pickle (PyLabel blob)) →
  final (for_each
           (process_wav s n (Some (lab, save_folder s +:+ "/kaldi_labels")))
           l st fs) !! label_path s snt_id =
    Some (Pickle (PyLabel blob)).
Proof.
  intros Hlab. revert st fs. induction l as [|x l IH]; intros st fs Hfs;
    [done |].
  simpl. rewrite final_bind.
  pose proof (process_wav_stable s n lab st x fs snt_id blob Hlab Hfs) as H1.
  destruct (outcome (process_wav _ _ _ st x fs)) as [e|st1]; [done |].
  by apply IH.
Qed.

(** A turn of the loop that returns has stored the label of its
    sentence. *)
Lemma process_wav_stores (s : self) (n : nat) (lab : gmap string (list Z))
    (st st' : locals) (wav_file : string) fs (ids : string * string)
    (blob : list Z) :
  outcome (process_wav s n (Some (lab, save_folder s +:+ "/kaldi_labels"))
             st wav_file fs) = inr st' →
  ids_of wav_file = Some ids → lab !! ids.2 = Some blob →
  final (process_wav s n (Some (lab, save_folder s +:+ "/kaldi_labels")) st
           wav_file fs) !! label_path s ids.2 =
    Some (Pickle (PyLabel blob)).
Proof.
  intros Hok Hids Hlab. unfold process_wav in *.
  rewrite final_bind. rewrite Hids in *. simpl in *.
  apply bind_inr in Hok as (st1 & Hst1 & Hok).
  rewrite final_bind, Hst1.
  assert (final (check_label s n (lab, save_folder s +:+ "/kaldi_labels")
                   ids.2 st fs) !! label_path s ids.2 =
          Some (Pickle (PyLabel blob))) as Hfs1.
  { by rewrite final_check_label, Hlab, lookup_insert_eq. }
  destruct (missing_lab st1); [done |]. by apply append_line_lookup.
Qed.

Lemma process_all_stores (s : self) (n : nat) (lab : gmap string (list Z))
    (l : list string) (st st' : locals) fs :
  outcome (for_each
             (process_wav s n (Some (lab, save_folder s +:+ "/kaldi_labels")))
             l st fs) = inr st' →
  ∀ wav_file ids blob,
    wav_file ∈ l → ids_of wav_file = Some ids → lab !! ids.2 = Some blob →
    final (for_each
             (process_wav s n
                (Some (lab, save_folder s +:+ "/kaldi_labels")))
             l st fs) !! label_path s ids.2 =
      Some (Pickle (PyLabel blob)).
Proof.
  revert st fs. induction l as [|x l IH]; intros st fs Hok wav ids blob Hin;
    [by apply elem_of_nil in Hin |].
  intros Hids Hlab. simpl in *. apply bind_inr in Hok as (st1 & Hx & Hok).
  rewrite final_bind, Hx.
  apply elem_of_cons in Hin as [-> | Hin].
  - apply process_all_stable; [done |]. by eapply process_wav_stores.
  - by eapply IH.
Qed.

(** X16. The labels are stored: when [create_scp] is given a label
    source and ends well, the label of every wav file of the list that
    has one in the label store is in the save folder, pickled at
    [kaldi_labels/<snt_id>.pkl] (unless the manifest itself was written
    to that path). *)
Theorem labels_stored (s : self) (wav_lst : list string)
    (scp_file dir : string) (lopts : option string) fs
    (lab : gmap string (list Z)) :
  labels_are s dir lopts fs lab →
  let r := create_scp s wav_lst scp_file (Some dir) lopts fs in
  outcome r = inr () →
  ∀ wav_file ids blob,
    wav_file ∈ wav_lst → ids_of wav_file = Some ids →
    lab !! ids.2 = Some blob → scp_file ≠ label_path s ids.2 →
    final r !! label_path s ids.2 = Some (Pickle (PyLabel blob)).
Proof.
  intros Hlab r Hok wav_file ids blob Hin Hids Hblob Hscp. subst r.
  unfold create_scp in *.
  apply bind_inr in Hok as ([] & _ & Hok).
  rewrite final_logger_write in Hok.
  apply bind_inr in Hok as (labs & Hload & Hok).
  pose proof (load_labels_inr _ _ _ _ _ _ Hlab Hload) as ->.
  apply bind_inr in Hok as (st & Hloop & _).
  rewrite final_bind.
  change (outcome (logger_write ?m Debug fs)) with (inr () : exn + unit).
  rewrite final_logger_write, final_bind, Hload.
  rewrite final_bind, Hloop.
  unfold process_all in *.
  pose proof (process_all_stores _ _ _ _ _ _ _ Hloop wav_file ids blob Hin
                Hids Hblob) as Hstored.
  rewrite final_bind. simpl. by rewrite lookup_insert_ne.
Qed.

End label_files.

(** ** Annotation lines, short option lists and a missing first label *)

Section annotation_lines.
Context `{collab : !Collaborators}.
Import PyStr.

Lemma last_char_mem (w : string) (c : ascii) :
  last_char w = Some c → mem_char c w = true.
Proof.
  induction w as [|x w IH]; [done |]. simpl. destruct w as [|y w].
  - intros [= ->]. by rewrite Ascii.eqb_refl.
  - intros H. by rewrite (IH H), orb_true_r.
Qed.

Lemma rstrip_newline_line (body : string) :
  last_char body ≠ Some newline → rstrip_newline (body +:+ nl) = body.
Proof.
  intros H. unfold rstrip_newline, nl.
  rewrite rstrip_app_char by apply Ascii.eqb_refl.
  apply rstrip_id. intros c Hc. apply Ascii.eqb_neq. by intros <-.
Qed.

Lemma last_char_third (a b w : string) :
  w ≠ "" → mem_char newline w = false →
  last_char (a +:+ " " +:+ b +:+ " " +:+ w) ≠ Some newline.
Proof.
  intros Hw Hnl.
  rewrite last_char_app by done. rewrite (last_char_app " ") by (by destruct b).
  rewrite last_char_app by done. rewrite (last_char_app " ") by done.
  intros H. apply last_char_mem in H. congruence.
Qed.

Lemma split_three (a b w : string) :
  mem_char space a = false → mem_char space b = false →
  mem_char space w = false →
  split space (a +:+ " " +:+ b +:+ " " +:+ w) = [a; b; w].
Proof.
  intros Ha Hb Hw.
  change (a +:+ " " +:+ b +:+ " " +:+ w)
    with (a +:+ String space (b +:+ String space w)).
  by rewrite !split_sep_app, (split_no_occurrence _ _ Ha),
    (split_no_occurrence _ _ Hb), (split_no_occurrence _ _ Hw).
Qed.

Lemma mem_char_cons (c a : ascii) (s : string) :
  mem_char c (String a s) = Ascii.eqb a c || mem_char c s.
Proof. reflexivity. Qed.

(** A prefix without the first character of the pattern is copied. *)
Lemma replace_go_prefix (c : ascii) (p new a r : string) :
  mem_char c a = false →
  replace_go (String c p) new (a +:+ r) 0 =
  a +:+ replace_go (String c p) new r 0.
Proof.
  induction a as [|x a IH]; [done |]. rewrite mem_char_cons.
  intros [Hx Ha]%orb_false_iff.
  change (String x a +:+ r) with (String x (a +:+ r)).
  rewrite replace_go_cons, startswith_cons, Ascii.eqb_sym, Hx. simpl.
  by rewrite (IH Ha).
Qed.

Lemma replace_go_hash_no_space (s : string) :
  mem_char space s = false →
  mem_char space (replace_go "h#" "sil" s 0) = false ∧
  mem_char space (replace_go "h#" "sil" s 1) = false.
Proof.
  induction s as [|c s IH]; [done |]. rewrite mem_char_cons.
  intros [Hc Hs]%orb_false_iff. destruct (IH Hs) as [IH0 IH1].
  split; [| exact IH0]. rewrite replace_go_cons.
  destruct (startswith "h#" (String c s)).
  - change (String.length "h#" - 1) with 1.
    change ("sil" +:+ replace_go "h#" "sil" s 1)
      with (String "s" (String "i" (String "l" (replace_go "h#" "sil" s 1)))).
    rewrite !mem_char_cons. by rewrite IH1.
  - rewrite mem_char_cons. by rewrite Hc, IH0.
Qed.

(** X17. Reading an annotation line [start end label]: the word of a
    line of a [.wrd] file is its third field, and the phoneme of a line
    of a [.phn] file is its third field with every [h#] replaced by
    [sil], so that the silence label [h#] is read as [sil] and a label
    without the letter h is read as it is. *)
Theorem annotation_line_third_field (a b w : string) :
  mem_char space a = false → mem_char space b = false →
  mem_char space w = false → w ≠ "" → mem_char newline w = false →
  timit_prepare.word_of_line (a +:+ " " +:+ b +:+ " " +:+ w +:+ nl) = Some w ∧
  (mem_char "h" a = false → mem_char "h" b = false →
   timit_prepare.phoneme_of_line (a +:+ " " +:+ b +:+ " " +:+ w +:+ nl) =
     Some (replace "h#" "sil" w) ∧
   (w = "h#" → replace "h#" "sil" w = "sil") ∧
   (mem_char "h" w = false → replace "h#" "sil" w = w)).
Proof.
  intros Ha Hb Hw Hne Hnl.
  assert (rstrip_newline (a +:+ " " +:+ b +:+ " " +:+ w +:+ nl) =
          a +:+ " " +:+ b +:+ " " +:+ w) as Hbody.
  { rewrite <- (rstrip_newline_line (a +:+ " " +:+ b +:+ " " +:+ w))
      by (by apply last_char_third).
    by rewrite !app_assoc'. }
  split.
  - unfold timit_prepare.word_of_line. by rewrite Hbody, split_three.
  - intros Hha Hhb. split; [| split].
    + unfold timit_prepare.phoneme_of_line. rewrite Hbody. unfold replace.
      rewrite (replace_go_prefix "h" "#" "sil" a _ Hha).
      change (" " +:+ b +:+ " " +:+ w) with (String space (b +:+ " " +:+ w)).
      rewrite replace_go_cons.
      change (startswith "h#" (String space (b +:+ " " +:+ w))) with false.
      cbv iota.
      rewrite (replace_go_prefix "h" "#" "sil" b _ Hhb).
      change (" " +:+ w) with (String space w).
      rewrite replace_go_cons.
      change (startswith "h#" (String space w)) with false. cbv iota.
      change (a +:+ String space (b +:+ String space ?x))
        with (a +:+ " " +:+ b +:+ " " +:+ x).
      rewrite split_three; [done | done | done |].
      by apply replace_go_hash_no_space.
    + by intros ->.
    + intros Hh. unfold replace.
      rewrite <- (app_nil_r w) at 1.
      by rewrite (replace_go_prefix "h" "#" "sil" w "" Hh), app_nil_r.
Qed.

End annotation_lines.

Section short_lists.
Context `{collab : !Collaborators}.
Import PyStr.

(** X18. A list [select_n_sentences] that is shorter than the list of
    splits: the turn of a split without its entry ends with an
    exception before its manifest is begun, with nothing logged and
    nothing written. *)
Theorem select_n_sentences_too_short (s : librispeech_prepare.self)
    (i : nat) (split : string) (l : list nat) fs :
  librispeech_prepare.splits (librispeech_prepare.opts s) !! i = Some split →
  librispeech_prepare.select_n_sentences (librispeech_prepare.opts s)
    = Some l →
  l !! i = None →
  ∃ e, librispeech_prepare.prepare_split s () i fs = mkRes (inl e) fs [] ∧
       (outcome
          (librispeech_prepare.text_to_dict
             (List.filter (path_matches ["trans.txt"] None None)
                (files_below fs
                   (librispeech_prepare.data_folder
                      (librispeech_prepare.opts s) +:+ "/" +:+ split))) fs)
        = inl e ∨ e = IndexError).
Proof.
  intros Hsplit Hsel Hl. unfold librispeech_prepare.prepare_split.
  rewrite Hsplit, Hsel, Hl. simpl or_raise.
  rewrite (bind_pure _ _ fs split eq_refl).
  rewrite (bind_pure _ _ fs _ eq_refl).
  rewrite (bind_pure _ _ fs _ eq_refl).
  set (text_lst := List.filter _ _).
  pose proof (read_only_text_to_dict text_lst fs) as [Hf Ht].
  destruct (outcome (librispeech_prepare.text_to_dict text_lst fs))
    as [e|d] eqn:E.
  - exists e. split; [| by left]. unfold bind. by rewrite E, Hf, Ht.
  - exists IndexError. split; [| by right].
    rewrite (bind_pure _ _ fs d); [done |].
    apply read_only_result; [| done].
    intros fs0. apply read_only_text_to_dict.
Qed.

Lemma check_label_path (s : timit_prepare.self) (n : nat)
    (l : gmap string (list Z) * string) (snt_id : string)
    (st st1 : timit_prepare.locals) fs :
  outcome (timit_prepare.check_label s n l snt_id st fs) = inr st1 →
  l.1 !! snt_id = None →
  timit_prepare.snt_lab_path st1 = timit_prepare.snt_lab_path st.
Proof.
  unfold timit_prepare.check_label. intros H Hmiss. rewrite Hmiss in H.
  apply bind_inr in H as (st' & Hst' & H). simpl in Hst'.
  injection Hst' as <-.
  apply bind_inr in H as ([] & _ & H). simpl in H. by injection H as <-.
Qed.

Lemma append_line_bound (l : gmap string (list Z) * string)
    (st st' : timit_prepare.locals) (ids : string * string)
    (wav_file : string) fs :
  outcome (timit_prepare.append_line (Some l) st ids wav_file fs) = inr st' →
  is_Some (timit_prepare.snt_lab_path st).
Proof.
  unfold timit_prepare.append_line. intros H.
  do 9 (apply bind_inr in H as (? & _ & H)).
  apply bind_inr in H as (line & Hline & _).
  apply bind_inr in Hline as (path & Hp & _).
  apply or_raise_inr in Hp. rewrite Hp. eauto.
Qed.

(** X19. The label path of a record is set by the first label found.
    With a label source that has no label for the first wav file of the
    list, the path of its record is unbound: [create_scp] ends with an
    exception, whatever the rest of the list is, and writes no
    manifest. *)
Theorem first_label_missing_aborts (s : timit_prepare.self)
    (x : string) (l : list string) (scp_file dir : string)
    (lopts : option string) fs (lab : gmap string (list Z)) :
  labels_are s dir lopts fs lab →
  is_missing lab x = true →
  let r := timit_prepare.create_scp s (x :: l) scp_file (Some dir) lopts fs in
  (∃ e, outcome r = inl e) ∧ manifests_written (trace r) = [].
Proof.
  intros Hlab Hmiss r.
  assert (∃ e, outcome r = inl e) as [e He].
  { destruct (outcome r) as [e|[]] eqn:E; [eauto |]. exfalso.
    subst r. unfold timit_prepare.create_scp in E.
    apply bind_inr in E as ([] & _ & E). rewrite final_logger_write in E.
    apply bind_inr in E as (labs & Hload & E).
    pose proof (load_labels_inr _ _ _ _ _ _ Hlab Hload) as ->.
    apply bind_inr in E as (st & Hloop & _).
    unfold timit_prepare.process_all in Hloop. simpl in Hloop.
    apply bind_inr in Hloop as (st1 & Hx & _).
    unfold timit_prepare.process_wav in Hx.
    apply bind_inr in Hx as (ids & Hids & Hx). apply or_raise_inr in Hids.
    rewrite (final_read_only _ _ (read_only_or_raise _ _)) in Hx.
    apply bind_inr in Hx as (st0 & Hst0 & Hx).
    assert (lab !! ids.2 = None) as Hnone.
    { unfold is_missing in Hmiss. rewrite Hids in Hmiss.
      by apply bool_decide_eq_true in Hmiss. }
    pose proof (check_label_path _ _ _ _ _ _ _ Hst0 Hnone) as Hpath.
    pose proof (check_label_inr _ _ _ _ _ _ _ Hst0) as (_ & Hm & _).
    simpl in Hm. rewrite Hnone in Hm. rewrite Hm in Hx.
    apply append_line_bound in Hx. rewrite Hpath in Hx.
    by destruct Hx. }
  split; [eauto |].
  pose proof (create_scp_trace s (x :: l) scp_file (Some dir) lopts fs) as Ht.
  unfold wp in Ht. destruct Ht as (t0 & Ht0 & Hr).
  fold r in Hr. rewrite He in Hr. rewrite Hr.
  by eapply manifests_written_label_events.
Qed.

End short_lists.

(** ** The properties at example inputs *)

Lemma transcript_lines_read_witness :
  librispeech_prepare.text_to_dict
    ["/l/dev-clean/84/121123/84-121123.trans.txt"] libri_stale_world =
  mkRes (inr (<["84-121123-0000" := "GO_DO_YOU_HEAR"]> ∅))
    libri_stale_world [].
Proof.
  destruct (transcript_lines_read
              "/l/dev-clean/84/121123/84-121123.trans.txt"
              [("84-121123-0000", ["GO"; "DO"; "YOU"; "HEAR"])]
              libri_stale_world) as (_ & H & _).
  - repeat constructor; done.
  - vm_compute. reflexivity.
  - exact H.
Defined.

Lemma short_annotation_line_witness :
  @timit_prepare.append_line (example_collaborators false ∅) None
    timit_prepare.init_locals ("spk1", "spk1_u00")
    "/d/train/dr1/spk1/u00.wav" timit_world_blank_line =
  mkRes (inl IndexError) timit_world_blank_line [].
Proof.
  apply (proj2 (@short_annotation_line (example_collaborators false ∅) nl)
           None timit_prepare.init_locals ("spk1", "spk1_u00")
           "/d/train/dr1/spk1/u00.wav" timit_world_blank_line 32000%N
           ["0 100 hello" +:+ nl; nl]).
  - vm_compute. reflexivity.
  - vm_compute. eauto.
  - vm_compute. reflexivity.
  - apply list_elem_of_In. simpl. auto.
  - vm_compute. lia.
Defined.

Lemma corpus_left_alone_witness :
  final (@timit_prepare.init (example_collaborators false ∅)
           (timit_options ["train"] None) None None (timit_world 2))
    !! "/d/train/dr1/spk1/u00.wrd" =
  Some (Text ["0 100 hello" +:+ nl; "100 200 world" +:+ nl]) ∧
  final (@librispeech_prepare.init (example_collaborators false ∅)
           libri_options None None libri_world)
    !! "/l/dev-clean/84/121123/84-121123-0000.flac" =
  Some (Audio 32000).
Proof.
  split.
  - refine (proj1 (@corpus_left_alone (example_collaborators false ∅)
                     "/d/train/dr1/spk1/u00.wrd"
                     (Text ["0 100 hello" +:+ nl; "100 200 world" +:+ nl])
                     (timit_world 2) _)
              (timit_options ["train"] None) None None _).
    + vm_compute. reflexivity.
    + intros s Hs. vm_compute in Hs. injection Hs as <-. reflexivity.
  - refine (proj2 (@corpus_left_alone (example_collaborators false ∅)
                     "/l/dev-clean/84/121123/84-121123-0000.flac"
                     (Audio 32000) libri_world _)
              libri_options None None _ _).
    + vm_compute. reflexivity.
    + repeat constructor.
    + intros s Hs. vm_compute in Hs. injection Hs as <-. reflexivity.
Defined.

(** The strip of a transcription line removes the no-break space and the
    next-line control as it removes the space. *)
Lemma strip_latin1_spaces :
  PyStr.strip
    (String (ascii_of_nat 160) ("WORD" +:+ String (ascii_of_nat 133) " "))
  = "WORD".
Proof. reflexivity. Qed.

Lemma timit_manifest_complete_witness :
  ∃ lines,
    manifests_written
      (trace (@timit_prepare.create_scp
                (example_collaborators false (labels_for 2))
                (timit_self ["train"] (Some "/ali")) (timit_wavs 2)
                "/out/train.scp" (Some "/ali") None (timit_world 2))) =
      [("/out/train.scp", lines)] ∧
    length lines = 2 ∧
    ∃ line labs,
      lines !! 1 = Some line ∧
      @timit_record (example_collaborators false (labels_for 2))
        (timit_self ["train"] (Some "/ali")) labs (timit_world 2)
        (take 1 (timit_wavs 2)) "/d/train/dr1/spk1/u01.wav" line.
Proof.
  destruct (@timit_manifest_complete
              (example_collaborators false (labels_for 2))
              (timit_self ["train"] (Some "/ali")) (timit_wavs 2)
              "/out/train.scp" (Some "/ali") None (timit_world 2))
    as (lines & labs & H1 & _ & H3 & _ & H5).
  - vm_compute. reflexivity.
  - exists lines. split; [exact H1 |]. split; [exact H3 |].
    destruct (H5 1 "/d/train/dr1/spk1/u01.wav") as (line & Hl & Hr).
    + vm_compute. reflexivity.
    + exists line, labs. split; [exact Hl | exact Hr].
Defined.

Lemma librispeech_manifest_complete_witness :
  ∃ lines,
    manifests_written
      (trace (@librispeech_prepare.create_scp
                (example_collaborators false ∅) libri_self
                ["/l/dev-clean/84/121123/84-121123-0000.flac"]
                (<["84-121123-0000" := "GO_DO_YOU_HEAR"]> ∅) "dev-clean" 0
                libri_world)) = [("/out/dev-clean.scp", lines)] ∧
    length lines = 1.
Proof.
  destruct (@librispeech_manifest_complete (example_collaborators false ∅)
              libri_self ["/l/dev-clean/84/121123/84-121123-0000.flac"]
              (<["84-121123-0000" := "GO_DO_YOU_HEAR"]> ∅) "dev-clean" 0
              libri_world) as (lines & H1 & _ & _ & H4).
  - vm_compute. reflexivity.
  - exists lines. split; [exact H1 | exact H4].
Defined.

Lemma fingerprint_only_on_success_witness :
  Forall (λ ev, ¬ writes_to "/out/opt_timit_prepare.pkl" ev)
    (trace (@timit_prepare.init (example_collaborators false ∅)
              (timit_options ["train"] None) None None
              (timit_world_no_wrd 2))).
Proof.
  refine (proj1 (proj1 (@fingerprint_only_on_success
                          (example_collaborators false ∅))
                   (timit_options ["train"] None) None None
                   (timit_world_no_wrd 2)
                   {| timit_prepare.opts := timit_options ["train"] None;
                      timit_prepare.save_folder := "/out";
                      timit_prepare.global_config := None |} _) _).
  - vm_compute. reflexivity.
  - eexists. vm_compute. reflexivity.
Defined.

Lemma changed_configuration_rebuilds_witness :
  outcome (@timit_prepare.skip (example_collaborators false ∅)
             {| timit_prepare.opts := timit_options ["train"] None;
                timit_prepare.save_folder := "/out";
                timit_prepare.global_config := None |}
             timit_world_other_config) = inr false.
Proof.
  refine (proj1 (proj1 (@changed_configuration_rebuilds
                          (example_collaborators false ∅))
                   (timit_options ["train"] None) None None
                   timit_world_other_config
                   {| timit_prepare.opts := timit_options ["train"] None;
                      timit_prepare.save_folder := "/out";
                      timit_prepare.global_config := None |} PyNone _ _ _)).
  - vm_compute. reflexivity.
  - vm_compute. reflexivity.
  - reflexivity.
Defined.

Lemma missing_folder_stops_build_witness :
  ∃ msg,
    @timit_prepare.build (example_collaborators true ∅)
      (timit_self ["train"] None) (timit_world_no_wrd 2) =
    mkRes (inl (LoggedError msg)) (timit_world_no_wrd 2) [EvLog Error msg].
Proof.
  apply (proj1 (proj1 (@missing_folder_stops_build
                         (example_collaborators true ∅)) eq_refl)).
  left. vm_compute. reflexivity.
Defined.

Lemma labels_stored_witness :
  final (@timit_prepare.create_scp (example_collaborators false (labels_for 2))
           (timit_self ["train"] (Some "/ali")) (timit_wavs 2)
           "/out/train.scp" (Some "/ali") None (timit_world 2))
    !! "/out/kaldi_labels/spk1_u00.pkl" =
  Some (Pickle (PyLabel [1; 2; 3]%Z)).
Proof.
  apply (@labels_stored (example_collaborators false (labels_for 2))
           (timit_self ["train"] (Some "/ali")) (timit_wavs 2)
           "/out/train.scp" "/ali" None (timit_world 2) (labels_for 2)
           (example_labels_are _ _ _)
           ltac:(vm_compute; reflexivity)
           "/d/train/dr1/spk1/u00.wav" ("spk1", "spk1_u00") [1; 2; 3]%Z).
  - apply list_elem_of_In. vm_compute. auto.
  - vm_compute. reflexivity.
  - vm_compute. reflexivity.
  - vm_compute. discriminate.
Defined.

Lemma annotation_line_third_field_witness :
  timit_prepare.word_of_line ("0 100 hello" +:+ nl) = Some "hello" ∧
  timit_prepare.phoneme_of_line ("0 10 h#" +:+ nl) = Some "sil".
Proof.
  split.
  - apply (proj1 (annotation_line_third_field "0" "100" "hello"
                    eq_refl eq_refl eq_refl ltac:(discriminate) eq_refl)).
  - apply (proj1 (proj2 (annotation_line_third_field "0" "10" "h#"
                           eq_refl eq_refl eq_refl ltac:(discriminate)
                           eq_refl) eq_refl eq_refl)).
Defined.

Lemma select_n_sentences_too_short_witness :
  ∃ e,
    @librispeech_prepare.prepare_split (example_collaborators false ∅)
      libri_self_short () 0 libri_world = mkRes (inl e) libri_world [].
Proof.
  destruct (@select_n_sentences_too_short (example_collaborators false ∅)
              libri_self_short 0 "dev-clean" [] libri_world
              eq_refl eq_refl eq_refl) as (e & H & _).
  by exists e.
Defined.

Lemma first_label_missing_aborts_witness :
  ∃ e,
    outcome (@timit_prepare.create_scp (example_collaborators false ∅)
               (timit_self ["train"] (Some "/ali")) (timit_wavs 2)
               "/out/train.scp" (Some "/ali") None (timit_world 2)) = inl e.
Proof.
  assert (is_missing (∅ : gmap string (list Z)) "/d/train/dr1/spk1/u00.wav"
          = true) as Hmiss by (vm_compute; reflexivity).
  apply (proj1 (@first_label_missing_aborts (example_collaborators false ∅)
                  (timit_self ["train"] (Some "/ali"))
                  "/d/train/dr1/spk1/u00.wav" ["/d/train/dr1/spk1/u01.wav"]
                  "/out/train.scp" "/ali" None (timit_world 2) ∅
                  (example_labels_are _ _ _) Hmiss)).
Defined.

Lemma libri_second_run_skips_witness :
  List.filter is_fs_work
    (trace (@librispeech_prepare.init (example_collaborators false ∅)
              libri_options None None
              (final (@librispeech_prepare.init
                        (example_collaborators false ∅) libri_options None
                        None libri_world)))) = [].
Proof.
  destruct (@libri_second_run_skips (example_collaborators false ∅)
              libri_options None None libri_world) as (_ & _ & H).
  - vm_compute. reflexivity.
  - exact H.
Defined.

Lemma timit_second_run_skips_witness :
  List.filter is_fs_work
    (trace (@timit_prepare.init (example_collaborators false ∅)
              (timit_options ["train"; "dev"; "test"] None) None None
              (final (@timit_prepare.init (example_collaborators false ∅)
                        (timit_options ["train"; "dev"; "test"] None) None
                        None (timit_world 2))))) = [].
Proof.
  destruct (@timit_second_run_skips (example_collaborators false ∅)
              (timit_options ["train"; "dev"; "test"] None) None None
              (timit_world 2)) as (_ & _ & H).
  - apply list_elem_of_In. simpl. auto.
  - apply list_elem_of_In. simpl. auto.
  - apply list_elem_of_In. simpl. auto.
  - vm_compute. reflexivity.
  - exact H.
Defined.
